(** * Off-screen QML renderer of the MLT qt module

    A shallow embedding of [qml_wrapper.cpp], [corerenderer.cpp] and
    [producer_qml.cpp]: the deterministic animation clock, the render
    worker, the renderer facade with its event loop, the scene metadata
    walk and the producer's [get_image] callback.

    C++ [int] and [qint64] values are integers of [Z] kept inside their
    range; an operation that C++ leaves undefined (signed overflow,
    division by zero, a null dereference, a missing [return]) or that
    never returns (a wait nobody wakes) yields a [Fault]. *)

From stdpp Require Import base option strings list gmap pretty.
From Stdlib Require Import ZArith Lia QArith Qround Strings.Byte.

Set Warnings "-register-all".
Local Open Scope Z_scope.

(** ** Outcomes of a C++ computation *)

Inductive fault : Set :=
  | SignedOverflow      (* result of an int / qint64 operation out of range *)
  | DivisionByZero      (* integer division with a zero divisor *)
  | NullDereference     (* member access through an absent object *)
  | AssertionFailed     (* Q_ASSERT in a debug build *)
  | MissingReturn       (* control flows off the end of a non-void function *)
  | EmptyRangeDeref     (* dereference of the end iterator *)
  | UseAfterDelete      (* member access through a deleted object *)
  | BlockedForever.     (* QWaitCondition::wait that is never woken *)

Inductive result (A : Type) : Type :=
  | Ok (a : A)
  | Fault (f : fault).
Arguments Ok {A} a.
Arguments Fault {A} f.

#[global] Instance result_ret : MRet result := fun _ a => Ok a.
#[global] Instance result_bind : MBind result := fun _ _ k r =>
  match r with
  | Ok a => k a
  | Fault f => Fault f
  end.

Definition is_ok {A} (r : result A) : bool :=
  match r with Ok _ => true | Fault _ => false end.

(** ** Machine integers *)

Definition INT_MIN : Z := - 2 ^ 31.
Definition INT_MAX : Z := 2 ^ 31 - 1.
Definition in_int (z : Z) : bool := (INT_MIN <=? z) && (z <=? INT_MAX).

Definition INT64_MIN : Z := - 2 ^ 63.
Definition INT64_MAX : Z := 2 ^ 63 - 1.
Definition in_qint64 (z : Z) : bool := (INT64_MIN <=? z) && (z <=? INT64_MAX).

(** The value of an [int] expression whose mathematical value is [z]. *)
Definition int_of (z : Z) : result Z :=
  if in_int z then Ok z else Fault SignedOverflow.

Definition qint64_of (z : Z) : result Z :=
  if in_qint64 z then Ok z else Fault SignedOverflow.

(** [a / b] on [int]: truncation toward zero. *)
Definition int_div (a b : Z) : result Z :=
  if b =? 0 then Fault DivisionByZero else int_of (Z.quot a b).

(** Q_ASSERT: checked in a debug build, compiled out otherwise. *)
Definition Q_ASSERT (debug : bool) (cond : bool) : result unit :=
  if debug && negb cond then Fault AssertionFailed else Ok tt.

(** ** The deterministic clock: class QmlAnimationDriver *)

Module Driver.

(** [animation_ticks] is the effect of QAnimationDriver::advanceAnimation():
    how many times the running animations have been stepped. *)
Record QmlAnimationDriver : Set := mkDriver {
  m_step : Z;
  m_elapsed : Z;
  animation_ticks : nat
}.

Definition create (msPerStep : Z) : QmlAnimationDriver :=
  {| m_step := msPerStep; m_elapsed := 0; animation_ticks := 0%nat |}.

Definition advance (d : QmlAnimationDriver) : result QmlAnimationDriver :=
  e ← qint64_of (m_elapsed d + m_step d);
  Ok {| m_step := m_step d; m_elapsed := e;
        animation_ticks := S (animation_ticks d) |}.

Definition elapsed (d : QmlAnimationDriver) : Z := m_elapsed d.

(** [n] successive calls of advance(). *)
Fixpoint advance_n (n : nat) (d : QmlAnimationDriver) : result QmlAnimationDriver :=
  match n with
  | O => Ok d
  | S k => d' ← advance d; advance_n k d'
  end.

End Driver.

(** ** Scene metadata utilities: getIntProp and getMaxDuration *)

Module Scene.

(** A QObject as the two functions see it: the class name of its
    meta-object, its meta-properties in index order, each with the value
    QVariant::toInt() gives for it, and its children in order. *)
Inductive QObject : Set :=
  mkQObject (className : string) (properties : list (string * Z))
            (children : list QObject).

Definition className (o : QObject) : string :=
  match o with mkQObject n _ _ => n end.
Definition properties (o : QObject) : list (string * Z) :=
  match o with mkQObject _ p _ => p end.
Definition children (o : QObject) : list QObject :=
  match o with mkQObject _ _ c => c end.

(** QString::contains on a literal: some suffix of [s] starts with [sub]. *)
Fixpoint contains (s sub : string) : bool :=
  String.prefix sub s ||
  match s with
  | EmptyString => false
  | String _ rest => contains rest sub
  end.

(** The loop of getIntProp over property(i), i = 0 .. propertyCount()-1. *)
Fixpoint getIntProp_loop (props : list (string * Z)) (propertyName : string) : Z :=
  match props with
  | [] => 0
  | (name, propertyValue) :: rest =>
      if String.eqb name propertyName then
        if propertyValue >? 0 then
          if String.eqb propertyName "duration"
          then Z.quot propertyValue 1000
          else propertyValue
        else getIntProp_loop rest propertyName
      else getIntProp_loop rest propertyName
  end.

Definition getIntProp (object : QObject) (propertyName : string) : Z :=
  getIntProp_loop (properties object) propertyName.

(** *std::max_element(begin, end): the end iterator when the range is empty. *)
Definition max_element (durationList : list Z) : result Z :=
  match durationList with
  | [] => Fault EmptyRangeDeref
  | d :: rest => Ok (fold_left Z.max rest d)
  end.

Definition is_leaf_animation (name : string) : bool :=
  contains name "NumberAnimation" || contains name "ColorAnimation" ||
  contains name "PauseAnimation" || contains name "PathAnimation" ||
  contains name "RotationAnimation" || contains name "PropertyAnimation".

(** getMaxDuration on a non-null object. *)
Fixpoint getMaxDuration_obj (root : QObject) : result Z :=
  match root with
  | mkQObject name _ kids =>
      if contains name "Sequential" then
        (fix sequential (l : list QObject) (dur_seq : Z) : result Z :=
           match l with
           | [] => Ok dur_seq
           | child :: l' =>
               childDuration ← getMaxDuration_obj child;
               dur_seq' ← int_of (dur_seq + childDuration);
               sequential l' dur_seq'
           end) kids 0
      else if contains name "Parallel" then
        durationList ←
          (fix parallel (l : list QObject) : result (list Z) :=
             match l with
             | [] => Ok []
             | child :: l' =>
                 d ← getMaxDuration_obj child;
                 ds ← parallel l';
                 Ok (d :: ds)
             end) kids;
        max_element durationList
      else if is_leaf_animation name then
        Ok (getIntProp root "duration")
      else
        (fix other (l : list QObject) : result Z :=
           match l with
           | [] => Fault MissingReturn
           | child :: l' =>
               duration ← getMaxDuration_obj child;
               if duration >? 0 then Ok duration else other l'
           end) kids
  end.

(** getMaxDuration(QObject *root): [None] is the null pointer. *)
Definition getMaxDuration (root : option QObject) : result Z :=
  match root with
  | None => Ok 0
  | Some o => getMaxDuration_obj o
  end.

(** The first property named [propertyName] with a positive value, as the
    specification of getIntProp words it. *)
Definition first_positive_property (object : QObject) (propertyName : string)
  : option (string * Z) :=
  List.find (fun p => String.eqb (fst p) propertyName && (0 <? snd p))
            (properties object).

End Scene.

(** ** Pointers, sizes and images *)

Inductive pointer (A : Type) : Type :=
  | Null
  | Live (a : A)
  | Deleted.
Arguments Null {A}.
Arguments Live {A} a.
Arguments Deleted {A}.

Definition deref {A} (p : pointer A) : result A :=
  match p with
  | Null => Fault NullDereference
  | Live a => Ok a
  | Deleted => Fault UseAfterDelete
  end.

Record QSize : Set := mkQSize { width : Z; height : Z }.

Definition QSize_eqb (a b : QSize) : bool :=
  (width a =? width b) && (height a =? height b).

(** QSize::isEmpty(): either side is less than 1. *)
Definition isEmpty (s : QSize) : bool := (width s <? 1) || (height s <? 1).

(** qRound on a qreal, held as a rational. *)
Definition qRound (d : Q) : Z := Qfloor (d + (1 # 2))%Q.

(** QSize * qreal. *)
Definition scaled (s : QSize) (c : Q) : QSize :=
  {| width := qRound (inject_Z (width s) * c)%Q;
     height := qRound (inject_Z (height s) * c)%Q |}.

Inductive QImageFormat : Set :=
  | Format_Invalid | Format_ARGB32 | Format_RGBA8888.

(** A rendered image: its dimensions, its pixel format and the scene it
    shows, given by the number of animation steps taken before the draw. *)
Record QImage : Set := mkQImage {
  img_size : QSize;
  img_format : QImageFormat;
  img_scene : nat
}.

(** QOpenGLFramebufferObject: [fbo_id] tells one allocation from another. *)
Record Fbo : Set := mkFbo { fbo_id : nat; fbo_size : QSize }.

(** The events a worker is sent: INIT .. STOP are QEvent::User + 1 .. + 4;
    any other event goes to QObject::event, whose answer is [handled]. *)
Inductive QEventType : Set :=
  | INIT | RENDER | RESIZE | STOP
  | OtherEvent (handled : bool).

(** ** The render worker of qml_wrapper.cpp: class QmlCoreRenderer *)

Module QmlCoreRenderer.

(** [context_ok]: whether QOpenGLContext::makeCurrent succeeds;
    [fbo_created]: framebuffer objects allocated so far;
    [wakes]: calls of m_cond.wakeOne() so far. An absent [m_image] is the
    null QImage. *)
Record t : Type := mk {
  context_ok : bool;
  scene_graph_initialized : bool;
  m_fbo : option Fbo;
  m_format : QImageFormat;
  m_size : QSize;
  m_dpr : Q;
  m_fps : Z;
  m_image : option QImage;
  fbo_created : nat;
  wakes : nat
}.

Definition create (context_ok : bool) : t :=
  {| context_ok := context_ok; scene_graph_initialized := false;
     m_fbo := None; m_format := Format_Invalid;
     m_size := mkQSize (-1) (-1); m_dpr := 0%Q; m_fps := 0;
     m_image := None; fbo_created := 0%nat; wakes := 0%nat |}.

Definition setSize (s : QSize) (w : t) : t :=
  mk (context_ok w) (scene_graph_initialized w) (m_fbo w) (m_format w) s
     (m_dpr w) (m_fps w) (m_image w) (fbo_created w) (wakes w).
Definition setDPR (value : Q) (w : t) : t :=
  mk (context_ok w) (scene_graph_initialized w) (m_fbo w) (m_format w)
     (m_size w) value (m_fps w) (m_image w) (fbo_created w) (wakes w).
Definition setFPS (value : Z) (w : t) : t :=
  mk (context_ok w) (scene_graph_initialized w) (m_fbo w) (m_format w)
     (m_size w) (m_dpr w) value (m_image w) (fbo_created w) (wakes w).
Definition setFormat (f : QImageFormat) (w : t) : t :=
  mk (context_ok w) (scene_graph_initialized w) (m_fbo w) f
     (m_size w) (m_dpr w) (m_fps w) (m_image w) (fbo_created w) (wakes w).
Definition getRenderedQImage (w : t) : option QImage := m_image w.

(** init(): makeCurrent, then m_renderControl->initialize(m_context). *)
Definition init (w : t) : t :=
  mk (context_ok w) true (m_fbo w) (m_format w)
     (m_size w) (m_dpr w) (m_fps w) (m_image w) (fbo_created w) (wakes w).

Definition ensureFbo (debug : bool) (w : t) : result t :=
  _ ← Q_ASSERT debug (negb (isEmpty (m_size w)));
  _ ← Q_ASSERT debug (negb (Qeq_bool (m_dpr w) 0%Q));
  let kept :=
    match m_fbo w with
    | Some fbo =>
        if negb (QSize_eqb (fbo_size fbo) (scaled (m_size w) (m_dpr w)))
        then None            (* delete m_fbo; m_fbo = nullptr *)
        else Some fbo
    | None => None
    end in
  match kept with
  | Some fbo =>
      Ok (mk (context_ok w) (scene_graph_initialized w) (Some fbo) (m_format w)
             (m_size w) (m_dpr w) (m_fps w) (m_image w) (fbo_created w) (wakes w))
  | None =>
      let fbo := {| fbo_id := fbo_created w;
                    fbo_size := scaled (m_size w) (m_dpr w) |} in
      _ ← Q_ASSERT debug (scene_graph_initialized w);
      Ok (mk (context_ok w) (scene_graph_initialized w) (Some fbo) (m_format w)
             (m_size w) (m_dpr w) (m_fps w) (m_image w)
             (S (fbo_created w)) (wakes w))
  end.

(** render(lock), run for a RENDER event while the scene shows the state
    reached after [scene] animation steps. *)
Definition render (debug : bool) (scene : nat) (w : t) : result t :=
  if negb (context_ok w) then Ok w     (* qWarning(...); return; *)
  else
    w1 ← ensureFbo debug w;
    match m_fbo w1 with
    | None => Fault NullDereference
    | Some fbo =>
        let image := {| img_size := fbo_size fbo; img_format := m_format w1;
                        img_scene := scene |} in
        Ok (mk (context_ok w1) (scene_graph_initialized w1) (m_fbo w1)
               (m_format w1) (m_size w1) (m_dpr w1) (m_fps w1) (Some image)
               (fbo_created w1) (S (wakes w1)))
    end.

(** The three assertions of ensureFbo() hold. *)
Definition ready (w : t) : Prop :=
  isEmpty (m_size w) = false /\ Qeq_bool (m_dpr w) 0%Q = false /\
  scene_graph_initialized w = true.

(** cleanup(): the scene graph is invalidated, the target deleted and
    the waiting thread woken; what makeCurrent answers is not looked at. *)
Definition cleanup (w : t) : t :=
  mk (context_ok w) false None (m_format w) (m_size w) (m_dpr w) (m_fps w)
     (m_image w) (fbo_created w) (S (wakes w)).

(** event(e), handled while the scene shows the state reached after
    [scene] animation steps: the new state and the returned flag. *)
Definition event (debug : bool) (scene : nat) (e : QEventType) (w : t)
  : result (t * bool) :=
  match e with
  | INIT => Ok (init w, true)
  | RENDER => w' ← render debug scene w; Ok (w', true)
  | RESIZE => Ok (w, true)                       (* // TODO *)
  | STOP => Ok (cleanup w, true)
  | OtherEvent handled => Ok (w, handled)        (* QObject::event(e) *)
  end.

(** The worker thread's event loop: the posted events are handled in
    posting order, each with the scene as it is at that time. *)
Fixpoint deliver (debug : bool) (events : list (QEventType * nat)) (w : t)
  : result t :=
  match events with
  | [] => Ok w
  | (e, scene) :: rest =>
      '(w', _) ← event debug scene e w;
      deliver debug rest w'
  end.

End QmlCoreRenderer.

(** ** The render worker of corerenderer.cpp: class CoreRenderer *)

Module CoreRenderer.

Record t : Type := mk {
  context_ok : bool;
  scene_graph_initialized : bool;
  m_fbo : option Fbo;
  m_animationDriver : pointer Driver.QmlAnimationDriver;
  m_format : QImageFormat;
  m_size : QSize;
  m_dpr : Q;
  m_fps : Z;
  image : option QImage;
  fbo_created : nat;
  wakes : nat
}.

Definition setSize (s : QSize) (w : t) : t :=
  mk (context_ok w) (scene_graph_initialized w) (m_fbo w) (m_animationDriver w)
     (m_format w) s (m_dpr w) (m_fps w) (image w) (fbo_created w) (wakes w).

(** init(): the driver steps by 1000/m_fps after Q_ASSERT(m_fps>0). *)
Definition init (debug : bool) (w : t) : result t :=
  _ ← Q_ASSERT debug (m_fps w >? 0);
  step ← int_div 1000 (m_fps w);
  Ok (mk (context_ok w) true (m_fbo w) (Live (Driver.create step))
         (m_format w) (m_size w) (m_dpr w) (m_fps w) (image w)
         (fbo_created w) (wakes w)).

(** ensureFbo(): the body of the size test is commented out
    ([// m_fbo.reset();]), so an existing target is always kept. *)
Definition ensureFbo (debug : bool) (w : t) : result t :=
  _ ← Q_ASSERT debug (negb (isEmpty (m_size w)));
  _ ← Q_ASSERT debug (negb (Qeq_bool (m_dpr w) 0%Q));
  match m_fbo w with
  | Some fbo => Ok w
  | None =>
      let fbo := {| fbo_id := fbo_created w;
                    fbo_size := scaled (m_size w) (m_dpr w) |} in
      _ ← Q_ASSERT debug (scene_graph_initialized w);
      Ok (mk (context_ok w) (scene_graph_initialized w) (Some fbo)
             (m_animationDriver w) (m_format w) (m_size w) (m_dpr w)
             (m_fps w) (image w) (S (fbo_created w)) (wakes w))
  end.

Definition render (debug : bool) (scene : nat) (w : t) : result t :=
  if negb (context_ok w) then Ok w     (* qWarning(...); return; *)
  else
    w1 ← ensureFbo debug w;
    match m_fbo w1 with
    | None => Fault NullDereference
    | Some fbo =>
        let img := {| img_size := fbo_size fbo; img_format := m_format w1;
                      img_scene := scene |} in
        d ← deref (m_animationDriver w1);
        d' ← Driver.advance d;
        Ok (mk (context_ok w1) (scene_graph_initialized w1) (m_fbo w1)
               (Live d') (m_format w1) (m_size w1) (m_dpr w1) (m_fps w1)
               (Some img) (fbo_created w1) (S (wakes w1)))
    end.

(** cleanup(): the scene graph is invalidated and the waiting thread
    woken; the target is left in place. *)
Definition cleanup (w : t) : t :=
  mk (context_ok w) false (m_fbo w) (m_animationDriver w) (m_format w)
     (m_size w) (m_dpr w) (m_fps w) (image w) (fbo_created w) (S (wakes w)).

(** event(e): the new state and the returned flag. *)
Definition event (debug : bool) (scene : nat) (e : QEventType) (w : t)
  : result (t * bool) :=
  match e with
  | INIT => w' ← init debug w; Ok (w', true)
  | RENDER => w' ← render debug scene w; Ok (w', true)
  | RESIZE => Ok (w, true)                       (* // TODO *)
  | STOP => Ok (cleanup w, true)
  | OtherEvent handled => Ok (w, handled)        (* QObject::event(e) *)
  end.

Fixpoint deliver (debug : bool) (events : list (QEventType * nat)) (w : t)
  : result t :=
  match events with
  | [] => Ok w
  | (e, scene) :: rest =>
      '(w', _) ← event debug scene e w;
      deliver debug rest w'
  end.

End CoreRenderer.

(** ** The renderer facade of qml_wrapper.cpp: class QmlRenderer *)

Module QmlRenderer.

Inductive renderStatus : Set := NotRunning | Initialised.

(** What the QML engine makes of the document behind m_qmlFileUrl. *)
Inductive document : Set :=
  | CompileError      (* the component isError() as soon as it is loaded *)
  | CreationError     (* create() gives no object and leaves an error *)
  | RootObject (root : Scene.QObject) (is_item : bool).
                      (* create() gives [root]; it is a QQuickItem iff [is_item] *)

Record QQuickItem : Set := mkItem {
  item_object : Scene.QObject;
  item_width : Z;
  item_height : Z
}.

(** Events posted to the calling thread: the queued call of
    QEventLoop::quit that a queued imageReady() leaves, and the
    QEvent::UpdateRequest the renderer posts to itself. *)
Inductive event : Set := MetaCallQuit | UpdateRequest.

Definition is_UpdateRequest (e : event) : bool :=
  match e with UpdateRequest => true | MetaCallQuit => false end.

Record t : Type := mk {
  m_qmlFileUrl : document;
  m_status : renderStatus;
  m_duration : Z;
  m_fps : Z;
  m_framesCount : Z;
  m_currentFrame : Z;
  m_requestedFrame : Z;
  m_size : QSize;
  m_ImageFormat : QImageFormat;
  m_dpr : Q;
  m_img : option QImage;
  m_animationDriver : pointer Driver.QmlAnimationDriver;
  m_rootItem : pointer QQuickItem;
  m_corerenderer : QmlCoreRenderer.t;
  posted : list event
}.

Definition set_frames (cur req : Z) (r : t) : t :=
  mk (m_qmlFileUrl r) (m_status r) (m_duration r) (m_fps r) (m_framesCount r)
     cur req (m_size r) (m_ImageFormat r) (m_dpr r) (m_img r)
     (m_animationDriver r) (m_rootItem r) (m_corerenderer r) (posted r).
Definition set_driver (d : pointer Driver.QmlAnimationDriver) (r : t) : t :=
  mk (m_qmlFileUrl r) (m_status r) (m_duration r) (m_fps r) (m_framesCount r)
     (m_currentFrame r) (m_requestedFrame r) (m_size r) (m_ImageFormat r)
     (m_dpr r) (m_img r) d (m_rootItem r) (m_corerenderer r) (posted r).
Definition set_core (c : QmlCoreRenderer.t) (r : t) : t :=
  mk (m_qmlFileUrl r) (m_status r) (m_duration r) (m_fps r) (m_framesCount r)
     (m_currentFrame r) (m_requestedFrame r) (m_size r) (m_ImageFormat r)
     (m_dpr r) (m_img r) (m_animationDriver r) (m_rootItem r) c (posted r).
Definition set_img (i : option QImage) (r : t) : t :=
  mk (m_qmlFileUrl r) (m_status r) (m_duration r) (m_fps r) (m_framesCount r)
     (m_currentFrame r) (m_requestedFrame r) (m_size r) (m_ImageFormat r)
     (m_dpr r) i (m_animationDriver r) (m_rootItem r) (m_corerenderer r)
     (posted r).
Definition set_rootItem (p : pointer QQuickItem) (r : t) : t :=
  mk (m_qmlFileUrl r) (m_status r) (m_duration r) (m_fps r) (m_framesCount r)
     (m_currentFrame r) (m_requestedFrame r) (m_size r) (m_ImageFormat r)
     (m_dpr r) (m_img r) (m_animationDriver r) p (m_corerenderer r) (posted r).
Definition set_posted (q : list event) (r : t) : t :=
  mk (m_qmlFileUrl r) (m_status r) (m_duration r) (m_fps r) (m_framesCount r)
     (m_currentFrame r) (m_requestedFrame r) (m_size r) (m_ImageFormat r)
     (m_dpr r) (m_img r) (m_animationDriver r) (m_rootItem r)
     (m_corerenderer r) q.
Definition set_request (s : QSize) (f : QImageFormat) (r : t) : t :=
  mk (m_qmlFileUrl r) (m_status r) (m_duration r) (m_fps r) (m_framesCount r)
     (m_currentFrame r) (m_requestedFrame r) s f
     (m_dpr r) (m_img r) (m_animationDriver r) (m_rootItem r)
     (m_corerenderer r) (posted r).
Definition set_status (s : renderStatus) (r : t) : t :=
  mk (m_qmlFileUrl r) s (m_duration r) (m_fps r) (m_framesCount r)
     (m_currentFrame r) (m_requestedFrame r) (m_size r) (m_ImageFormat r)
     (m_dpr r) (m_img r) (m_animationDriver r) (m_rootItem r)
     (m_corerenderer r) (posted r).

(** Whether a batch of events holds a quit call. *)
Definition has_quit (q : list event) : bool :=
  existsb (fun e => negb (is_UpdateRequest e)) q.

(** QCoreApplication::postEvent to the calling thread. *)
Definition postEvent (e : event) (r : t) : t := set_posted (posted r ++ [e]) r.

(** emit imageReady(): connected, queued, to the quit slot of the event
    loop that render() runs. *)
Definition emit_imageReady (r : t) : t := postEvent MetaCallQuit r.

(** The constructor: m_dpr(1.0), m_currentFrame(0),
    m_framesCount(fps*duration); the worker gets the context, the DPR and
    the FPS. [context_ok] is whether the worker will be able to make the
    context current. *)
Definition create (context_ok : bool) (qmlFileUrl : document) (fps duration : Z)
  : result t :=
  framesCount ← int_of (fps * duration);
  let core := QmlCoreRenderer.setFPS fps
                (QmlCoreRenderer.setDPR 1%Q (QmlCoreRenderer.create context_ok)) in
  Ok {| m_qmlFileUrl := qmlFileUrl; m_status := NotRunning;
        m_duration := duration; m_fps := fps; m_framesCount := framesCount;
        m_currentFrame := 0; m_requestedFrame := 0;
        m_size := mkQSize (-1) (-1); m_ImageFormat := Format_Invalid;
        m_dpr := 1%Q; m_img := None; m_animationDriver := Null;
        m_rootItem := Null; m_corerenderer := core; posted := [] |}.

Section Build.
(** Whether Q_ASSERT is compiled in. *)
Variable debug : bool.

Definition initDriver (r : t) : result t :=
  correctedFrames ← int_of (m_framesCount r - 2);
  correctedFps ← int_div correctedFrames (m_duration r);
  msPerStep ← int_div 1000 correctedFps;
  Ok (set_driver (Live (Driver.create msPerStep)) r).

Definition resetDriver (r : t) : result t :=
  _ ← deref (m_animationDriver r);
  Ok (set_driver Null r).

(** checkQmlComponent() before and after create(). *)
Definition checkQmlComponent (after_create : bool) (c : document) : bool :=
  match c with
  | CompileError => false
  | CreationError => negb after_create
  | RootObject _ _ => true
  end.

(** loadRootObject(): the new state and the returned flag. *)
Definition loadRootObject (c : document) (r : t) : result (t * bool) :=
  if negb (checkQmlComponent false c) then Ok (r, false)
  else
    let rootObject :=
      match c with RootObject o is_item => Some (o, is_item) | _ => None end in
    _ ← Q_ASSERT debug (bool_decide (is_Some rootObject));
    _ ← Q_ASSERT debug (bool_decide (is_Some rootObject));
    if negb (checkQmlComponent true c) then Ok (r, false)
    else
      match rootObject with
      | Some (o, true) =>
          Ok (set_rootItem (Live (mkItem o 0 0)) r, true)
      | _ => Ok (set_rootItem Null r, false)
      end.

Definition loadInput (r : t) : result t :=
  let c := m_qmlFileUrl r in
  '(r1, assert) ← loadRootObject c r;
  _ ← Q_ASSERT debug assert;
  _ ← Q_ASSERT debug (negb (isEmpty (m_size r1)));
  item ← deref (m_rootItem r1);
  Ok (set_rootItem
        (Live (mkItem (item_object item) (width (m_size r1)) (height (m_size r1))))
        r1).

Definition init (width height : Z) (imageFormat : QImageFormat) (r : t)
  : result t :=
  if match m_status r with NotRunning => true | Initialised => false end
     || (m_duration r >? 0)
  then
    r1 ← initDriver r;
    let r2 := set_request (mkQSize width height) imageFormat r1 in
    let r3 := set_core (QmlCoreRenderer.setFormat (m_ImageFormat r2)
                          (QmlCoreRenderer.setSize (m_size r2)
                             (m_corerenderer r2))) r2 in
    r4 ← loadInput r3;
    (* requestInit(): the worker handles INIT before any later RENDER *)
    let r5 := set_core (QmlCoreRenderer.init (m_corerenderer r4)) r4 in
    Ok (set_status Initialised r5)
  else Ok r.

(** The scene the worker synchronizes with: the animations as stepped
    by the installed driver. *)
Definition scene_now (r : t) : nat :=
  match m_animationDriver r with
  | Live d => Driver.animation_ticks d
  | _ => 0%nat
  end.

(** polishSyncRender(): post RENDER and wait on the worker's condition;
    the wait ends only if the worker wakes it. *)
Definition polishSyncRender (r : t) : result t :=
  let before := QmlCoreRenderer.wakes (m_corerenderer r) in
  core ← QmlCoreRenderer.render debug (scene_now r) (m_corerenderer r);
  if (before <? QmlCoreRenderer.wakes core)%nat
  then Ok (set_core core r)
  else Fault BlockedForever.

Definition renderStatic (r : t) : result t :=
  r1 ← polishSyncRender r;
  Ok (set_img (QmlCoreRenderer.getRenderedQImage (m_corerenderer r1)) r1).

Definition renderAnimated (r : t) : result t :=
  r1 ← polishSyncRender r;
  d ← deref (m_animationDriver r1);
  d' ← Driver.advance d;
  let r2 := set_driver (Live d') r1 in
  let r3 :=
    if m_currentFrame r2 =? m_requestedFrame r2
    then emit_imageReady
           (set_img (QmlCoreRenderer.getRenderedQImage (m_corerenderer r2)) r2)
    else r2 in
  currentFrame ← int_of (m_currentFrame r3 + 1);
  let r4 := set_frames currentFrame (m_requestedFrame r3) r3 in
  if m_currentFrame r4 <? m_framesCount r4
  then Ok (postEvent UpdateRequest r4)
  else Ok (emit_imageReady
             (set_img (QmlCoreRenderer.getRenderedQImage (m_corerenderer r4)) r4)).

(** One pass of the event dispatcher over the events that were queued
    when the pass began, in posting order. The queued quit call only
    sets the loop's exit flag; an UpdateRequest reaches eventFilter,
    which calls renderAnimated(). Events posted meanwhile wait for the
    next pass. *)
Fixpoint sendPostedEvents (batch : list event) (exit : bool) (r : t)
  : result (bool * t) :=
  match batch with
  | [] => Ok (exit, r)
  | MetaCallQuit :: rest => sendPostedEvents rest true r
  | UpdateRequest :: rest =>
      r' ← renderAnimated r;
      sendPostedEvents rest exit r'
  end.

(** loop.exec(): passes until the exit flag is set; with nothing queued
    and the flag unset the loop waits without end. [None]: more than
    [passes] passes would be needed. *)
Fixpoint exec (passes : nat) (r : t) : option (result t) :=
  match passes with
  | O => None
  | S passes' =>
      match posted r with
      | [] => Some (Fault BlockedForever)
      | batch =>
          match sendPostedEvents batch false (set_posted [] r) with
          | Fault f => Some (Fault f)
          | Ok (true, r') => Some (Ok r')
          | Ok (false, r') => exec passes' r'
          end
      end
  end.

(** A bound on the passes exec() can take from [r]. *)
Definition passes_bound (r : t) : nat :=
  S (S (Z.to_nat (m_framesCount r - m_currentFrame r))).

(** QImage render(int width, int height, QImage::Format format). *)
Definition render_static (width height : Z) (format : QImageFormat) (r : t)
  : result (option QImage * t) :=
  r1 ← init width height format r;
  r2 ← renderStatic r1;
  Ok (m_img r2, r2).

(** QImage render(int width, int height, QImage::Format format, int frame).
    The event loop dies on return, and with it the quit calls still
    queued for it. *)
Definition render (width height : Z) (format : QImageFormat) (frame : Z)
  (r : t) : option (result (option QImage * t)) :=
  let r0 := set_frames 0 frame r in
  match init width height format r0 with
  | Fault f => Some (Fault f)
  | Ok r1 =>
      match renderAnimated r1 with
      | Fault f => Some (Fault f)
      | Ok r2 =>
          match exec (passes_bound r2) r2 with
          | None => None
          | Some (Fault f) => Some (Fault f)
          | Some (Ok r3) =>
              Some (r4 ← resetDriver r3;
                    let r5 := set_rootItem Deleted r4 in
                    let r6 := set_posted
                                (List.filter is_UpdateRequest (posted r5)) r5 in
                    Ok (m_img r6, r6))
          end
      end
  end.



End Build.

End QmlRenderer.

(** ** The producer of producer_qml.cpp and renderKdenliveTitle *)

Module Producer.

Inductive mlt_image_format : Set :=
  | mlt_image_none | mlt_image_rgb24 | mlt_image_rgb24a | mlt_image_yuv422
  | mlt_image_yuv420p | mlt_image_opengl | mlt_image_glsl
  | mlt_image_glsl_texture.

#[global] Instance mlt_image_format_eq_dec : EqDecision mlt_image_format.
Proof. solve_decision. Defined.

(** Modelled from the spec: the host framework's property sets (spec
    section 1 leaves them out of scope). A property is an int, a string,
    a pool buffer given with or without mlt_pool_release as destructor,
    or the renderer session given with qrenderer_delete. *)
Inductive property : Type :=
  | PInt (z : Z)
  | PString (s : string)
  | PBuffer (p : option nat) (release : bool)
  | PRenderer (r : option QmlRenderer.t).

(** Modelled from the spec: the host framework's memory pool. Blocks are
    named by numbers that are never handed out twice; a released block is
    gone, and a read from it yields no bytes. *)
Record mlt_pool : Type := mkPool {
  next_block : nat;
  blocks : gmap nat (list byte)
}.

Definition mlt_pool_alloc (size : Z) (m : mlt_pool) : nat * mlt_pool :=
  (next_block m,
   {| next_block := S (next_block m);
      blocks := <[next_block m := replicate (Z.to_nat size) x00]> (blocks m) |}).

Definition mlt_pool_release (p : nat) (m : mlt_pool) : mlt_pool :=
  {| next_block := next_block m; blocks := delete p (blocks m) |}.

Definition contents (p : nat) (m : mlt_pool) : list byte :=
  default [] (blocks m !! p).

Definition store (p : nat) (bytes : list byte) (m : mlt_pool) : mlt_pool :=
  {| next_block := next_block m;
     blocks := match blocks m !! p with
               | Some _ => <[p := bytes]> (blocks m)
               | None => blocks m
               end |}.

(** memcpy(dst, src, n) between pool blocks, and from bytes held elsewhere. *)
Definition memcpy_bytes (dst : nat) (src : list byte) (n : Z) (m : mlt_pool)
  : mlt_pool :=
  store dst (take (Z.to_nat n) src ++ drop (Z.to_nat n) (contents dst m)) m.

Definition memcpy (dst src : nat) (n : Z) (m : mlt_pool) : mlt_pool :=
  memcpy_bytes dst (contents src m) n m.

(** struct producer_ktitle_qml_s, less its parent and mutex. *)
Record producer_ktitle_qml_s : Set := mkSelf {
  rgba_image : option nat;
  current_image : option nat;
  current_alpha : option nat;
  format : mlt_image_format;
  current_width : Z;
  current_height : Z
}.

(** What the code depends on and does not define. [profile_fps] is the
    profile's frame rate as the int the QmlRenderer constructor receives;
    [files] is the disk; [load_document] is what the QML engine makes of a
    resource; [frame_convert] is the frame's image conversion on bytes. *)
Record host : Type := mkHost {
  debug : bool;
  createQApplicationIfNeeded : bool;
  profile_fps : Z;
  context_ok : bool;
  files : string -> option string;
  load_document : option string -> QmlRenderer.document;
  traverseQml : option Scene.QObject -> gmap string property -> gmap string property;
  string_to_int : string -> Z;
  mlt_image_format_size : mlt_image_format -> Z -> Z -> Z;
  constBits : QImage -> list byte;
  convert_qimage_to_mlt_rgba : list byte -> list byte;
  frame_convert : mlt_image_format -> mlt_image_format -> Z -> Z ->
                  list byte -> option (list byte)
}.

(** The producer, the frame being served and the memory they share.
    [qml_reads] counts the times read_qml opened the resource. *)
Record world : Type := mkWorld {
  pool : mlt_pool;
  self : producer_ktitle_qml_s;
  producer_props : gmap string property;
  frame_props : gmap string property;
  qml_reads : nat
}.

Definition set_pool (m : mlt_pool) (w : world) : world :=
  mkWorld m (self w) (producer_props w) (frame_props w) (qml_reads w).
Definition set_self (s : producer_ktitle_qml_s) (w : world) : world :=
  mkWorld (pool w) s (producer_props w) (frame_props w) (qml_reads w).
Definition set_producer_props (p : gmap string property) (w : world) : world :=
  mkWorld (pool w) (self w) p (frame_props w) (qml_reads w).
Definition set_frame_props (p : gmap string property) (w : world) : world :=
  mkWorld (pool w) (self w) (producer_props w) p (qml_reads w).

Definition set_rgba_image (p : option nat) (s : producer_ktitle_qml_s) :=
  mkSelf p (current_image s) (current_alpha s) (format s)
         (current_width s) (current_height s).
Definition set_current_image (p : option nat) (s : producer_ktitle_qml_s) :=
  mkSelf (rgba_image s) p (current_alpha s) (format s)
         (current_width s) (current_height s).
Definition set_current_alpha (p : option nat) (s : producer_ktitle_qml_s) :=
  mkSelf (rgba_image s) (current_image s) p (format s)
         (current_width s) (current_height s).
Definition set_format (f : mlt_image_format) (s : producer_ktitle_qml_s) :=
  mkSelf (rgba_image s) (current_image s) (current_alpha s) f
         (current_width s) (current_height s).
Definition set_current_size (width height : Z) (s : producer_ktitle_qml_s) :=
  mkSelf (rgba_image s) (current_image s) (current_alpha s) (format s)
         width height.

Section Host.
Variable h : host.

(** Modelled from the spec: mlt_properties_get_int, mlt_properties_get
    (only whether it is NULL matters here) and get_data. *)
Definition mlt_properties_get_int (props : gmap string property) (name : string) : Z :=
  match props !! name with
  | Some (PInt z) => z
  | Some (PString s) => string_to_int h s
  | _ => 0
  end.

Definition mlt_properties_get (props : gmap string property) (name : string)
  : option string :=
  match props !! name with
  | Some (PString s) => Some s
  | Some (PInt z) => Some (pretty z)
  | _ => None
  end.

Definition get_buffer (props : gmap string property) (name : string)
  : option nat :=
  match props !! name with
  | Some (PBuffer p _) => p
  | _ => None
  end.

Definition get_renderer (props : gmap string property) (name : string)
  : option QmlRenderer.t :=
  match props !! name with
  | Some (PRenderer r) => r
  | _ => None
  end.

(** Modelled from the spec: setting a property first clears the old
    value, which runs the destructor the old value was given with. *)
Definition clear_property (props : gmap string property) (name : string)
  (m : mlt_pool) : mlt_pool :=
  match props !! name with
  | Some (PBuffer (Some p) true) => mlt_pool_release p m
  | _ => m
  end.

Definition set_producer_property (name : string) (v : property) (w : world)
  : world :=
  set_producer_props (<[name := v]> (producer_props w))
    (set_pool (clear_property (producer_props w) name (pool w)) w).

Definition set_frame_property (name : string) (v : property) (w : world)
  : world :=
  set_frame_props (<[name := v]> (frame_props w))
    (set_pool (clear_property (frame_props w) name (pool w)) w).

(** mlt_pool_alloc in the world. *)
Definition alloc (size : Z) (w : world) : nat * world :=
  let '(p, m) := mlt_pool_alloc size (pool w) in (p, set_pool m w).

(** read_qml(properties, profile). *)
Definition read_qml (w : world) : world :=
  let resource := mlt_properties_get (producer_props w) "resource" in
  let w1 := mkWorld (pool w) (self w) (producer_props w) (frame_props w)
                    (S (qml_reads w)) in
  match resource ≫= files h with
  | None => w1                 (* resource stream error: qDebug, return *)
  | Some str =>
      let w2 := set_producer_property "_qmldata" (PString str) w1 in
      match load_document h resource with
      | QmlRenderer.CompileError => w2
      | doc =>
          let rootObject :=
            match doc with
            | QmlRenderer.RootObject o _ => Some o
            | _ => None
            end in
          let w3 := set_producer_property "duration" (PInt 0) w2 in
          set_producer_props (traverseQml h rootObject (producer_props w3)) w3
      end
  end.


(** Modelled from the spec: mlt_frame_get_alpha, mlt_frame_set_image,
    mlt_frame_set_alpha, mlt_frame_replace_image and, for a frame whose
    image has been set, mlt_frame_get_image: the image is handed back,
    converted to the requested format when the frame's converter can
    do it, the converted bytes being a new block the frame owns. *)
Definition mlt_frame_get_alpha (w : world) : option nat :=
  get_buffer (frame_props w) "alpha".

Definition mlt_frame_set_image (image : option nat) (release : bool)
  (w : world) : world :=
  set_frame_property "image" (PBuffer image release) w.

Definition mlt_frame_set_alpha (alpha : option nat) (release : bool)
  (w : world) : world :=
  set_frame_property "alpha" (PBuffer alpha release) w.

Definition format_of_int (z : Z) : mlt_image_format :=
  match z with
  | 1 => mlt_image_rgb24 | 2 => mlt_image_rgb24a | 3 => mlt_image_yuv422
  | 4 => mlt_image_yuv420p | 5 => mlt_image_opengl | 6 => mlt_image_glsl
  | 7 => mlt_image_glsl_texture | _ => mlt_image_none
  end.

Definition int_of_format (f : mlt_image_format) : Z :=
  match f with
  | mlt_image_none => 0 | mlt_image_rgb24 => 1 | mlt_image_rgb24a => 2
  | mlt_image_yuv422 => 3 | mlt_image_yuv420p => 4 | mlt_image_opengl => 5
  | mlt_image_glsl => 6 | mlt_image_glsl_texture => 7
  end.

Definition mlt_frame_replace_image (image : option nat)
  (fmt : mlt_image_format) (width height : Z) (w : world) : world :=
  set_frame_property "format" (PInt (int_of_format fmt))
    (set_frame_property "height" (PInt height)
       (set_frame_property "width" (PInt width)
          (set_frame_property "image" (PBuffer image false) w))).

Definition mlt_frame_get_image (fmt : mlt_image_format) (width height : Z)
  (w : world) : world * (option nat * mlt_image_format * Z * Z) :=
  let held := format_of_int (mlt_properties_get_int (frame_props w) "format") in
  match get_buffer (frame_props w) "image" with
  | None => (w, (None, fmt, width, height))
  | Some p =>
      if decide (held = fmt) then (w, (Some p, held, width, height))
      else
        match frame_convert h held fmt width height (contents p (pool w)) with
        | None => (w, (Some p, held, width, height))
        | Some bytes =>
            let '(q, w1) := alloc (Z.of_nat (length bytes)) w in
            let w2 := set_pool (store q bytes (pool w1)) w1 in
            let w3 := set_frame_property "format" (PInt (int_of_format fmt))
                        (mlt_frame_set_image (Some q) true w2) in
            (w3, (Some q, fmt, width, height))
        end
  end.

(** The part of renderKdenliveTitle that runs once a renderer [r] is at
    hand: render into a new rgba buffer and cache copies. *)
Definition render_title (animated : bool) (width height position : Z)
  (r : QmlRenderer.t) (w : world) : option (result world) :=
  let image_size := width * height * 4 in
  let '(rgba, w1) := alloc image_size w in
  let w2 := set_self (set_rgba_image (Some rgba) (self w1)) w1 in
  let w3 := set_pool (store rgba (replicate (Z.to_nat image_size) x00) (pool w2)) w2 in
  match
    (if animated
     then QmlRenderer.render (debug h) width height Format_RGBA8888 position r
     else Some (QmlRenderer.render_static (debug h) width height Format_RGBA8888 r))
  with
  | None => None
  | Some (Fault f) => Some (Fault f)
  | Some (Ok (rendered_img, r')) =>
      (* the session object behind "qrenderer" has changed in place *)
      let w4 := set_producer_props
                  (<["qrenderer" := PRenderer (Some r')]> (producer_props w3)) w3 in
      match rendered_img with
      | None => Some (Fault NullDereference)   (* constBits() of a null QImage *)
      | Some qimg =>
          let w5 := set_pool (memcpy_bytes rgba (constBits h qimg) image_size
                                (pool w4)) w4 in
          let w6 := set_self (set_format mlt_image_rgb24a (self w5)) w5 in
          let w7 := set_pool (store rgba
                                (convert_qimage_to_mlt_rgba h (contents rgba (pool w6)))
                                (pool w6)) w6 in
          let '(cur, w8) := alloc image_size w7 in
          let w9 := set_self (set_current_image (Some cur) (self w8)) w8 in
          let w10 := set_pool (memcpy cur rgba image_size (pool w9)) w9 in
          let w11 := set_producer_property "_cached_buffer" (PBuffer (Some rgba) true) w10 in
          let w12 := set_producer_property "_cached_image" (PBuffer (Some cur) true) w11 in
          let w13 := set_self (set_current_size width height (self w12)) w12 in
          match mlt_frame_get_alpha w13 with
          | Some alpha =>
              let '(ca, w14) := alloc (width * height) w13 in
              let w15 := set_self (set_current_alpha (Some ca) (self w14)) w14 in
              let w16 := set_pool (memcpy ca alpha (width * height) (pool w15)) w15 in
              Some (Ok (set_producer_property "_cached_alpha"
                          (PBuffer (Some ca) true) w16))
          | None => Some (Ok w13)
          end
      end
  end.

(** The "Convert image to requested format" part and the end of
    renderKdenliveTitle. *)
Definition convert_title (fmt : mlt_image_format) (width height : Z)
  (w : world) : result world :=
  let image_size := width * height * 4 in
  w_conv ←
    (if negb (bool_decide (fmt = mlt_image_none))
        && negb (bool_decide (fmt = mlt_image_glsl))
        && negb (bool_decide (fmt = format (self w)))
     then
       w1 ←
         (if negb (bool_decide (format (self w) = mlt_image_rgb24a)) then
            match rgba_image (self w) with
            | None => Fault NullDereference
            | Some rgba =>
                let '(cur, wa) := alloc image_size w in
                let wb := set_self (set_current_image (Some cur) (self wa)) wa in
                let wc := set_pool (memcpy cur rgba image_size (pool wb)) wb in
                let wd := set_producer_property "_cached_image"
                            (PBuffer (Some cur) true) wc in
                Ok (set_self (set_format mlt_image_rgb24a (self wd)) wd)
            end
          else Ok w);
       let w2 := mlt_frame_replace_image (current_image (self w1))
                   (format (self w1)) width height w1 in
       let w3 := mlt_frame_set_image (current_image (self w2)) false w2 in
       let w4 := set_self (set_format fmt (self w3)) w3 in
       let '(w5, (buffer, fmt', width', height')) :=
         mlt_frame_get_image fmt width height w4 in
       let w6 :=
         match buffer with
         | Some b =>
             let image_size' := mlt_image_format_size h fmt' width' height' in
             let '(cur, wa) := alloc image_size' w5 in
             let wb := set_self (set_current_image (Some cur) (self wa)) wa in
             let wc := set_pool (memcpy cur b image_size' (pool wb)) wb in
             set_producer_property "_cached_image" (PBuffer (Some cur) true) wc
         | None => w5
         end in
       match mlt_frame_get_alpha w6 with
       | Some b =>
           let '(ca, wa) := alloc (width' * height') w6 in
           let wb := set_self (set_current_alpha (Some ca) (self wa)) wa in
           let wc := set_pool (memcpy ca b (width' * height') (pool wb)) wb in
           Ok (set_producer_property "_cached_alpha" (PBuffer (Some ca) true) wc)
       | None => Ok w6
       end
     else Ok w);
  Ok (set_frame_property "height" (PInt (current_height (self w_conv)))
        (set_frame_property "width" (PInt (current_width (self w_conv))) w_conv)).

Definition renderKdenliveTitle (fmt : mlt_image_format)
  (width height position force_refresh : Z) (w : world)
  : option (result world) :=
  let anim_duration := mlt_properties_get_int (producer_props w) "duration" in
  let animated := anim_duration >? 0 in
  let fps := profile_fps h in
  let w1 :=
    if bool_decide (is_Some (mlt_properties_get (producer_props w) "duration"))
       || (force_refresh =? 1)
       || negb (width =? current_width (self w))
       || negb (height =? current_height (self w))
       || animated
    then
      let w' :=
        if negb animated
        then set_producer_property "_cached_image" (PBuffer None false)
               (set_self (set_current_image None (self w)) w)
        else w in
      set_producer_property "force_reload" (PInt 0) w'
    else w in
  if bool_decide (current_image (self w1) = None) || animated then
    let renderer := get_renderer (producer_props w1) "qrenderer" in
    let w2 := set_self (set_current_alpha None (self w1)) w1 in
    let '(renderer, w3) :=
      if (force_refresh =? 1) && bool_decide (is_Some renderer)
      then (None, set_producer_property "qrenderer" (PRenderer None) w2)
      else (renderer, w2) in
    match renderer with
    | Some r =>
        match render_title animated width height position r w3 with
        | Some (Ok w4) => Some (convert_title fmt width height w4)
        | other => other
        end
    | None =>
        if negb (createQApplicationIfNeeded h) then Some (Ok w3)
        else
          match QmlRenderer.create (context_ok h)
                  (load_document h (mlt_properties_get (producer_props w3) "resource"))
                  fps anim_duration with
          | Fault f => Some (Fault f)
          | Ok r =>
              let w4 := set_producer_property "qrenderer" (PRenderer (Some r)) w3 in
              match render_title animated width height position r w4 with
              | Some (Ok w5) => Some (convert_title fmt width height w5)
              | other => other
              end
          end
    end
  else Some (convert_title fmt width height w1).

(** What producer_get_image hands back: the return value and the
    out-parameters. *)
Record image_result : Set := mkResult {
  error : Z;
  buffer : option nat;
  out_format : mlt_image_format;
  out_width : Z;
  out_height : Z
}.

(** producer_get_image up to and including renderKdenliveTitle: the
    render attempt. *)
Definition render_attempt (fmt : mlt_image_format) (width height : Z)
  (w : world) : option (result world) :=
  let width :=
    if mlt_properties_get_int (frame_props w) "rescale_width" >? 0
    then mlt_properties_get_int (frame_props w) "rescale_width" else width in
  let height :=
    if mlt_properties_get_int (frame_props w) "rescale_height" >? 0
    then mlt_properties_get_int (frame_props w) "rescale_height" else height in
  let position := mlt_properties_get_int (frame_props w) "original_position" in
  if negb (mlt_properties_get_int (producer_props w) "force_reload" =? 0) then
    let w1 :=
      if mlt_properties_get_int (producer_props w) "force_reload" >? 1
      then read_qml w else w in
    let w2 := set_producer_property "force_reload" (PInt 0) w1 in
    renderKdenliveTitle fmt width height position 1 w2
  else
    renderKdenliveTitle fmt width height position 0 w.

(** The rest of producer_get_image: clone the image and the alpha. *)
Definition clone_image (w : world) : image_result * world :=
  let width := mlt_properties_get_int (frame_props w) "width" in
  let height := mlt_properties_get_int (frame_props w) "height" in
  let fmt := format (self w) in
  match current_image (self w) with
  | Some cur =>
      let image_size :=
        mlt_image_format_size h fmt (current_width (self w)) (current_height (self w)) in
      let '(image_copy, w1) := alloc image_size w in
      let w2 := set_pool
                  (memcpy image_copy cur
                     (mlt_image_format_size h fmt (current_width (self w))
                        (current_height (self w) - 1))
                     (pool w1)) w1 in
      let w3 := mlt_frame_set_image (Some image_copy) true w2 in
      let w4 :=
        match current_alpha (self w3) with
        | Some alpha =>
            let size := current_width (self w3) * current_height (self w3) in
            let '(alpha_copy, wa) := alloc size w3 in
            let wb := set_pool (memcpy alpha_copy alpha size (pool wa)) wa in
            mlt_frame_set_alpha (Some alpha_copy) true wb
        | None => w3
        end in
      (mkResult 0 (Some image_copy) fmt width height, w4)
  | None => (mkResult 1 None fmt width height, w)
  end.

Definition producer_get_image (fmt : mlt_image_format) (width height : Z)
  (w : world) : option (result (image_result * world)) :=
  match render_attempt fmt width height w with
  | None => None
  | Some (Fault f) => Some (Fault f)
  | Some (Ok w1) => Some (Ok (clone_image w1))
  end.

(** producer_qml_init(profile, type, id, filename); [None] is the NULL
    it returns. [calloc_ok] and [mlt_producer_init_ok] tell whether
    calloc and mlt_producer_init succeed, [defaults] are the properties
    that mlt_producer_init leaves and [m] is the pool as it stands.
    calloc zeroes the members, and there is no frame yet. *)
Definition producer_qml_init (calloc_ok mlt_producer_init_ok : bool)
  (defaults : gmap string property) (m : mlt_pool) (filename : string)
  : option world :=
  if calloc_ok && mlt_producer_init_ok then
    if negb (createQApplicationIfNeeded h) then None
    else
      let w0 := {| pool := m;
                   self := mkSelf None None None mlt_image_none 0 0;
                   producer_props := defaults;
                   frame_props := ∅;
                   qml_reads := 0 |} in
      let w1 := set_producer_property "resource" (PString filename) w0 in
      let w2 := read_qml w1 in
      Some (set_producer_property "seekable" (PInt 1)
              (set_producer_property "aspect_ratio" (PInt 1)
                 (set_producer_property "progressive" (PInt 1) w2)))
  else None.



End Host.

(** A host for examples: 25 fps, a resource "title.qml" on disk whose
    scene is an item holding a 2 s animation, and images of 4 bytes per
    pixel. *)
Definition example_host : host :=
  {| debug := false;
     createQApplicationIfNeeded := true;
     profile_fps := 25;
     context_ok := true;
     files := fun path =>
       if String.eqb path "title.qml" then Some "Item { NumberAnimation { duration: 2000 } }"%string
       else None;
     load_document := fun _ =>
       QmlRenderer.RootObject
         (Scene.mkQObject "QQuickItem" []
            [Scene.mkQObject "QQuickNumberAnimation" [("duration"%string, 2000)] []])
         true;
     traverseQml := fun root props =>
       match Scene.getMaxDuration root with
       | Ok d => <["duration" := PInt d]> props
       | Fault _ => props
       end;
     string_to_int := fun _ => 0;
     mlt_image_format_size := fun fmt width height =>
       match fmt with
       | mlt_image_rgb24 => width * (height + 1) * 3
       | mlt_image_rgb24a | mlt_image_opengl => width * (height + 1) * 4
       | mlt_image_yuv422 => width * (height + 1) * 2
       | mlt_image_yuv420p => width * (height + 1) * 3 / 2
       | _ => 0
       end;
     constBits := fun img =>
       replicate (Z.to_nat (width (img_size img) * height (img_size img) * 4)) xff;
     convert_qimage_to_mlt_rgba := fun bytes => bytes;
     frame_convert := fun _ _ _ _ _ => None |}.

(** A producer that has rendered nothing yet, asked to reload, and a new
    frame at position 0. *)
Definition example_world : world :=
  {| pool := mkPool 0 ∅;
     self := mkSelf None None None mlt_image_none 0 0;
     producer_props :=
       <["force_reload" := PInt 2]> (<["resource" := PString "title.qml"]> ∅);
     frame_props := <["original_position" := PInt 0]> ∅;
     qml_reads := 0 |}.

(** Well-formed memory: every block in use, and every block the producer
    or the frame points to, has been handed out by the pool; and the
    frame does not own the producer's alpha buffer. *)
Definition below (n : nat) (p : option nat) : Prop :=
  forall q, p = Some q -> (q < n)%nat.

Definition props_below (n : nat) (props : gmap string property) : Prop :=
  forall name q release, props !! name = Some (PBuffer (Some q) release) -> (q < n)%nat.

Definition well_formed (w : world) : Prop :=
  (forall p, is_Some (blocks (pool w) !! p) -> (p < next_block (pool w))%nat) /\
  below (next_block (pool w)) (rgba_image (self w)) /\
  below (next_block (pool w)) (current_image (self w)) /\
  below (next_block (pool w)) (current_alpha (self w)) /\
  props_below (next_block (pool w)) (frame_props w) /\
  (forall q, frame_props w !! "image" = Some (PBuffer (Some q) true) ->
             current_alpha (self w) <> Some q).

(** Ownership: a property set owns the blocks it holds with
    mlt_pool_release as destructor, which setting the property anew or
    closing the set releases. No block is lost if every block in use is
    owned by the producer's or the frame's properties; [pending] are
    blocks allocated and not yet handed to a property. *)
Definition owns (props : gmap string property) (p : nat) : Prop :=
  exists name, props !! name = Some (PBuffer (Some p) true).

Definition no_leak_but (pending : list nat) (w : world) : Prop :=
  forall p, is_Some (blocks (pool w) !! p) ->
            owns (producer_props w) p \/ owns (frame_props w) p \/ In p pending.

Definition no_leak (w : world) : Prop := no_leak_but [] w.

End Producer.

(** ** The earlier producer: the first producer_qml.cpp and the
    renderKdenliveTitle it was written against *)

Module Legacy.
Import Producer.

(** A call returns, or throws std::runtime_error. *)
Inductive outcome (A : Type) : Type :=
  | Returned (a : A)
  | Thrown (what : string).
Arguments Returned {A} a.
Arguments Thrown {A} what.

Section Host.
Variable h : host.

(** self->renderer->render(img): what the session of this version,
    which is not part of these sources, draws over the bytes of an
    image of the given width and height. *)
Variable render_into : Z -> Z -> list byte -> list byte.

(** read_qml(properties). *)
Definition read_qml (w : world) : outcome world :=
  let resource := mlt_properties_get (producer_props w) "resource" in
  let w1 := mkWorld (pool w) (self w) (producer_props w) (frame_props w)
                    (S (qml_reads w)) in
  match resource ≫= files h with
  | None => Thrown "Input QML file was not read - Resource stream error"
  | Some str => Returned (set_producer_property "_qmldata" (PString str) w1)
  end.

(** renderKdenliveTitle(self, frame, format, width, height, position,
    force_refresh); the last two are not used. *)
Definition renderKdenliveTitle (fmt : mlt_image_format) (width height : Z)
  (w : world) : result world :=
  let w1 := set_producer_property "_cached_image" (PBuffer None false)
              (set_self (set_current_image None (self w)) w) in
  if negb (createQApplicationIfNeeded h) then Ok w1
  else
    let image_size := width * height * 4 in
    let '(rgba, w2) := alloc image_size w1 in
    let w3 := set_self (set_rgba_image (Some rgba) (self w2)) w2 in
    let w4 := set_pool (store rgba (replicate (Z.to_nat image_size) x00) (pool w3)) w3 in
    let w5 := set_pool (store rgba (render_into width height (contents rgba (pool w4)))
                          (pool w4)) w4 in
    let w6 := set_self (set_format mlt_image_rgb24a (self w5)) w5 in
    let w7 := set_pool (store rgba
                          (convert_qimage_to_mlt_rgba h (contents rgba (pool w6)))
                          (pool w6)) w6 in
    let '(cur, w8) := alloc image_size w7 in
    let w9 := set_self (set_current_image (Some cur) (self w8)) w8 in
    let w10 := set_pool (memcpy cur rgba image_size (pool w9)) w9 in
    let w11 := set_producer_property "_cached_buffer" (PBuffer (Some rgba) true) w10 in
    let w12 := set_producer_property "_cached_image" (PBuffer (Some cur) true) w11 in
    let w13 := set_self (set_current_size width height (self w12)) w12 in
    let w14 :=
      match mlt_frame_get_alpha w13 with
      | Some alpha =>
          let '(ca, wa) := alloc (width * height) w13 in
          let wb := set_self (set_current_alpha (Some ca) (self wa)) wa in
          let wc := set_pool (memcpy ca alpha (width * height) (pool wb)) wb in
          set_producer_property "_cached_alpha" (PBuffer (Some ca) true) wc
      | None => w13
      end in
    convert_title h fmt width height w14.

(** producer_get_image: the return value and the out-parameters, of
    which the width and the height are not written after the render. *)
Definition producer_get_image (fmt : mlt_image_format) (width height : Z)
  (w : world) : outcome (result (image_result * world)) :=
  let width :=
    if mlt_properties_get_int h (frame_props w) "rescale_width" >? 0
    then mlt_properties_get_int h (frame_props w) "rescale_width" else width in
  let height :=
    if mlt_properties_get_int h (frame_props w) "rescale_height" >? 0
    then mlt_properties_get_int h (frame_props w) "rescale_height" else height in
  let reloaded :=
    if negb (mlt_properties_get_int h (producer_props w) "force_reload" =? 0) then
      match
        (if mlt_properties_get_int h (producer_props w) "force_reload" >? 1
         then read_qml w else Returned w)
      with
      | Thrown what => Thrown what
      | Returned w1 => Returned (set_producer_property "force_reload" (PInt 0) w1)
      end
    else Returned w in
  match reloaded with
  | Thrown what => Thrown what
  | Returned w2 =>
      Returned
        (w3 ← renderKdenliveTitle fmt width height w2;
         let '(res, w4) := clone_image h w3 in
         Ok (mkResult (error res) (buffer res) (out_format res) width height, w4))
  end.

(** producer_qml_init(profile, type, id, filename), with the
    parameters of its later version. new QmlRenderer(filename) makes
    the session that [render_into] stands for; it is taken to return
    and to leave the producer's memory alone. *)
Definition producer_qml_init (calloc_ok mlt_producer_init_ok : bool)
  (defaults : gmap string property) (m : mlt_pool) (filename : string)
  : outcome (option world) :=
  if calloc_ok && mlt_producer_init_ok then
    if negb (createQApplicationIfNeeded h) then Returned None
    else
      let w0 := {| pool := m;
                   self := mkSelf None None None mlt_image_none 0 0;
                   producer_props := defaults;
                   frame_props := ∅;
                   qml_reads := 0 |} in
      let w1 := set_producer_property "seekable" (PInt 1)
                  (set_producer_property "aspect_ratio" (PInt 1)
                     (set_producer_property "progressive" (PInt 1)
                        (set_producer_property "resource" (PString filename) w0))) in
      match read_qml w1 with
      | Thrown what => Thrown what
      | Returned w2 => Returned (Some w2)
      end
  else Returned None.

End Host.

End Legacy.

(** ** Statements of the specification that the code does not meet as worded *)


(** ** The states an animated render passes through

    For a session made with frame rate [F] and duration [D] from a scene
    whose root [o] is an item, asked for frame [i] at [W] by [H] in format
    [fmt]: the renderer as it stands after [k] calls of renderAnimated(),
    holding [img] in m_img and [q] in the event queue. *)

Module AnimatedSession.
Import QmlRenderer.

Section Session.
Variables (o : Scene.QObject) (F D i W H : Z) (fmt : QImageFormat).

Definition N : Z := F * D.
Definition msPerStep : Z := Z.quot 1000 (Z.quot (N - 2) D).

(** The image drawn when the animations had been stepped [k] times. *)
Definition image (k : nat) : QImage := mkQImage (mkQSize W H) fmt k.

Definition core (k : nat) : QmlCoreRenderer.t :=
  match k with
  | O => QmlCoreRenderer.mk true true None fmt (mkQSize W H) 1%Q F None 0 0
  | S k' => QmlCoreRenderer.mk true true (Some (mkFbo 0 (mkQSize W H))) fmt
              (mkQSize W H) 1%Q F (Some (image k')) 1 k
  end.

Definition st (k : nat) (img : option QImage) (q : list event) : t :=
  mk (RootObject o true) Initialised D F N (Z.of_nat k) i (mkQSize W H) fmt
     1%Q img (Live (Driver.mkDriver msPerStep (Z.of_nat k * msPerStep) k))
     (Live (mkItem o W H)) (core k) q.

(** What call [k]+1 of renderAnimated() leaves in m_img and appends to
    the queue. *)
Definition img_after (k : nat) (img : option QImage) : option QImage :=
  if Z.of_nat k + 1 <? N
  then (if Z.of_nat k =? i then Some (image k) else img)
  else Some (image k).

Definition events_after (k : nat) : list event :=
  (if Z.of_nat k =? i then [MetaCallQuit] else []) ++
  [if Z.of_nat k + 1 <? N then UpdateRequest else MetaCallQuit].

(** The scene that the image handed back by render() shows. *)
Definition returned_scene : Z :=
  if i <? N then (if i + 2 =? N then N - 1 else i) else N - 1.

(** render() is about to return from [r] with the image of
    [returned_scene]. *)
Definition finished (r : t) : Prop :=
  m_img r = Some (image (Z.to_nat returned_scene)) /\
  exists d, m_animationDriver r = Live d.

End Session.
End AnimatedSession.

(** * Properties *)

(** ** Machine integers and outcomes *)

Lemma in_int_spec (z : Z) : in_int z = true <-> INT_MIN <= z <= INT_MAX.
Proof. unfold in_int. rewrite andb_true_iff, !Z.leb_le. tauto. Qed.

Lemma in_qint64_spec (z : Z) : in_qint64 z = true <-> INT64_MIN <= z <= INT64_MAX.
Proof. unfold in_qint64. rewrite andb_true_iff, !Z.leb_le. tauto. Qed.

Lemma int_of_ok (z : Z) : in_int z = true -> int_of z = Ok z.
Proof. unfold int_of. now intros ->. Qed.

Lemma qint64_of_ok (z : Z) : in_qint64 z = true -> qint64_of z = Ok z.
Proof. unfold qint64_of. now intros ->. Qed.

Lemma int_div_ok (a b : Z) :
  b <> 0 -> in_int (Z.quot a b) = true -> int_div a b = Ok (Z.quot a b).
Proof.
  intros Hb Hq. unfold int_div.
  destruct (Z.eqb_spec b 0) as [->|_]; [congruence|]. now apply int_of_ok.
Qed.

Lemma int_div_zero (a : Z) : int_div a 0 = Fault DivisionByZero.
Proof. reflexivity. Qed.

(** ** The deterministic clock *)

Section ClockFacts.
Import Driver.

Lemma advance_ok (d : QmlAnimationDriver) :
  in_qint64 (m_elapsed d + m_step d) = true ->
  advance d = Ok (mkDriver (m_step d) (m_elapsed d + m_step d)
                           (S (animation_ticks d))).
Proof. intros H. unfold advance. now rewrite (qint64_of_ok _ H). Qed.

(** All that a successful advance() does. *)
Lemma advance_effect (d d' : QmlAnimationDriver) :
  advance d = Ok d' ->
  m_step d' = m_step d /\ elapsed d' = elapsed d + m_step d /\
  animation_ticks d' = S (animation_ticks d).
Proof.
  unfold advance, qint64_of.
  destruct (in_qint64 _); cbn; [|discriminate].
  intros [= <-]. now cbn.
Qed.




Lemma advance_n_fault_stays (n k : nat) (s : Z) f :
  (k <= n)%nat -> advance_n k (create s) = Fault f ->
  exists f', advance_n n (create s) = Fault f'.
Proof.
  unfold create. generalize 0 at 1 2. generalize 0%nat.
  revert n. induction k as [|k IH]; intros n t e Hk; [discriminate|].
  destruct n as [|n]; [lia|]. cbn [advance_n].
  destruct (advance _) as [d'|f0] eqn:E; cbn.
  - destruct d' as [s' e' t']. apply advance_effect in E as (E1 & _). cbn in E1. subst s'.
    apply IH. lia.
  - intros _. eauto.
Qed.

End ClockFacts.




(** ** Scene metadata *)

Section SceneFacts.
Import Scene.

Lemma getIntProp_loop_find (props : list (string * Z)) (name : string) :
  getIntProp_loop props name =
    match List.find (fun p => String.eqb (fst p) name && (0 <? snd p)) props with
    | Some (_, v) => if String.eqb name "duration" then v / 1000 else v
    | None => 0
    end.
Proof.
  induction props as [|[n v] rest IH]; cbn; [reflexivity|].
  destruct (String.eqb n name); cbn; [|exact IH].
  rewrite Z.gtb_ltb. destruct (Z.ltb_spec 0 v) as [Hv|Hv]; [|exact IH].
  destruct (String.eqb name "duration"); [|reflexivity].
  apply Z.quot_div_nonneg; lia.
Qed.

Lemma getIntProp_loop_below_second (props : list (string * Z)) :
  (forall v, In ("duration"%string, v) props -> v < 1000) ->
  getIntProp_loop props "duration" = 0.
Proof.
  induction props as [|[n v] rest IH]; cbn; intros Hlt; [reflexivity|].
  destruct (String.eqb_spec n "duration") as [->|_].
  - rewrite Z.gtb_ltb. destruct (Z.ltb_spec 0 v) as [Hv|Hv].
    + specialize (Hlt v (or_introl eq_refl)). apply Z.quot_small. lia.
    + apply IH. intros v' Hin. apply Hlt. now right.
  - apply IH. intros v' Hin. apply Hlt. now right.
Qed.

Lemma getIntProp_loop_nonneg (props : list (string * Z)) (name : string) :
  0 <= getIntProp_loop props name.
Proof.
  induction props as [|[n v] rest IH]; cbn; [lia|].
  destruct (String.eqb n name); [|exact IH].
  rewrite Z.gtb_ltb. destruct (Z.ltb_spec 0 v) as [Hv|Hv]; [|exact IH].
  destruct (String.eqb name "duration"); [|lia].
  apply Z.quot_pos; lia.
Qed.

(** Unfolding of getMaxDuration on a leaf animation. *)
Lemma getMaxDuration_leaf (name : string) props kids :
  contains name "Sequential" = false ->
  contains name "Parallel" = false ->
  is_leaf_animation name = true ->
  getMaxDuration (Some (mkQObject name props kids)) =
    Ok (getIntProp (mkQObject name props kids) "duration").
Proof. intros H1 H2 H3. cbn. now rewrite H1, H2, H3. Qed.

End SceneFacts.

(** C8: getIntProp gives the value of the first property with the given
    name and a positive value, divided by 1000 when the name is "duration",
    and 0 when there is none; so a leaf animation all of whose declared
    durations are below 1000 ms has duration 0. *)
Theorem getIntProp_first_positive (object : Scene.QObject) (propertyName : string) :
  Scene.getIntProp object propertyName =
    match Scene.first_positive_property object propertyName with
    | Some (_, v) => if String.eqb propertyName "duration" then v / 1000 else v
    | None => 0
    end
  /\ (Scene.contains (Scene.className object) "Sequential" = false ->
      Scene.contains (Scene.className object) "Parallel" = false ->
      Scene.is_leaf_animation (Scene.className object) = true ->
      (forall v, In ("duration"%string, v) (Scene.properties object) -> v < 1000) ->
      Scene.getMaxDuration (Some object) = Ok 0).
Proof.
  split.
  - apply getIntProp_loop_find.
  - destruct object as [name props kids]. cbn [Scene.className Scene.properties].
    intros H1 H2 H3 Hlt. rewrite getMaxDuration_leaf by assumption.
    unfold Scene.getIntProp. cbn [Scene.properties].
    now rewrite getIntProp_loop_below_second.
Qed.

Lemma getIntProp_first_positive_witness :
  let anim := Scene.mkQObject "QQuickNumberAnimation"
                [("objectName", 0); ("duration", 0); ("duration", 750); ("loops", 1)] [] in
  Scene.getIntProp anim "loops" = 1 /\ Scene.getMaxDuration (Some anim) = Ok 0.
Proof.
  intros anim. split.
  - exact (eq_trans (proj1 (getIntProp_first_positive anim "loops")) eq_refl).
  - apply (proj2 (getIntProp_first_positive anim "duration")); try reflexivity.
    intros v [H|[H|[H|[H|[]]]]]; inversion H; lia.
Defined.

(** C4: a node that is neither a group nor a leaf animation and has no
    child with a positive duration (here an Item without children) makes
    getMaxDuration run off its end without a return; a parallel group
    without children makes it dereference the end of an empty vector. The
    specification promises 0 in both cases. *)
Theorem getMaxDuration_no_duration_found :
  Scene.getMaxDuration (Some (Scene.mkQObject "QQuickItem" [] [])) = Fault MissingReturn /\
  Scene.getMaxDuration
    (Some (Scene.mkQObject "QQuickItem" []
             [Scene.mkQObject "QQuickRectangle" [("duration", 0)] []]))
    = Fault MissingReturn /\
  Scene.getMaxDuration (Some (Scene.mkQObject "QQuickParallelAnimation" [] []))
    = Fault EmptyRangeDeref.
Proof. repeat split; reflexivity. Qed.

(** *** What getMaxDuration does compute *)

Section DurationFacts.
Import Scene.

Lemma getMaxDuration_sequential (name : string) props kids (ds : list Z) :
  contains name "Sequential" = true ->
  Forall2 (fun c d => getMaxDuration_obj c = Ok d) kids ds ->
  (forall k : nat, in_int (fold_left Z.add (take k ds) 0) = true) ->
  getMaxDuration_obj (mkQObject name props kids) = Ok (fold_left Z.add ds 0).
Proof.
  intros Hname Hkids Hrange. cbn. rewrite Hname.
  revert Hrange. generalize 0.
  induction Hkids as [|c d kids ds Hc _ IH]; intros acc Hrange; [reflexivity|].
  rewrite Hc. cbn.
  assert (Hacc : in_int (acc + d) = true) by exact (Hrange 1%nat).
  rewrite (int_of_ok _ Hacc). cbn. apply IH.
  intros k. exact (Hrange (S k)).
Qed.

Lemma getMaxDuration_parallel (name : string) props kids (d : Z) (ds : list Z) :
  contains name "Sequential" = false ->
  contains name "Parallel" = true ->
  Forall2 (fun c d => getMaxDuration_obj c = Ok d) kids (d :: ds) ->
  getMaxDuration_obj (mkQObject name props kids) = Ok (fold_left Z.max ds d).
Proof.
  intros Hseq Hpar Hkids. cbn. rewrite Hseq, Hpar.
  match goal with |- mbind _ ?m = _ => assert (E : m = Ok (d :: ds)) end.
  { induction Hkids as [|c x kids xs Hc _ IH]; [reflexivity|].
    rewrite Hc. cbn. now rewrite IH. }
  now rewrite E.
Qed.

Lemma getMaxDuration_other (name : string) props before child after (d : Z) :
  contains name "Sequential" = false ->
  contains name "Parallel" = false ->
  is_leaf_animation name = false ->
  Forall (fun c => exists d', getMaxDuration_obj c = Ok d' /\ d' <= 0) before ->
  getMaxDuration_obj child = Ok d -> 0 < d ->
  getMaxDuration_obj (mkQObject name props (before ++ child :: after)) = Ok d.
Proof.
  intros Hseq Hpar Hleaf Hbefore Hchild Hd. cbn. rewrite Hseq, Hpar, Hleaf.
  induction Hbefore as [|c before (d' & Hc & Hd') _ IH]; cbn.
  - rewrite Hchild. cbn. destruct (Z.gtb_spec d 0); [reflexivity|lia].
  - rewrite Hc. cbn. destruct (Z.gtb_spec d' 0); [lia|]. exact IH.
Qed.

Lemma getMaxDuration_other_nothing (name : string) props kids :
  contains name "Sequential" = false ->
  contains name "Parallel" = false ->
  is_leaf_animation name = false ->
  Forall (fun c => exists d', getMaxDuration_obj c = Ok d' /\ d' <= 0) kids ->
  getMaxDuration_obj (mkQObject name props kids) = Fault MissingReturn.
Proof.
  intros Hseq Hpar Hleaf Hkids. cbn. rewrite Hseq, Hpar, Hleaf.
  induction Hkids as [|c kids (d' & Hc & Hd') _ IH]; cbn; [reflexivity|].
  rewrite Hc. cbn. destruct (Z.gtb_spec d' 0); [lia|]. exact IH.
Qed.

(** The scenario of the specification: a parallel group holding a
    sequential group (2 s + 3 s) and a 4 s animation lasts 5 s. *)
Example getMaxDuration_nested :
  getMaxDuration
    (Some (mkQObject "QQuickItem" []
      [mkQObject "QQuickParallelAnimation" []
        [mkQObject "QQuickSequentialAnimation" []
           [mkQObject "QQuickNumberAnimation" [("duration", 2000)] [];
            mkQObject "QQuickPauseAnimation" [("duration", 3000)] []];
         mkQObject "QQuickColorAnimation" [("duration", 4000)] []]]))
  = Ok 5.
Proof. reflexivity. Qed.

End DurationFacts.

(** ** The render workers *)

Lemma QSize_eqb_eq (a b : QSize) : QSize_eqb a b = true <-> a = b.
Proof.
  destruct a as [wa ha], b as [wb hb]. unfold QSize_eqb. cbn.
  rewrite andb_true_iff, !Z.eqb_eq. split; [intros [-> ->]|intros [= -> ->]]; auto.
Qed.

Lemma QSize_eqb_refl (a : QSize) : QSize_eqb a a = true.
Proof. now apply QSize_eqb_eq. Qed.

Lemma qRound_inject_Z (z : Z) : qRound (inject_Z z * 1)%Q = z.
Proof.
  unfold qRound, Qfloor, inject_Z, Qmult, Qplus. cbn.
  rewrite Z.mul_1_r. symmetry. apply (Z.div_unique _ _ _ 1); lia.
Qed.

(** With the device-pixel ratio 1.0 that the facade sets, the target has
    the requested size. *)
Lemma scaled_one (s : QSize) : scaled s 1%Q = s.
Proof. destruct s as [w h]. unfold scaled. cbn [width height]. now rewrite !qRound_inject_Z. Qed.


Lemma Q_ASSERT_holds (debug : bool) : Q_ASSERT debug true = Ok tt.
Proof. unfold Q_ASSERT. now rewrite andb_false_r. Qed.

Section WorkerFacts.
Import QmlCoreRenderer.

(** ensureFbo() of qml_wrapper.cpp replaces a target of another size by
    a newly allocated one of the requested size. *)
Lemma ensureFbo_replaces (debug : bool) (w : t) (old : Fbo) :
  ready w -> m_fbo w = Some old ->
  fbo_size old <> scaled (m_size w) (m_dpr w) ->
  ensureFbo debug w =
    Ok (mk (context_ok w) (scene_graph_initialized w)
           (Some (mkFbo (fbo_created w) (scaled (m_size w) (m_dpr w))))
           (m_format w) (m_size w) (m_dpr w) (m_fps w) (m_image w)
           (S (fbo_created w)) (wakes w)).
Proof.
  intros (Hsize & Hdpr & Hinit) Hold Hne. unfold ensureFbo.
  rewrite Hsize, Hdpr, Hinit, Hold. cbn [negb]. rewrite !Q_ASSERT_holds. cbn.
  destruct (QSize_eqb _ _) eqn:E; [now apply QSize_eqb_eq in E|].
  reflexivity.
Qed.

Lemma ensureFbo_keeps (debug : bool) (w : t) (old : Fbo) :
  ready w -> m_fbo w = Some old ->
  fbo_size old = scaled (m_size w) (m_dpr w) ->
  ensureFbo debug w = Ok w.
Proof.
  intros (Hsize & Hdpr & Hinit) Hold Heq. unfold ensureFbo.
  rewrite Hsize, Hdpr, Hold. cbn [negb]. rewrite !Q_ASSERT_holds. cbn.
  rewrite Heq, QSize_eqb_refl. cbn. rewrite <- Hold. now destruct w.
Qed.

Lemma ensureFbo_creates (debug : bool) (w : t) :
  ready w -> m_fbo w = None ->
  ensureFbo debug w =
    Ok (mk (context_ok w) (scene_graph_initialized w)
           (Some (mkFbo (fbo_created w) (scaled (m_size w) (m_dpr w))))
           (m_format w) (m_size w) (m_dpr w) (m_fps w) (m_image w)
           (S (fbo_created w)) (wakes w)).
Proof.
  intros (Hsize & Hdpr & Hinit) Hnone. unfold ensureFbo.
  rewrite Hsize, Hdpr, Hinit, Hnone. cbn [negb]. rewrite !Q_ASSERT_holds. reflexivity.
Qed.

(** Whatever target is held, a render at a requested size leaves a target
    and an image of that size (times the device-pixel ratio). *)
Lemma render_at_requested_size (debug : bool) (scene : nat) (w : t) :
  ready w -> context_ok w = true ->
  exists fbo,
    fbo_size fbo = scaled (m_size w) (m_dpr w) /\
    (forall old, m_fbo w = Some old -> fbo_size old <> fbo_size fbo ->
                 fbo_id fbo = fbo_created w) /\
    render debug scene w =
      Ok (mk true (scene_graph_initialized w) (Some fbo) (m_format w) (m_size w)
             (m_dpr w) (m_fps w)
             (Some (mkQImage (scaled (m_size w) (m_dpr w)) (m_format w) scene))
             (if m_fbo w is Some old
              then if QSize_eqb (fbo_size old) (scaled (m_size w) (m_dpr w))
                   then fbo_created w else S (fbo_created w)
              else S (fbo_created w))
             (S (wakes w))).
Proof.
  intros Hready Hctx. unfold render. rewrite Hctx. cbn [negb].
  destruct (m_fbo w) as [old|] eqn:Hold.
  - destruct (QSize_eqb (fbo_size old) (scaled (m_size w) (m_dpr w))) eqn:E.
    + apply QSize_eqb_eq in E. rewrite (ensureFbo_keeps _ _ old) by assumption.
      cbn. rewrite Hold, Hctx. exists old. repeat split; auto.
      * intros o [= <-]. congruence.
      * rewrite E, (proj2 (proj2 Hready)). reflexivity.
    + assert (Hne : fbo_size old <> scaled (m_size w) (m_dpr w)).
      { intros Heq. apply QSize_eqb_eq in Heq. congruence. }
      rewrite (ensureFbo_replaces _ _ old) by assumption. cbn. rewrite Hctx.
      exists (mkFbo (fbo_created w) (scaled (m_size w) (m_dpr w))).
      repeat split; reflexivity.
  - rewrite ensureFbo_creates by assumption. cbn. rewrite Hctx.
    exists (mkFbo (fbo_created w) (scaled (m_size w) (m_dpr w))).
    repeat split; try reflexivity; discriminate.
Qed.

End WorkerFacts.

(** A worker of qml_wrapper.cpp that has rendered at size A and is then
    asked for size B, with the device-pixel ratio 1.0, drops its target for
    a newly allocated one of size B and reads back an image of size B. *)
Lemma QmlCoreRenderer_resize (debug : bool) (scene : nat)
  (w : QmlCoreRenderer.t) (old : Fbo) (B : QSize) :
  QmlCoreRenderer.context_ok w = true ->
  QmlCoreRenderer.scene_graph_initialized w = true ->
  QmlCoreRenderer.m_dpr w = 1%Q ->
  QmlCoreRenderer.m_fbo w = Some old ->
  isEmpty B = false -> fbo_size old <> B ->
  exists w',
    QmlCoreRenderer.render debug scene (QmlCoreRenderer.setSize B w) = Ok w' /\
    QmlCoreRenderer.m_fbo w' = Some (mkFbo (QmlCoreRenderer.fbo_created w) B) /\
    img_size <$> QmlCoreRenderer.m_image w' = Some B.
Proof.
  intros Hctx Hinit Hdpr Hold HB Hne.
  destruct (render_at_requested_size debug scene (QmlCoreRenderer.setSize B w))
    as (fbo & Hsize & Hid & Hrender).
  - unfold QmlCoreRenderer.ready. cbn. now rewrite Hdpr.
  - exact Hctx.
  - cbn in Hsize, Hid, Hrender. rewrite Hdpr, scaled_one in Hsize, Hrender.
    eexists. split; [exact Hrender|]. cbn. split; [|reflexivity].
    specialize (Hid old Hold). rewrite Hsize in Hid. specialize (Hid Hne).
    destruct fbo as [id sz]. cbn in *. now subst.
Qed.

(** C5: the worker of corerenderer.cpp, whose ensureFbo() has the reset
    commented out, renders at 640x480, is asked for 1280x720 and keeps the
    640x480 target: the second image is 640x480. *)
Theorem CoreRenderer_keeps_stale_target :
  let A := mkQSize 640 480 in
  let B := mkQSize 1280 720 in
  let w0 := CoreRenderer.mk true true None (Live (Driver.create 40))
              Format_RGBA8888 A 1%Q 25 None 0 0 in
  exists w1 w2,
    CoreRenderer.render false 0 w0 = Ok w1 /\
    CoreRenderer.m_fbo w1 = Some (mkFbo 0 A) /\
    CoreRenderer.render false 1 (CoreRenderer.setSize B w1) = Ok w2 /\
    CoreRenderer.m_fbo w2 = Some (mkFbo 0 A) /\
    img_size <$> CoreRenderer.image w2 = Some A.
Proof. cbv zeta. do 2 eexists. repeat split; vm_compute; reflexivity. Qed.

(** The same two renders on the worker of qml_wrapper.cpp. *)
Example QmlCoreRenderer_resize_640_to_1280 :
  let A := mkQSize 640 480 in
  let B := mkQSize 1280 720 in
  let w0 := QmlCoreRenderer.init
              (QmlCoreRenderer.setFormat Format_RGBA8888
                 (QmlCoreRenderer.setSize A
                    (QmlCoreRenderer.setDPR 1%Q (QmlCoreRenderer.create true)))) in
  exists w1 w2,
    QmlCoreRenderer.render false 0 w0 = Ok w1 /\
    QmlCoreRenderer.m_fbo w1 = Some (mkFbo 0 A) /\
    QmlCoreRenderer.render false 1 (QmlCoreRenderer.setSize B w1) = Ok w2 /\
    QmlCoreRenderer.m_fbo w2 = Some (mkFbo 1 B) /\
    img_size <$> QmlCoreRenderer.m_image w2 = Some B.
Proof. cbv zeta. do 2 eexists. repeat split; vm_compute; reflexivity. Qed.

(** C6: when the context cannot be made current, the render step of
    either worker returns with its state as it was: no new image, no
    wake-up; and the caller of polishSyncRender() stays blocked. *)
Theorem render_without_context (debug : bool) (scene : nat)
  (w : QmlCoreRenderer.t) (c : CoreRenderer.t) (r : QmlRenderer.t) :
  QmlCoreRenderer.context_ok w = false ->
  CoreRenderer.context_ok c = false ->
  QmlCoreRenderer.render debug scene w = Ok w /\
  CoreRenderer.render debug scene c = Ok c /\
  QmlRenderer.polishSyncRender debug (QmlRenderer.set_core w r) = Fault BlockedForever.
Proof.
  intros Hw Hc. repeat split.
  - unfold QmlCoreRenderer.render. now rewrite Hw.
  - unfold CoreRenderer.render. now rewrite Hc.
  - unfold QmlRenderer.polishSyncRender.
    replace (QmlRenderer.m_corerenderer (QmlRenderer.set_core w r)) with w
      by reflexivity.
    unfold QmlCoreRenderer.render. rewrite Hw. cbn [negb mbind result_bind].
    now rewrite Nat.ltb_irrefl.
Qed.

Lemma render_without_context_witness :
  let w := QmlCoreRenderer.mk false true (Some (mkFbo 0 (mkQSize 640 480)))
             Format_RGBA8888 (mkQSize 640 480) 1%Q 25
             (Some (mkQImage (mkQSize 640 480) Format_RGBA8888 3)) 1 4 in
  let c := CoreRenderer.mk false true None (Live (Driver.create 40))
             Format_RGBA8888 (mkQSize 640 480) 1%Q 25 None 0 0 in
  let r := QmlRenderer.mk (QmlRenderer.RootObject (Scene.mkQObject "QQuickItem" [] []) true)
             QmlRenderer.Initialised 2 25 50 4 10 (mkQSize 640 480)
             Format_RGBA8888 1%Q None (Live (Driver.mkDriver 40 160 4))
             (Live (QmlRenderer.mkItem (Scene.mkQObject "QQuickItem" [] []) 640 480))
             w [QmlRenderer.UpdateRequest] in
  QmlCoreRenderer.render false 4 w = Ok w /\
  CoreRenderer.render false 4 c = Ok c /\
  QmlRenderer.polishSyncRender false (QmlRenderer.set_core w r) = Fault BlockedForever.
Proof.
  intros w c r. apply (render_without_context false 4 w c r); reflexivity.
Defined.

(** ** The renderer facade *)

Section FacadeFacts.
Import QmlRenderer.

(** The constructor sets m_framesCount to fps*duration. *)
Lemma create_framesCount (ok : bool) (doc : document) (fps duration : Z) :
  in_int (fps * duration) = true ->
  exists r, create ok doc fps duration = Ok r /\
            m_framesCount r = fps * duration /\
            m_fps r = fps /\ m_duration r = duration /\
            m_currentFrame r = 0 /\ posted r = [] /\
            m_status r = NotRunning /\ m_qmlFileUrl r = doc.
Proof.
  intros H. unfold create. rewrite (int_of_ok _ H). cbn.
  eexists. split; [reflexivity|]. cbn. auto 10.
Qed.

(** Where initDriver() is defined, the step it installs is
    1000 / ((m_framesCount - 2) / m_duration), both divisions truncating. *)
Lemma initDriver_step (r r' : t) :
  initDriver r = Ok r' ->
  m_duration r <> 0 /\
  Z.quot (m_framesCount r - 2) (m_duration r) <> 0 /\
  r' = set_driver
         (Live (Driver.create
                  (Z.quot 1000 (Z.quot (m_framesCount r - 2) (m_duration r))))) r.
Proof.
  unfold initDriver, int_div, int_of.
  destruct (in_int (m_framesCount r - 2)); cbn; [|discriminate].
  destruct (Z.eqb_spec (m_duration r) 0); cbn; [discriminate|].
  destruct (in_int (Z.quot _ (m_duration r))); cbn; [|discriminate].
  destruct (Z.eqb_spec (Z.quot (m_framesCount r - 2) (m_duration r)) 0);
    cbn; [discriminate|].
  destruct (in_int (Z.quot 1000 _)); cbn; [|discriminate].
  intros [= <-]. auto.
Qed.

Lemma initDriver_zero_duration (r : t) :
  in_int (m_framesCount r - 2) = true -> m_duration r = 0 ->
  initDriver r = Fault DivisionByZero.
Proof.
  intros H1 H2. unfold initDriver. rewrite (int_of_ok _ H1), H2. reflexivity.
Qed.

End FacadeFacts.

(** C3: for a static session (duration 0) initDriver() divides by
    m_duration = 0, so the first render of the session is undefined; for an
    animated session with fps 2 and duration 1 the corrected frame rate is
    0 and 1000 is divided by it. The specification calls the computation well
    defined for every session. *)
Theorem initDriver_division_by_zero :
  let item := Scene.mkQObject "QQuickItem" [] [] in
  (exists r,
     QmlRenderer.create true (QmlRenderer.RootObject item true) 25 0 = Ok r /\
     QmlRenderer.initDriver r = Fault DivisionByZero /\
     QmlRenderer.render_static false 640 480 Format_RGBA8888 r = Fault DivisionByZero /\
     QmlRenderer.render_static true 640 480 Format_RGBA8888 r = Fault DivisionByZero) /\
  (exists r,
     QmlRenderer.create true (QmlRenderer.RootObject item true) 2 1 = Ok r /\
     QmlRenderer.initDriver r = Fault DivisionByZero).
Proof. cbv zeta. split; eexists; repeat split; reflexivity. Qed.

(** The step that initDriver() installs for the usual 25 fps and 2 s is
    1000 / ((50 - 2) / 2) = 41 ms; for fps 1 and duration 1 it is -1000. *)
Example initDriver_steps :
  let item := Scene.mkQObject "QQuickItem" [] [] in
  (r ← QmlRenderer.create true (QmlRenderer.RootObject item true) 25 2;
   r' ← QmlRenderer.initDriver r; Ok (QmlRenderer.m_animationDriver r'))
    = Ok (Live (Driver.create 41)) /\
  (r ← QmlRenderer.create true (QmlRenderer.RootObject item true) 1 1;
   r' ← QmlRenderer.initDriver r; Ok (QmlRenderer.m_animationDriver r'))
    = Ok (Live (Driver.create (-1000))).
Proof. split; reflexivity. Qed.

(** C7: the first render of a session whose document does not compile,
    whose root object cannot be created, or whose root object is not a
    QQuickItem: loadInput() ignores what loadRootObject() returns and goes
    on to m_rootItem->setWidth(), a null dereference (an assertion failure
    in a debug build). The QImage that render() returns has no room for the
    load error the specification promises. *)
Theorem render_unloadable_document :
  let object := Scene.mkQObject "QObject" [] [] in
  Forall
    (fun doc =>
       exists r,
         QmlRenderer.create true doc 25 2 = Ok r /\
         QmlRenderer.render false 640 480 Format_RGBA8888 0 r
           = Some (Fault NullDereference) /\
         QmlRenderer.render true 640 480 Format_RGBA8888 0 r
           = Some (Fault AssertionFailed) /\
         QmlRenderer.render_static false 640 480 Format_RGBA8888 r
           = Fault NullDereference)
    [QmlRenderer.CompileError; QmlRenderer.CreationError;
     QmlRenderer.RootObject object false].
Proof.
  cbv zeta. repeat constructor; eexists; repeat split; reflexivity.
Qed.

(** *** The event loop of the animated render terminates *)

Section LoopFacts.
Import QmlRenderer.
Variable debug : bool.

Lemma has_quit_app (q1 q2 : list event) :
  has_quit (q1 ++ q2) = has_quit q1 || has_quit q2.
Proof. apply existsb_app. Qed.

Lemma polishSyncRender_frames (r r' : t) :
  polishSyncRender debug r = Ok r' ->
  m_framesCount r' = m_framesCount r /\ m_currentFrame r' = m_currentFrame r /\
  m_requestedFrame r' = m_requestedFrame r /\ posted r' = posted r.
Proof.
  unfold polishSyncRender.
  destruct (QmlCoreRenderer.render _ _ _) as [core|f]; cbn; [|discriminate].
  match goal with |- (if ?c then _ else _) = _ -> _ => destruct c end;
    [|discriminate]. now intros [= <-].
Qed.

(** One call of renderAnimated(): the frame counter goes up by one, the
    queue grows at its end, and once the last frame is reached a quit
    call is among the events posted. *)
Lemma renderAnimated_frames (r r' : t) :
  renderAnimated debug r = Ok r' ->
  m_framesCount r' = m_framesCount r /\
  m_currentFrame r' = m_currentFrame r + 1 /\
  exists evs, posted r' = posted r ++ evs /\
    (m_framesCount r <= m_currentFrame r + 1 -> has_quit evs = true).
Proof.
  unfold renderAnimated.
  destruct (polishSyncRender debug r) as [r1|f] eqn:E1; cbn; [|discriminate].
  apply polishSyncRender_frames in E1 as (EN & Ec & Er & Ep).
  destruct (deref (m_animationDriver r1)) as [d|f]; cbn; [|discriminate].
  destruct (Driver.advance d) as [d'|f]; cbn; [|discriminate].
  set (r3 := if _ =? _ then _ else _).
  assert (H3 : m_framesCount r3 = m_framesCount r /\
               m_currentFrame r3 = m_currentFrame r /\
               exists evs, posted r3 = posted r ++ evs).
  { subst r3. destruct (_ =? _); cbn; rewrite ?EN, ?Ec, ?Ep.
    - repeat split; eauto.
    - repeat split; trivial. exists []. now rewrite app_nil_r. }
  destruct H3 as (EN3 & Ec3 & evs & Ep3).
  destruct (int_of (m_currentFrame r3 + 1)) as [c|f] eqn:Ei; cbn; [|discriminate].
  assert (c = m_currentFrame r + 1) as ->.
  { unfold int_of in Ei. destruct (in_int _); [|discriminate].
    injection Ei as <-. now rewrite Ec3. }
  rewrite EN3. destruct (Z.ltb_spec (m_currentFrame r + 1) (m_framesCount r)).
  - intros [= <-]. cbn. rewrite EN3, Ep3. repeat split; trivial.
    exists (evs ++ [UpdateRequest]). rewrite app_assoc. split; [reflexivity|lia].
  - intros [= <-]. cbn. rewrite EN3, Ep3. repeat split; trivial.
    exists (evs ++ [MetaCallQuit]). rewrite app_assoc. split; [reflexivity|].
    intros _. rewrite has_quit_app. cbn. now rewrite orb_true_r.
Qed.

(** One dispatcher pass: the exit flag comes out set iff it was set or
    the batch held a quit call; each UpdateRequest moves the frame
    counter. *)
Lemma sendPostedEvents_frames (batch : list event) : forall exit r exit' r',
  sendPostedEvents debug batch exit r = Ok (exit', r') ->
  exit' = exit || has_quit batch /\
  m_framesCount r' = m_framesCount r /\
  m_currentFrame r' =
    m_currentFrame r + Z.of_nat (length (List.filter is_UpdateRequest batch)) /\
  exists evs, posted r' = posted r ++ evs /\
    (m_framesCount r <= m_currentFrame r + 1 ->
     List.filter is_UpdateRequest batch <> [] -> has_quit evs = true).
Proof.
  induction batch as [|e batch IH]; intros exit r exit' r'; cbn.
  - intros [= <- <-]. rewrite orb_false_r. repeat split; trivial; try lia.
    exists []. rewrite app_nil_r. split; congruence.
  - destruct e; cbn.
    + intros H. apply IH in H as (-> & ? & ? & ?).
      rewrite orb_true_r. auto.
    + destruct (renderAnimated debug r) as [r1|f] eqn:E; cbn; [|discriminate].
      apply renderAnimated_frames in E as (EN & Ec & evs1 & Ep1 & Hq1).
      intros H. apply IH in H as (-> & EN' & Ec' & evs2 & Ep2 & _).
      repeat split; trivial; try lia; try congruence.
      exists (evs1 ++ evs2). rewrite Ep2, Ep1, app_assoc. split; [reflexivity|].
      intros Hlast _. rewrite has_quit_app, (Hq1 Hlast). reflexivity.
Qed.

Lemma exec_with_quit (passes : nat) (r : t) :
  has_quit (posted r) = true -> exec debug (S passes) r <> None.
Proof.
  intros Hq. cbn [exec]. destruct (posted r) as [|e batch] eqn:Ep; [discriminate|].
  destruct (sendPostedEvents _ _ _ _) as [[exit' r']|f] eqn:E; [|discriminate].
  apply sendPostedEvents_frames in E as (-> & _). rewrite Hq. discriminate.
Qed.

(** A pass that does not set the exit flag moves the frame counter, and
    leaves a quit call queued if the last frame was at hand. *)
Lemma pass_progress (r r' : t) (e : event) (batch : list event) :
  sendPostedEvents debug (e :: batch) false (set_posted [] r) = Ok (false, r') ->
  m_framesCount r' = m_framesCount r /\
  m_currentFrame r + 1 <= m_currentFrame r' /\
  (m_framesCount r <= m_currentFrame r + 1 -> has_quit (posted r') = true).
Proof.
  intros E. apply sendPostedEvents_frames in E as (Hexit & EN & Ec & evs & Ep & Hq).
  change (m_framesCount (set_posted [] r)) with (m_framesCount r) in *.
  change (m_currentFrame (set_posted [] r)) with (m_currentFrame r) in *.
  change (posted (set_posted [] r) ++ evs) with evs in Ep.
  assert (Hupd : List.filter is_UpdateRequest (e :: batch) <> []).
  { destruct e; [discriminate|]. cbn. discriminate. }
  repeat split; trivial.
  - rewrite Ec. destruct (List.filter is_UpdateRequest (e :: batch)); [congruence|].
    cbn [length]. lia.
  - intros Hlast. rewrite Ep. now apply Hq.
Qed.

Lemma exec_terminates (n : nat) : forall r,
  m_framesCount r - m_currentFrame r <= Z.of_nat n ->
  exec debug (S (S n)) r <> None.
Proof.
  induction n as [|n IH]; intros r Hn.
  - cbn [exec]. destruct (posted r) as [|e batch] eqn:Ep; [discriminate|].
    destruct (sendPostedEvents _ _ _ _) as [[[] r']|f] eqn:E; try discriminate.
    apply pass_progress in E as (EN & Ec & Hq).
    apply (exec_with_quit 0). apply Hq. lia.
  - remember (S n) as m. cbn [exec].
    destruct (posted r) as [|e batch] eqn:Ep; [discriminate|].
    destruct (sendPostedEvents _ _ _ _) as [[[] r']|f] eqn:E; try discriminate.
    apply pass_progress in E as (EN & Ec & Hq).
    destruct (Z.le_gt_cases (m_framesCount r) (m_currentFrame r + 1)) as [Hlast|Hmore].
    + subst m. apply exec_with_quit. now apply Hq.
    + subst m. apply IH. lia.
Qed.

(** loop.exec() always comes to an end within the passes that render()
    allows it: it returns, or the program faults. *)
Lemma exec_total (r : t) : exec debug (passes_bound r) r <> None.
Proof. apply exec_terminates. lia. Qed.


End LoopFacts.

(** *** What the animated render returns *)

Section SessionFacts.
Import QmlRenderer AnimatedSession.
Variables (debug : bool) (o : Scene.QObject) (F D i W H : Z) (fmt : QImageFormat).
Hypothesis HD : 0 < D.
Hypothesis HN : 1 <= F * D <= INT_MAX.
Hypothesis Hfps : Z.quot (F * D - 2) D <> 0.
Hypothesis HW : 1 <= W.
Hypothesis HH : 1 <= H.

Local Abbreviation N := (N F D).
Local Abbreviation st := (st o F D i W H fmt).
Local Abbreviation core := (core F W H fmt).
Local Abbreviation image := (image W H fmt).
Local Abbreviation msPerStep := (msPerStep F D).

Lemma msPerStep_bound : -1000 <= msPerStep <= 1000.
Proof.
  unfold msPerStep, AnimatedSession.N. set (c := Z.quot (F * D - 2) D) in *.
  assert (Habs : 0 <= Z.abs (Z.quot 1000 c) <= 1000); [|lia].
  rewrite <- Z.quot_abs by exact Hfps. change (Z.abs 1000) with 1000.
  rewrite Z.quot_div_nonneg by lia. split.
  - apply Z.div_pos; lia.
  - apply Z.div_le_upper_bound; lia.
Qed.

Lemma nonempty_size : isEmpty (mkQSize W H) = false.
Proof.
  unfold isEmpty. cbn. destruct (Z.ltb_spec W 1), (Z.ltb_spec H 1); trivial; lia.
Qed.

Lemma core_ready (k : nat) : QmlCoreRenderer.ready (core k).
Proof. destruct k; repeat split; cbn; auto using nonempty_size. Qed.

(** The worker's render step number [k]+1. *)
Lemma core_render (k : nat) :
  QmlCoreRenderer.render debug k (core k) = Ok (core (S k)).
Proof.
  unfold QmlCoreRenderer.render. destruct k as [|k].
  - cbn [core QmlCoreRenderer.context_ok negb].
    rewrite ensureFbo_creates by (apply (core_ready 0) || reflexivity).
    cbn. now rewrite scaled_one.
  - cbn [core QmlCoreRenderer.context_ok negb].
    rewrite (ensureFbo_keeps _ _ (mkFbo 0 (mkQSize W H)));
      [reflexivity|apply (core_ready (S k))|reflexivity|].
    cbn. now rewrite scaled_one.
Qed.

(** Two renderers with the same members are the same. *)
Lemma renderer_ext (r1 r2 : t) :
  m_qmlFileUrl r1 = m_qmlFileUrl r2 -> m_status r1 = m_status r2 ->
  m_duration r1 = m_duration r2 -> m_fps r1 = m_fps r2 ->
  m_framesCount r1 = m_framesCount r2 -> m_currentFrame r1 = m_currentFrame r2 ->
  m_requestedFrame r1 = m_requestedFrame r2 -> m_size r1 = m_size r2 ->
  m_ImageFormat r1 = m_ImageFormat r2 -> m_dpr r1 = m_dpr r2 ->
  m_img r1 = m_img r2 -> m_animationDriver r1 = m_animationDriver r2 ->
  m_rootItem r1 = m_rootItem r2 -> m_corerenderer r1 = m_corerenderer r2 ->
  posted r1 = posted r2 -> r1 = r2.
Proof. destruct r1, r2. cbn. intros. now subst. Qed.

(** Call [k]+1 of renderAnimated(). *)
Lemma renderAnimated_step (k : nat) (img : option QImage) (q : list event) :
  Z.of_nat k < N ->
  renderAnimated debug (st k img q) =
    Ok (st (S k) (img_after F D i W H fmt k img) (q ++ events_after F D i k)).
Proof.
  intros Hk. unfold renderAnimated, polishSyncRender.
  change (scene_now (st k img q)) with k.
  change (m_corerenderer (st k img q)) with (core k).
  rewrite core_render. cbn [mbind result_bind].
  replace (QmlCoreRenderer.wakes (core k) <? QmlCoreRenderer.wakes (core (S k)))%nat
    with true by (destruct k; cbn [core QmlCoreRenderer.wakes]; symmetry;
                  apply Nat.ltb_lt; lia).
  cbn [m_animationDriver set_core st deref mbind result_bind].
  pose proof msPerStep_bound as Hs.
  assert (Hk' : Z.of_nat k < F * D) by exact Hk.
  assert (HN' : 1 <= F * D <= 2147483647) by exact HN.
  rewrite advance_ok; cbn [Driver.m_step Driver.m_elapsed Driver.animation_ticks].
  2:{ apply in_qint64_spec.
      assert (- (1000 * (Z.of_nat k + 1)) <= Z.of_nat k * msPerStep + msPerStep
              <= 1000 * (Z.of_nat k + 1)) by nia.
      change INT64_MIN with (-9223372036854775808).
      change INT64_MAX with 9223372036854775807. lia. }
  assert (Hint : int_of (Z.of_nat k + 1) = Ok (Z.of_nat k + 1)).
  { apply int_of_ok, in_int_spec. change INT_MAX with 2147483647.
    change INT_MIN with (-2147483648). lia. }
  unfold img_after, events_after. cbn [mbind result_bind]. cbv zeta.
  destruct (Z.eqb_spec (Z.of_nat k) i) as [Hki|Hki].
  - match goal with |- context [m_currentFrame ?x =? m_requestedFrame ?y] =>
      change (m_currentFrame x =? m_requestedFrame y) with (Z.of_nat k =? i) end.
    rewrite (proj2 (Z.eqb_eq _ _) Hki).
    change (m_currentFrame (emit_imageReady _)) with (Z.of_nat k).
    rewrite Hint. cbn [mbind result_bind].
    change (m_currentFrame (set_frames _ _ _)) with (Z.of_nat k + 1).
    change (m_framesCount (set_frames _ _ _)) with N.
    destruct (Z.ltb_spec (Z.of_nat k + 1) N) as [Hlt|Hge];
      f_equal; apply renderer_ext;
      cbn [emit_imageReady postEvent set_frames set_img set_driver set_core
           set_posted st QmlCoreRenderer.getRenderedQImage
           m_qmlFileUrl m_status m_duration m_fps m_framesCount m_currentFrame
           m_requestedFrame m_size m_ImageFormat m_dpr m_img m_animationDriver
           m_rootItem m_corerenderer posted];
      rewrite <- ?app_assoc;
      first [lia | reflexivity | (do 2 f_equal; lia)].
  - match goal with |- context [m_currentFrame ?x =? m_requestedFrame ?y] =>
      change (m_currentFrame x =? m_requestedFrame y) with (Z.of_nat k =? i) end.
    rewrite (proj2 (Z.eqb_neq _ _) Hki).
    change (m_currentFrame (set_driver _ _)) with (Z.of_nat k).
    rewrite Hint. cbn [mbind result_bind].
    change (m_currentFrame (set_frames _ _ _)) with (Z.of_nat k + 1).
    change (m_framesCount (set_frames _ _ _)) with N.
    destruct (Z.ltb_spec (Z.of_nat k + 1) N) as [Hlt|Hge];
      f_equal; apply renderer_ext;
      cbn [emit_imageReady postEvent set_frames set_img set_driver set_core
           set_posted st QmlCoreRenderer.getRenderedQImage
           m_qmlFileUrl m_status m_duration m_fps m_framesCount m_currentFrame
           m_requestedFrame m_size m_ImageFormat m_dpr m_img m_animationDriver
           m_rootItem m_corerenderer posted];
      rewrite <- ?app_assoc;
      first [lia | reflexivity | (do 2 f_equal; lia)].
Qed.

Local Abbreviation finished := (finished F D i W H fmt).

Lemma exec_agree (f1 : nat) : forall f2 r x y,
  exec debug f1 r = Some x -> exec debug f2 r = Some y -> x = y.
Proof.
  induction f1 as [|f1 IH]; intros [|f2] r x y; cbn [exec]; try discriminate.
  destruct (posted r); [congruence|].
  destruct (sendPostedEvents _ _ _ _) as [[[] r']|f]; try congruence.
  apply IH.
Qed.

Lemma st_finished (k : nat) (q : list event) :
  finished (st k (Some (image (Z.to_nat (returned_scene F D i)))) q).
Proof. split; [reflexivity|]. cbn. eauto. Qed.

(** The pass that finds a quit call queued is the last one. *)
Lemma exec_last_pass (k : nat) (q : list event) :
  Z.of_nat k <= N ->
  (q = [MetaCallQuit; UpdateRequest] /\ Z.of_nat k < N /\ Z.of_nat k = i + 1
   \/ q = [MetaCallQuit; MetaCallQuit] /\ Z.of_nat k = N /\ i = N - 1
   \/ q = [MetaCallQuit] /\ Z.of_nat k = N /\ N <= i) ->
  forall img,
    (Z.of_nat k = N \/ i + 2 < N -> img = Some (image (Z.to_nat (returned_scene F D i)))) ->
    exists r', exec debug 1 (st k img q) = Some (Ok r') /\ finished r'.
Proof.
  intros Hk Hq img Himg. cbn [exec].
  destruct Hq as [(-> & Hlt & Hki)|[(-> & HkN & HiN)|(-> & HkN & HiN)]];
    cbn [posted st sendPostedEvents];
    change (set_posted [] (st k img ?q)) with (st k img []).
  - rewrite renderAnimated_step by exact Hlt. cbn [mbind result_bind].
    eexists. split; [reflexivity|].
    unfold img_after.
    destruct (Z.eqb_spec (Z.of_nat k) i); [lia|].
    destruct (Z.ltb_spec (Z.of_nat k + 1) N).
    + rewrite Himg by lia. apply st_finished.
    + replace k with (Z.to_nat (returned_scene F D i)) at 2; [apply st_finished|].
      unfold returned_scene.
      destruct (Z.ltb_spec i N); [|lia].
      destruct (Z.eqb_spec (i + 2) N); lia.
  - eexists. split; [reflexivity|]. rewrite Himg by lia. apply st_finished.
  - eexists. split; [reflexivity|]. rewrite Himg by lia. apply st_finished.
Qed.

Hypothesis Hi : 0 <= i.

(** After the call that captures the requested frame, or reaches the
    last one, a single pass remains. *)
Lemma exec_after_decisive_call (K : nat) :
  Z.of_nat K = Z.min i (N - 1) ->
  exists r',
    exec debug 1 (st (S K) (img_after F D i W H fmt K None) (events_after F D i K))
      = Some (Ok r') /\ finished r'.
Proof.
  intros HK. unfold AnimatedSession.N in *.
  apply exec_last_pass; unfold img_after, events_after, returned_scene,
    AnimatedSession.N.
  - lia.
  - destruct (Z.eqb_spec (Z.of_nat K) i);
      destruct (Z.ltb_spec (Z.of_nat K + 1) (F * D)); cbn [app].
    + left. repeat split; lia.
    + right; left. repeat split; lia.
    + lia.
    + right; right. repeat split; lia.
  - intros Hcase.
    destruct (Z.eqb_spec (Z.of_nat K) i);
      destruct (Z.ltb_spec (Z.of_nat K + 1) (F * D));
      destruct (Z.ltb_spec i (F * D));
      destruct (Z.eqb_spec (i + 2) (F * D)); try lia;
      do 2 f_equal; lia.
Qed.

(** The passes before that call each make one call that posts one
    UpdateRequest. *)
Lemma exec_until_decisive_call (gap : nat) : forall k : nat,
  Z.of_nat (k + gap) = Z.min i (N - 1) ->
  exists passes r',
    exec debug passes (st k None [UpdateRequest]) = Some (Ok r') /\ finished r'.
Proof.
  induction gap as [|gap IH]; intros k Hk; unfold AnimatedSession.N in *.
  - destruct (exec_after_decisive_call k) as (r' & E & Hfin);
      [unfold AnimatedSession.N; lia|].
    exists 2%nat, r'. split; [|exact Hfin].
    cbn [exec posted st sendPostedEvents].
    change (set_posted [] (st k None [UpdateRequest])) with (st k None []).
    rewrite renderAnimated_step by (unfold AnimatedSession.N; lia).
    cbn [mbind result_bind app]. exact E.
  - destruct (IH (S k)) as (passes & r' & E & Hfin); [lia|].
    exists (S passes), r'. split; [|exact Hfin].
    cbn [exec posted st sendPostedEvents].
    change (set_posted [] (st k None [UpdateRequest])) with (st k None []).
    rewrite renderAnimated_step by (unfold AnimatedSession.N; lia).
    cbn [mbind result_bind app].
    unfold img_after, events_after, AnimatedSession.N.
    destruct (Z.eqb_spec (Z.of_nat k) i); [lia|].
    destruct (Z.ltb_spec (Z.of_nat k + 1) (F * D)); [|lia].
    exact E.
Qed.

Lemma init_fresh (r0 : t) :
  create true (RootObject o true) F D = Ok r0 ->
  init debug W H fmt (set_frames 0 i r0) = Ok (st 0 None []).
Proof.
  unfold create. rewrite int_of_ok
    by (apply in_int_spec; change INT_MIN with (-2147483648); lia).
  cbn [mbind result_bind]. intros [= <-].
  unfold init. cbn [m_status set_frames orb].
  unfold initDriver. cbn [m_framesCount m_duration set_frames].
  assert (HN' : 1 <= F * D <= 2147483647) by exact HN.
  rewrite int_of_ok
    by (apply in_int_spec; change INT_MIN with (-2147483648);
        change INT_MAX with 2147483647; lia).
  cbn [mbind result_bind].
  assert (Hq : -2147483647 <= Z.quot (F * D - 2) D <= 2147483647).
  { assert (Z.abs (Z.quot (F * D - 2) D) <= Z.abs (F * D - 2)); [|lia].
    rewrite <- Z.quot_abs by lia. rewrite Z.quot_div_nonneg by lia.
    apply Z.div_le_upper_bound; nia. }
  rewrite int_div_ok
    by (try lia; apply in_int_spec; change INT_MIN with (-2147483648);
        change INT_MAX with 2147483647; lia).
  cbn [mbind result_bind].
  pose proof msPerStep_bound as Hs. unfold msPerStep, AnimatedSession.N in Hs.
  rewrite int_div_ok
    by (try exact Hfps; apply in_int_spec; change INT_MIN with (-2147483648);
        change INT_MAX with 2147483647; lia).
  cbn [mbind result_bind].
  unfold loadInput, loadRootObject.
  cbn -[Z.quot Z.sub Z.mul Q_ASSERT isEmpty].
  rewrite !Q_ASSERT_holds. cbn [mbind result_bind].
  change (isEmpty (m_size _)) with (isEmpty (mkQSize W H)).
  rewrite nonempty_size. cbn [negb]. rewrite Q_ASSERT_holds.
  cbn [mbind result_bind].
  f_equal; apply renderer_ext; reflexivity.
Qed.

(** The animated render of a session with at least one frame, in full:
    it returns, and the image it returns is the one of [returned_scene]. *)
Lemma render_returns_scene :
  exists r0 r',
    create true (RootObject o true) F D = Ok r0 /\
    m_framesCount r0 = F * D /\
    render debug W H fmt i r0 =
      Some (Ok (Some (image (Z.to_nat (returned_scene F D i))), r')).
Proof.
  destruct (create_framesCount true (RootObject o true) F D) as (r0 & E0 & EN & _).
  { apply in_int_spec. change INT_MIN with (-2147483648). lia. }
  exists r0.
  assert (Hrun : exists passes r3,
             exec debug passes
               (st 1 (img_after F D i W H fmt 0 None) ([] ++ events_after F D i 0))
               = Some (Ok r3) /\ finished r3).
  { destruct (Z.eq_dec (Z.min i (F * D - 1)) 0) as [HK|HK].
    - destruct (exec_after_decisive_call 0) as (r3 & E & Hfin);
        [unfold AnimatedSession.N; cbn; lia|].
      exists 1%nat, r3. auto.
    - destruct (exec_until_decisive_call (Z.to_nat (Z.min i (F * D - 1)) - 1) 1)
        as (passes & r3 & E & Hfin); [unfold AnimatedSession.N; lia|].
      exists passes, r3.
      unfold img_after, events_after, AnimatedSession.N.
      change (Z.of_nat 0) with 0.
      destruct (Z.eqb_spec 0 i); [lia|].
      destruct (Z.ltb_spec (0 + 1) (F * D)); [|lia]. auto. }
  destruct Hrun as (passes & r3 & E & Himg & d & Hd).
  unfold render. rewrite (init_fresh r0 E0).
  rewrite renderAnimated_step by (unfold AnimatedSession.N; cbn; lia).
  destruct (exec debug (passes_bound _) _) as [x|] eqn:Ex;
    [|now apply exec_total in Ex].
  rewrite (exec_agree _ _ _ _ _ Ex E).
  unfold resetDriver. rewrite Hd. cbn [deref mbind result_bind].
  eexists. split; [exact E0|]. split; [exact EN|].
  cbn [m_img set_posted set_rootItem set_driver]. rewrite Himg. reflexivity.
Qed.

End SessionFacts.

(** The requested frame comes back when it exists and is not the last but
    one: the image the worker held after i+1 render steps and advances. *)
Lemma render_returns_requested_frame (debug : bool) (o : Scene.QObject)
  (F D i W H : Z) (fmt : QImageFormat) :
  0 < D -> 1 <= F * D <= INT_MAX -> Z.quot (F * D - 2) D <> 0 ->
  1 <= W -> 1 <= H -> 0 <= i < F * D -> i + 2 <> F * D ->
  exists r0 r',
    QmlRenderer.create true (QmlRenderer.RootObject o true) F D = Ok r0 /\
    QmlRenderer.m_framesCount r0 = F * D /\
    QmlRenderer.render debug W H fmt i r0 =
      Some (Ok (Some (mkQImage (mkQSize W H) fmt (Z.to_nat i)), r')).
Proof.
  intros HD HN Hfps HW HH Hi Hlast.
  destruct (render_returns_scene debug o F D i W H fmt) as (r0 & r' & E0 & EN & E);
    try assumption; [lia|].
  exists r0, r'. repeat split; trivial. rewrite E.
  unfold AnimatedSession.returned_scene, AnimatedSession.N.
  destruct (Z.ltb_spec i (F * D)); [|lia].
  destruct (Z.eqb_spec (i + 2) (F * D)); [lia|]. reflexivity.
Qed.

(** A frame index at or beyond the frame count yields the last frame. *)
Lemma render_beyond_last_frame (debug : bool) (o : Scene.QObject)
  (F D i W H : Z) (fmt : QImageFormat) :
  0 < D -> 1 <= F * D <= INT_MAX -> Z.quot (F * D - 2) D <> 0 ->
  1 <= W -> 1 <= H -> F * D <= i ->
  exists r0 r',
    QmlRenderer.create true (QmlRenderer.RootObject o true) F D = Ok r0 /\
    QmlRenderer.render debug W H fmt i r0 =
      Some (Ok (Some (mkQImage (mkQSize W H) fmt (Z.to_nat (F * D - 1))), r')).
Proof.
  intros HD HN Hfps HW HH Hi.
  destruct (render_returns_scene debug o F D i W H fmt) as (r0 & r' & E0 & EN & E);
    try assumption; [lia|].
  exists r0, r'. repeat split; trivial. rewrite E.
  unfold AnimatedSession.returned_scene, AnimatedSession.N.
  destruct (Z.ltb_spec i (F * D)); [lia|]. reflexivity.
Qed.

(** The last frame but one is overwritten by the last: after the capture
    one more UpdateRequest is dispatched in the pass that sees the quit
    call, and that call of renderAnimated() reaches the frame count. *)
Lemma render_last_but_one_frame (debug : bool) (o : Scene.QObject)
  (F D i W H : Z) (fmt : QImageFormat) :
  0 < D -> 1 <= F * D <= INT_MAX -> Z.quot (F * D - 2) D <> 0 ->
  1 <= W -> 1 <= H -> 0 <= i -> i + 2 = F * D ->
  exists r0 r',
    QmlRenderer.create true (QmlRenderer.RootObject o true) F D = Ok r0 /\
    QmlRenderer.render debug W H fmt i r0 =
      Some (Ok (Some (mkQImage (mkQSize W H) fmt (Z.to_nat (i + 1))), r')).
Proof.
  intros HD HN Hfps HW HH Hi Hlast.
  destruct (render_returns_scene debug o F D i W H fmt) as (r0 & r' & E0 & EN & E);
    try assumption.
  exists r0, r'. repeat split; trivial. rewrite E.
  unfold AnimatedSession.returned_scene, AnimatedSession.N.
  destruct (Z.ltb_spec i (F * D)); [|lia].
  destruct (Z.eqb_spec (i + 2) (F * D)); [|lia].
  do 5 f_equal. lia.
Qed.

(** At 25 fps and 2 s, frame 48 of 50 is asked for and the image of frame
    49 comes back. *)
Example render_animated_last_but_one :
  exists r r',
    QmlRenderer.create true
      (QmlRenderer.RootObject (Scene.mkQObject "QQuickItem" [] []) true) 25 2 = Ok r /\
    QmlRenderer.render false 640 480 Format_RGBA8888 48 r =
      Some (Ok (Some (mkQImage (mkQSize 640 480) Format_RGBA8888 49), r')).
Proof.
  apply (render_last_but_one_frame false _ 25 2 48 640 480 Format_RGBA8888);
    try reflexivity; try lia.
  - change INT_MAX with 2147483647. lia.
  - discriminate.
Qed.

(** C1: a session of 2 fps and 1 s has 2 frames, and its animated render
    of frame 0 never gets as far as a frame: initDriver() divides 1000 by a
    corrected frame rate of (2 - 2) / 1 = 0. The specification has every animated
    render return. *)
Theorem render_animated_divides_by_zero :
  exists r,
    QmlRenderer.create true
      (QmlRenderer.RootObject (Scene.mkQObject "QQuickItem" [] []) true) 2 1 = Ok r /\
    QmlRenderer.m_framesCount r = 2 * 1 /\
    QmlRenderer.render false 640 480 Format_RGBA8888 0 r = Some (Fault DivisionByZero) /\
    QmlRenderer.render true 640 480 Format_RGBA8888 0 r = Some (Fault DivisionByZero).
Proof. eexists. repeat split. Qed.

(** ** The producer *)

Section ProducerFacts.
Import Producer.
Variable h : host.

Lemma contents_store_eq (p : nat) (bytes : list byte) (m : mlt_pool) :
  is_Some (blocks m !! p) -> contents p (store p bytes m) = bytes.
Proof.
  intros [old Hp]. unfold contents, store. cbn. rewrite Hp.
  now rewrite lookup_insert_eq.
Qed.

Lemma contents_store_ne (p q : nat) (bytes : list byte) (m : mlt_pool) :
  p <> q -> contents q (store p bytes m) = contents q m.
Proof.
  intros Hne. unfold contents, store. cbn.
  destruct (blocks m !! p); [|reflexivity]. now rewrite lookup_insert_ne.
Qed.

Lemma contents_release_ne (p q : nat) (m : mlt_pool) :
  p <> q -> contents q (mlt_pool_release p m) = contents q m.
Proof. intros Hne. unfold contents, mlt_pool_release. cbn. now rewrite lookup_delete_ne. Qed.

Lemma contents_alloc_ne (size : Z) (q : nat) (m : mlt_pool) :
  q <> next_block m -> contents q (mlt_pool_alloc size m).2 = contents q m.
Proof. intros Hne. unfold contents, mlt_pool_alloc. cbn. now rewrite lookup_insert_ne. Qed.

Lemma contents_alloc_eq (size : Z) (m : mlt_pool) :
  contents (next_block m) (mlt_pool_alloc size m).2 = replicate (Z.to_nat size) x00.
Proof. unfold contents, mlt_pool_alloc. cbn. now rewrite lookup_insert_eq. Qed.

Lemma contents_clear_ne (props : gmap string property) (name : string) (q : nat)
  (m : mlt_pool) :
  (forall p, props !! name = Some (PBuffer (Some p) true) -> p <> q) ->
  contents q (clear_property props name m) = contents q m.
Proof.
  intros Hne. unfold clear_property.
  destruct (props !! name) as [[| |[p|] []|]|] eqn:E; trivial.
  apply contents_release_ne. now apply Hne.
Qed.

Lemma next_block_clear (props : gmap string property) (name : string) (m : mlt_pool) :
  next_block (clear_property props name m) = next_block m.
Proof.
  unfold clear_property. now destruct (props !! name) as [[| |[p|] []|]|].
Qed.

Lemma blocks_clear (props : gmap string property) (name : string) (m : mlt_pool) p :
  is_Some (blocks (clear_property props name m) !! p) -> is_Some (blocks m !! p).
Proof.
  unfold clear_property.
  destruct (props !! name) as [[| |[q|] []|]|]; trivial.
  cbn. destruct (decide (q = p)) as [->|Hne].
  - rewrite lookup_delete_eq. now intros [? ?].
  - now rewrite lookup_delete_ne.
Qed.

(** *** Steps that keep the memory well formed *)

Lemma below_mono (n n' : nat) (p : option nat) :
  (n <= n')%nat -> below n p -> below n' p.
Proof. intros Hle Hp q Hq. specialize (Hp q Hq). lia. Qed.

Lemma below_None (n : nat) : below n None.
Proof. intros q [=]. Qed.

Lemma below_Some (n p : nat) : (p < n)%nat -> below n (Some p).
Proof. now intros Hp q [= <-]. Qed.

Lemma props_below_mono (n n' : nat) props :
  (n <= n')%nat -> props_below n props -> props_below n' props.
Proof. intros Hle Hp name q rel Hq. specialize (Hp name q rel Hq). lia. Qed.

Lemma props_below_insert (n : nat) props (name : string) (v : property) :
  props_below n props ->
  (forall q rel, v = PBuffer (Some q) rel -> (q < n)%nat) ->
  props_below n (<[name := v]> props).
Proof.
  intros Hp Hv name' q rel. destruct (decide (name = name')) as [->|Hne].
  - rewrite lookup_insert_eq. intros [= ->]. eauto.
  - rewrite lookup_insert_ne by exact Hne. apply Hp.
Qed.

(** A change of the producer's properties, with the release of the block
    an old value owned. *)
Lemma wf_set_producer_property (name : string) (v : property) (w : world) :
  well_formed w -> well_formed (set_producer_property name v w).
Proof.
  intros (W0 & W1 & W2 & W3 & W4 & W5). unfold set_producer_property.
  repeat split; cbn [pool self frame_props set_producer_props set_pool];
    rewrite ?next_block_clear; trivial.
  intros p Hp. apply W0. eapply blocks_clear, Hp.
Qed.

Lemma wf_set_producer_props (props : gmap string property) (w : world) :
  well_formed w -> well_formed (set_producer_props props w).
Proof. intros Hw. exact Hw. Qed.

(** A write into a block. *)
Lemma wf_store (p : nat) (bytes : list byte) (w : world) :
  well_formed w -> well_formed (set_pool (store p bytes (pool w)) w).
Proof.
  intros (W0 & W1 & W2 & W3 & W4 & W5).
  repeat split; cbn [pool self frame_props set_pool store next_block]; trivial.
  intros q. unfold store. cbn [blocks].
  destruct (blocks (pool w) !! p) eqn:Ep; [|apply W0].
  destruct (decide (p = q)) as [->|Hne].
  - intros _. apply W0. now rewrite Ep.
  - rewrite lookup_insert_ne by exact Hne. apply W0.
Qed.

Lemma wf_store_in (p : nat) (bytes : list byte) (w0 w : world) :
  pool w0 = pool w -> well_formed w ->
  well_formed (set_pool (store p bytes (pool w0)) w).
Proof. intros ->. apply wf_store. Qed.

Lemma wf_memcpy_bytes (dst : nat) (src : list byte) (n : Z) (w0 w : world) :
  pool w0 = pool w -> well_formed w ->
  well_formed (set_pool (memcpy_bytes dst src n (pool w0)) w).
Proof. intros ->. apply wf_store. Qed.

Lemma wf_memcpy (dst src : nat) (n : Z) (w0 w : world) :
  pool w0 = pool w -> well_formed w ->
  well_formed (set_pool (memcpy dst src n (pool w0)) w).
Proof. intros ->. apply wf_store. Qed.

(** Changes of the producer's own members that bring in no pointer. *)
Lemma wf_set_format (f : mlt_image_format) (w : world) :
  well_formed w -> well_formed (set_self (set_format f (self w)) w).
Proof. intros Hw. exact Hw. Qed.

Lemma wf_set_current_size (width height : Z) (w : world) :
  well_formed w -> well_formed (set_self (set_current_size width height (self w)) w).
Proof. intros Hw. exact Hw. Qed.

Lemma wf_clear_current_image (w : world) :
  well_formed w -> well_formed (set_self (set_current_image None (self w)) w).
Proof.
  intros (W0 & W1 & W2 & W3 & W4 & W5). repeat split; trivial. apply below_None.
Qed.

Lemma wf_clear_current_alpha (w : world) :
  well_formed w -> well_formed (set_self (set_current_alpha None (self w)) w).
Proof.
  intros (W0 & W1 & W2 & W3 & W4 & W5). repeat split; trivial.
  - apply below_None.
  - intros q _. discriminate.
Qed.

(** An allocation. *)
Lemma wf_alloc (size : Z) (w : world) :
  well_formed w ->
  (alloc size w).1 = next_block (pool w) /\
  next_block (pool (alloc size w).2) = S (next_block (pool w)) /\
  self (alloc size w).2 = self w /\
  frame_props (alloc size w).2 = frame_props w /\
  producer_props (alloc size w).2 = producer_props w /\
  qml_reads (alloc size w).2 = qml_reads w /\
  well_formed (alloc size w).2.
Proof.
  intros (W0 & W1 & W2 & W3 & W4 & W5). unfold alloc. cbn.
  repeat split; cbn; trivial; try (eapply below_mono; [|eassumption]; lia).
  - intros p. destruct (decide (next_block (pool w) = p)) as [<-|Hne]; [lia|].
    rewrite lookup_insert_ne by exact Hne. intros Hp. specialize (W0 p Hp). lia.
  - eapply props_below_mono; [|eassumption]; lia.
Qed.

(** An allocation whose block becomes one of the producer's buffers. *)
Lemma wf_alloc_rgba_image (size : Z) (w : world) :
  well_formed w ->
  well_formed (set_self (set_rgba_image (Some (alloc size w).1) (self (alloc size w).2))
                        (alloc size w).2).
Proof.
  intros Hw. destruct (wf_alloc size w Hw) as (E1 & En & Es & Ef & _ & _ & Hw').
  destruct Hw' as (W0 & W1 & W2 & W3 & W4 & W5).
  repeat split; trivial.
  change (below (next_block (pool (alloc size w).2)) (Some (alloc size w).1)).
  rewrite En, E1. apply below_Some. lia.
Qed.

Lemma wf_alloc_current_image (size : Z) (w : world) :
  well_formed w ->
  well_formed (set_self (set_current_image (Some (alloc size w).1) (self (alloc size w).2))
                        (alloc size w).2).
Proof.
  intros Hw. destruct (wf_alloc size w Hw) as (E1 & En & Es & Ef & _ & _ & Hw').
  destruct Hw' as (W0 & W1 & W2 & W3 & W4 & W5).
  repeat split; trivial.
  change (below (next_block (pool (alloc size w).2)) (Some (alloc size w).1)).
  rewrite En, E1. apply below_Some. lia.
Qed.

Lemma wf_alloc_current_alpha (size : Z) (w : world) :
  well_formed w ->
  well_formed (set_self (set_current_alpha (Some (alloc size w).1) (self (alloc size w).2))
                        (alloc size w).2).
Proof.
  intros Hw. pose proof Hw as (_ & _ & _ & _ & V4 & _).
  destruct (wf_alloc size w Hw) as (E1 & En & Es & Ef & _ & _ & Hw').
  destruct Hw' as (W0 & W1 & W2 & W3 & W4 & W5).
  repeat split; trivial.
  - change (below (next_block (pool (alloc size w).2)) (Some (alloc size w).1)).
    rewrite En, E1. apply below_Some. lia.
  - change (forall q, frame_props (alloc size w).2 !! "image"
                        = Some (PBuffer (Some q) true) ->
                      Some (alloc size w).1 <> Some q).
    rewrite Ef, E1. intros q Hq [= <-]. specialize (V4 _ _ _ Hq). lia.
Qed.

(** Changes of the frame's properties. *)
Lemma wf_set_frame_property (name : string) (v : property) (w : world) :
  well_formed w ->
  (forall q rel, v = PBuffer (Some q) rel -> (q < next_block (pool w))%nat) ->
  (name = "image"%string -> forall q, v = PBuffer (Some q) true ->
     current_alpha (self w) <> Some q) ->
  well_formed (set_frame_property name v w).
Proof.
  intros (W0 & W1 & W2 & W3 & W4 & W5) Hv Himg. unfold set_frame_property.
  repeat split; cbn [pool self frame_props set_frame_props set_pool];
    rewrite ?next_block_clear; trivial.
  - intros p Hp. apply W0. eapply blocks_clear, Hp.
  - now apply props_below_insert.
  - intros q. destruct (decide (name = "image"%string)) as [->|Hne].
    + rewrite lookup_insert_eq. intros [= ->]. now apply Himg.
    + rewrite lookup_insert_ne by exact Hne. apply W5.
Qed.

Lemma wf_set_frame_int (name : string) (z : Z) (w : world) :
  well_formed w -> well_formed (set_frame_property name (PInt z) w).
Proof. intros Hw. apply wf_set_frame_property; trivial; discriminate. Qed.

(** The frame is given a buffer it does not own. *)
Lemma wf_set_frame_borrowed (name : string) (p : option nat) (w : world) :
  well_formed w -> below (next_block (pool w)) p ->
  well_formed (set_frame_property name (PBuffer p false) w).
Proof.
  intros Hw Hp. apply wf_set_frame_property; trivial.
  - intros q rel [= -> <-]. now apply Hp.
  - intros _ q [=].
Qed.

Lemma alloc_eq (size : Z) (w : world) (p : nat) (w1 : world) :
  alloc size w = (p, w1) -> p = (alloc size w).1 /\ w1 = (alloc size w).2.
Proof. now intros ->. Qed.

Lemma wf_alloc_rgba_image' (size : Z) (w : world) (p : nat) (w1 : world) :
  alloc size w = (p, w1) -> well_formed w ->
  well_formed (set_self (set_rgba_image (Some p) (self w1)) w1).
Proof. intros (-> & ->)%alloc_eq. apply wf_alloc_rgba_image. Qed.

Lemma wf_alloc_current_image' (size : Z) (w : world) (p : nat) (w1 : world) :
  alloc size w = (p, w1) -> well_formed w ->
  well_formed (set_self (set_current_image (Some p) (self w1)) w1).
Proof. intros (-> & ->)%alloc_eq. apply wf_alloc_current_image. Qed.

Lemma wf_alloc_current_alpha' (size : Z) (w : world) (p : nat) (w1 : world) :
  alloc size w = (p, w1) -> well_formed w ->
  well_formed (set_self (set_current_alpha (Some p) (self w1)) w1).
Proof. intros (-> & ->)%alloc_eq. apply wf_alloc_current_alpha. Qed.

(** An allocation whose block, once filled, becomes the frame's own. *)
Lemma wf_alloc_frame_owned (name : string) (size : Z) (bytes : list byte)
  (w : world) (p : nat) (w1 : world) :
  alloc size w = (p, w1) -> well_formed w ->
  well_formed (set_frame_property name (PBuffer (Some p) true)
                 (set_pool (store p bytes (pool w1)) w1)).
Proof.
  intros (Ep & Ew)%alloc_eq Hw. pose proof Hw as (_ & _ & _ & V3 & _ & _).
  destruct (wf_alloc size w Hw) as (E1 & En & Es & Ef & _ & _ & Hw').
  rewrite <- Ep in E1. rewrite <- Ew in En, Es, Hw'. clear Ep Ew.
  apply wf_set_frame_property.
  - now apply wf_store.
  - intros q rel [= <- <-].
    change (p < next_block (pool w1))%nat. rewrite En, E1. lia.
  - intros _ q [= <-].
    change (current_alpha (self w1) <> Some p). rewrite Es, E1.
    intros Hq. specialize (V3 _ Hq). lia.
Qed.

Ltac wf_step :=
  first
    [ assumption
    | apply wf_set_producer_property
    | apply wf_set_producer_props
    | (apply wf_memcpy; [reflexivity|])
    | (apply wf_memcpy_bytes; [reflexivity|])
    | (apply wf_store_in; [reflexivity|])
    | apply wf_clear_current_image
    | apply wf_clear_current_alpha
    | apply wf_set_format
    | apply wf_set_current_size
    | apply wf_set_frame_int
    | (eapply wf_alloc_rgba_image'; [eassumption|])
    | (eapply wf_alloc_current_image'; [eassumption|])
    | (eapply wf_alloc_current_alpha'; [eassumption|])
    | (eapply wf_alloc_frame_owned; [eassumption|]) ].

Lemma wf_render_title (animated : bool) (width height position : Z)
  (r : QmlRenderer.t) (w w' : world) :
  well_formed w ->
  render_title h animated width height position r w = Some (Ok w') ->
  well_formed w'.
Proof.
  intros Hw. unfold render_title.
  destruct (alloc (width * height * 4) w) as [rgba w1] eqn:E1.
  match goal with |- context [match ?x with Some _ => _ | None => None end] =>
    destruct x as [[[[qimg|] r']|f]|] end; try discriminate.
  match goal with |- context [alloc ?s ?x] =>
    destruct (alloc s x) as [cur w8] eqn:E8 end.
  destruct (mlt_frame_get_alpha _) as [alpha|].
  - match goal with |- context [alloc ?s ?x] =>
      destruct (alloc s x) as [ca w14] eqn:E14 end.
    intros [= <-]. repeat wf_step.
  - intros [= <-]. repeat wf_step.
Qed.

Lemma wf_mlt_frame_get_image (fmt : mlt_image_format) (width height : Z)
  (w : world) :
  well_formed w -> well_formed (mlt_frame_get_image h fmt width height w).1.
Proof.
  intros Hw. unfold mlt_frame_get_image.
  destruct (get_buffer _ _) as [p|]; [|exact Hw].
  destruct (decide _); [exact Hw|].
  destruct (frame_convert _ _ _ _ _ _) as [bytes|]; [|exact Hw].
  destruct (alloc _ w) as [q w1] eqn:E1. cbn [fst].
  unfold mlt_frame_set_image. repeat wf_step.
Qed.

Lemma wf_mlt_frame_replace_image (image : option nat) (fmt : mlt_image_format)
  (width height : Z) (w : world) :
  well_formed w -> below (next_block (pool w)) image ->
  well_formed (mlt_frame_replace_image image fmt width height w).
Proof.
  intros Hw Himg. unfold mlt_frame_replace_image. repeat wf_step.
  now apply wf_set_frame_borrowed.
Qed.

Lemma wf_current_image (w : world) :
  well_formed w -> below (next_block (pool w)) (current_image (self w)).
Proof. now intros (_ & _ & ? & _). Qed.

Lemma wf_convert_title (fmt : mlt_image_format) (width height : Z) (w w' : world) :
  well_formed w -> convert_title h fmt width height w = Ok w' -> well_formed w'.
Proof.
  intros Hw. unfold convert_title.
  match goal with |- (?m ≫= _) = _ -> _ =>
    assert (Hconv : forall w1, m = Ok w1 -> well_formed w1);
    [|destruct m as [w1|f]; [|discriminate]] end.
  - destruct (_ && _); [|now intros w1 [= <-]].
    match goal with |- forall _, (?m ≫= _) = _ -> _ =>
      assert (Hrevert : forall w1, m = Ok w1 -> well_formed w1);
      [|destruct m as [w1|f]; [|discriminate]] end.
    + destruct (negb _); [|now intros w1 [= <-]].
      destruct (rgba_image (self w)) as [rgba|]; [|discriminate].
      destruct (alloc _ w) as [cur wa] eqn:Ea.
      intros w1 [= <-]. repeat wf_step.
    + specialize (Hrevert w1 eq_refl). cbn [mbind result_bind]. cbv zeta.
      match goal with |- context [mlt_frame_get_image h ?f ?a ?b ?x] =>
        assert (Hget : well_formed (mlt_frame_get_image h f a b x).1);
        [|destruct (mlt_frame_get_image h f a b x)
            as [w5 [[[buffer fmt'] width'] height']]] end.
      { apply wf_mlt_frame_get_image. repeat wf_step.
        unfold mlt_frame_set_image.
        apply wf_set_frame_borrowed.
        - apply wf_mlt_frame_replace_image; [exact Hrevert|].
          now apply wf_current_image.
        - apply wf_current_image.
          apply wf_mlt_frame_replace_image; [exact Hrevert|].
          now apply wf_current_image. }
      cbn [fst] in Hget.
      assert (Hcopy : well_formed
                match buffer with
                | Some b =>
                    let image_size' := mlt_image_format_size h fmt' width' height' in
                    let '(cur, wa) := alloc image_size' w5 in
                    let wb := set_self (set_current_image (Some cur) (self wa)) wa in
                    let wc := set_pool (memcpy cur b image_size' (pool wb)) wb in
                    set_producer_property "_cached_image" (PBuffer (Some cur) true) wc
                | None => w5
                end).
      { destruct buffer as [b|]; [|exact Hget]. cbv zeta.
        destruct (alloc _ w5) as [cur wa] eqn:Ea. repeat wf_step. }
      intros w2.
      destruct (mlt_frame_get_alpha _) as [b|].
      * match goal with |- context [alloc ?s ?x] =>
          destruct (alloc s x) as [ca wa] eqn:Ea end.
        intros [= <-]. repeat wf_step.
      * intros [= <-]. exact Hcopy.
  - specialize (Hconv w1 eq_refl). cbn [mbind result_bind].
    intros [= <-]. repeat wf_step.
Qed.

Lemma wf_renderKdenliveTitle (fmt : mlt_image_format)
  (width height position force_refresh : Z) (w w' : world) :
  well_formed w ->
  renderKdenliveTitle h fmt width height position force_refresh w = Some (Ok w') ->
  well_formed w'.
Proof.
  intros Hw. unfold renderKdenliveTitle.
  set (animated := mlt_properties_get_int h (producer_props w) "duration" >? 0).
  match goal with |- context [if bool_decide (current_image (self ?x) = None) || _
                              then _ else _] =>
    assert (Hw1 : well_formed x); [|generalize dependent x; intros w1 Hw1] end.
  { destruct (_ || _); [|exact Hw].
    destruct (negb animated); repeat wf_step. }
  destruct (_ || animated).
  - match goal with |- context [if ?c then (None, ?x) else (_, ?y)] =>
      assert (Hw3 : well_formed x /\ well_formed y);
      [|destruct (if c then (None, x) else (_, y)) as [renderer w3] eqn:E3;
        assert (Hw3' : well_formed w3)
          by (destruct c; injection E3 as <- <-; tauto);
        clear Hw3 E3] end.
    { split; repeat wf_step. }
    destruct renderer as [r|].
    + destruct (render_title _ _ _ _ _ _ _) as [[w4|f]|] eqn:E4; try discriminate.
      intros [= E]. eapply wf_convert_title; [|exact E].
      eapply wf_render_title; [|exact E4]. exact Hw3'.
    + destruct (negb _); [now intros [= <-]|].
      destruct (QmlRenderer.create _ _ _ _) as [r|f]; [|discriminate].
      destruct (render_title _ _ _ _ _ _ _) as [[w5|f]|] eqn:E5; try discriminate.
      intros [= E]. eapply wf_convert_title; [|exact E].
      eapply wf_render_title; [|exact E5]. repeat wf_step.
  - intros [= E]. eapply wf_convert_title; [|exact E]. exact Hw1.
Qed.

Lemma wf_read_qml (w : world) : well_formed w -> well_formed (read_qml h w).
Proof.
  intros Hw. unfold read_qml.
  destruct (_ ≫= _) as [str|]; [|exact Hw].
  destruct (load_document _ _); repeat wf_step; exact Hw.
Qed.

Lemma wf_render_attempt (fmt : mlt_image_format) (width height : Z) (w w' : world) :
  well_formed w -> render_attempt h fmt width height w = Some (Ok w') ->
  well_formed w'.
Proof.
  intros Hw. unfold render_attempt.
  destruct (negb _).
  - apply wf_renderKdenliveTitle. wf_step.
    destruct (_ >? 1); [now apply wf_read_qml|exact Hw].
  - now apply wf_renderKdenliveTitle.
Qed.

(** *** Steps that leave the scene data and a consumed flag alone *)
















End ProducerFacts.

Section GetImageFacts.
Import Producer.
Variable h : host.

Lemma qml_reads_read_qml (w : world) : qml_reads (read_qml h w) = S (qml_reads w).
Proof.
  unfold read_qml. destruct (_ ≫= _) as [str|]; [|reflexivity].
  now destruct (load_document _ _).
Qed.

(** Cloning touches neither the producer's properties nor its members. *)
Lemma clone_image_producer (w : world) :
  producer_props (clone_image h w).2 = producer_props w /\
  qml_reads (clone_image h w).2 = qml_reads w /\
  self (clone_image h w).2 = self w.
Proof.
  unfold clone_image. destruct (current_image (self w)) as [cur|]; [|auto].
  destruct (alloc _ w) as [copy w1] eqn:E1.
  apply alloc_eq in E1 as (_ & ->). cbv zeta.
  change (current_alpha (self (mlt_frame_set_image _ _ _)))
    with (current_alpha (self w)).
  destruct (current_alpha (self w)) as [alpha|]; [|auto].
  match goal with |- context [alloc ?s ?x] =>
    destruct (alloc s x) as [acopy wa] eqn:Ea end.
  apply alloc_eq in Ea as (_ & ->). auto.
Qed.

Lemma frame_owned_below (w : world) (name : string) (q : nat) (rel : bool) :
  well_formed w -> frame_props w !! name = Some (PBuffer (Some q) rel) ->
  (q < next_block (pool w))%nat.
Proof. intros (_ & _ & _ & _ & W4 & _). apply W4. Qed.

(** The clone of the image: a new block, filled from the cached image
    and owned by the frame; likewise for the alpha. *)
Lemma clone_image_copy (w : world) (cur : nat) :
  well_formed w -> current_image (self w) = Some cur ->
  let copy := next_block (pool w) in
  let n := mlt_image_format_size h (format (self w)) (current_width (self w))
             (current_height (self w) - 1) in
  let size := mlt_image_format_size h (format (self w)) (current_width (self w))
                (current_height (self w)) in
  let res := (clone_image h w).1 in
  let w' := (clone_image h w).2 in
  error res = 0 /\ buffer res = Some copy /\ out_format res = format (self w) /\
  copy <> cur /\ blocks (pool w) !! copy = None /\
  frame_props w' !! "image" = Some (PBuffer (Some copy) true) /\
  contents copy (pool w') =
    take (Z.to_nat n) (contents cur (pool w)) ++
    drop (Z.to_nat n) (replicate (Z.to_nat size) x00) /\
  forall alpha, current_alpha (self w) = Some alpha ->
    let m := current_width (self w) * current_height (self w) in
    frame_props w' !! "alpha" = Some (PBuffer (Some (S copy)) true) /\
    S copy <> alpha /\ S copy <> cur /\ blocks (pool w) !! S copy = None /\
    contents (S copy) (pool w') =
      take (Z.to_nat m) (contents alpha (pool w)) ++
      drop (Z.to_nat m) (replicate (Z.to_nat m) x00).
Proof.
  intros Hw Hcur. pose proof Hw as (W0 & W1 & W2 & W3 & W4 & W5).
  assert (Hcur_lt : (cur < next_block (pool w))%nat) by now apply W2.
  assert (Hfresh : forall p, (next_block (pool w) <= p)%nat ->
                             blocks (pool w) !! p = None).
  { intros p Hp. destruct (blocks (pool w) !! p) eqn:E; [|reflexivity].
    assert (p < next_block (pool w))%nat by (apply W0; eauto). lia. }
  cbv zeta. unfold clone_image. rewrite Hcur.
  set (n := mlt_image_format_size h _ _ (_ - 1)).
  set (size := mlt_image_format_size h _ _ _).
  destruct (alloc size w) as [copy w1] eqn:E1. cbv zeta.
  apply alloc_eq in E1 as (Ecopy & Ew1).
  destruct (wf_alloc size w Hw) as (E1 & En & Es & Ef & _ & _ & Hw1).
  rewrite <- Ecopy in E1. rewrite <- Ew1 in En, Es, Ef, Hw1.
  assert (Hpool1 : pool w1 = (mlt_pool_alloc size (pool w)).2)
    by (rewrite Ew1; reflexivity).
  clear Ecopy Ew1.
  assert (Hframe_lt : forall name p rel,
            frame_props w !! name = Some (PBuffer (Some p) rel) -> (p < copy)%nat).
  { intros name p rel Hp. rewrite E1. eapply frame_owned_below; eauto. }
  rewrite <- E1 in *.
  set (m1 := memcpy copy cur n (pool w1)).
  set (w3 := mlt_frame_set_image (Some copy) true (set_pool m1 w1)).
  assert (Hcopy_m1 : contents copy m1 =
            take (Z.to_nat n) (contents cur (pool w)) ++
            drop (Z.to_nat n) (replicate (Z.to_nat size) x00)).
  { subst m1. unfold memcpy, memcpy_bytes. rewrite Hpool1.
    rewrite contents_store_eq.
    - rewrite contents_alloc_ne by lia. rewrite E1, contents_alloc_eq. reflexivity.
    - cbn [mlt_pool_alloc snd blocks]. rewrite E1, lookup_insert_eq. eauto. }
  assert (Hother_m1 : forall q, q <> copy -> contents q m1 = contents q (pool w)).
  { intros q Hq. subst m1. unfold memcpy, memcpy_bytes. rewrite Hpool1.
    rewrite contents_store_ne by congruence.
    apply contents_alloc_ne. congruence. }
  assert (Hnext_m1 : next_block m1 = S copy) by (rewrite <- En; reflexivity).
  assert (Hpool3 : pool w3 = clear_property (frame_props w) "image" m1)
    by (subst w3; unfold mlt_frame_set_image, set_frame_property;
        cbn [pool set_frame_props set_pool frame_props]; now rewrite Ef).
  assert (Hframe3 : frame_props w3 = <["image" := PBuffer (Some copy) true]> (frame_props w))
    by (subst w3; unfold mlt_frame_set_image, set_frame_property;
        cbn [pool set_frame_props set_pool frame_props]; now rewrite Ef).
  assert (Hself3 : self w3 = self w) by (rewrite <- Es; reflexivity).
  assert (Hnext3 : next_block (pool w3) = S copy)
    by (rewrite Hpool3, next_block_clear; exact Hnext_m1).
  assert (Hcopy3 : contents copy (pool w3) = contents copy m1).
  { rewrite Hpool3. apply contents_clear_ne. intros p Hp.
    apply Hframe_lt in Hp. now apply Nat.lt_neq. }
  clearbody w3 m1. rewrite Hself3.
  destruct (current_alpha (self w)) as [alpha|] eqn:Halpha.
  - set (m := current_width (self w) * current_height (self w)).
    destruct (alloc m w3) as [acopy wa] eqn:Ea.
    assert (Hacopy : acopy = S copy) by (now injection Ea as <- _).
    assert (Hpoola : pool wa = (mlt_pool_alloc m (pool w3)).2)
      by (now injection Ea as _ <-).
    assert (Hframea : frame_props wa = frame_props w3) by (now injection Ea as _ <-).
    clear Ea. subst acopy.
    set (mb := memcpy (S copy) alpha m (pool wa)).
    assert (Halpha_lt : (alpha < copy)%nat) by now apply W3.
    assert (Halpha3 : contents alpha (pool w3) = contents alpha (pool w)).
    { rewrite Hpool3, contents_clear_ne.
      - apply Hother_m1. lia.
      - intros p Hp ->. now apply (W5 alpha). }
    assert (Hacopy_mb : contents (S copy) mb =
              take (Z.to_nat m) (contents alpha (pool w)) ++
              drop (Z.to_nat m) (replicate (Z.to_nat m) x00)).
    { subst mb. unfold memcpy, memcpy_bytes. rewrite Hpoola.
      rewrite contents_store_eq.
      - rewrite contents_alloc_ne by lia. rewrite Halpha3.
        rewrite <- Hnext3, contents_alloc_eq. reflexivity.
      - cbn [mlt_pool_alloc snd blocks]. rewrite Hnext3, lookup_insert_eq. eauto. }
    assert (Hother_mb : forall q, q <> S copy -> contents q mb = contents q (pool w3)).
    { intros q Hq. subst mb. unfold memcpy, memcpy_bytes. rewrite Hpoola.
      rewrite contents_store_ne by congruence.
      apply contents_alloc_ne. congruence. }
    clearbody mb.
    unfold mlt_frame_set_alpha, set_frame_property.
    cbn [fst snd error buffer out_format pool frame_props set_frame_props set_pool].
    rewrite Hframea.
    assert (Hold_alpha : forall p,
              frame_props w3 !! "alpha" = Some (PBuffer (Some p) true) ->
              (p < copy)%nat).
    { intros p. rewrite Hframe3, lookup_insert_ne by discriminate.
      apply Hframe_lt. }
    repeat split; trivial; try lia.
    + now apply Hfresh.
    + rewrite lookup_insert_ne by discriminate. rewrite Hframe3.
      now rewrite lookup_insert_eq.
    + rewrite contents_clear_ne.
      * rewrite Hother_mb by lia. now rewrite Hcopy3, Hcopy_m1.
      * intros p Hp. apply Hold_alpha in Hp. lia.
    + now rewrite lookup_insert_eq.
    + injection H as <-. lia.
    + apply Hfresh. lia.
    + injection H as <-. rewrite contents_clear_ne, Hacopy_mb; trivial.
      intros p Hp. apply Hold_alpha in Hp. lia.
  - cbn [fst snd error buffer out_format].
    repeat split; trivial; try lia; try discriminate.
    + now apply Hfresh.
    + rewrite Hframe3. now rewrite lookup_insert_eq.
    + now rewrite Hcopy3, Hcopy_m1.
Qed.

End GetImageFacts.

Lemma example_world_well_formed : Producer.well_formed Producer.example_world.
Proof.
  repeat split; cbn.
  - intros p [x Hx]. now rewrite lookup_empty in Hx.
  - intros q [=].
  - intros q [=].
  - intros q [=].
  - intros name q rel. destruct (decide (name = "original_position"%string)) as [->|Hne].
    + rewrite lookup_insert_eq. discriminate.
    + rewrite lookup_insert_ne by congruence. now rewrite lookup_empty.
  - intros q _ [=].
Qed.

(** C9: once the render attempt has returned, producer_get_image returns
    1 if the producer then holds no current image and 0 otherwise; in the
    latter case the buffer it hands out is a newly allocated block owned by
    the frame, other than the cached image, holding the bytes of the
    cached image (as many as mlt_image_format_size gives for one line
    less); and likewise for the alpha when the producer holds one. *)
Theorem producer_get_image_clones (h : Producer.host)
  (fmt : Producer.mlt_image_format) (width height : Z) (w w1 : Producer.world) :
  Producer.well_formed w ->
  Producer.render_attempt h fmt width height w = Some (Ok w1) ->
  exists res w2,
    Producer.producer_get_image h fmt width height w = Some (Ok (res, w2)) /\
    (Producer.error res = 1 <-> Producer.current_image (Producer.self w1) = None) /\
    (Producer.error res = 0 <-> Producer.current_image (Producer.self w1) <> None) /\
    Producer.self w2 = Producer.self w1 /\
    forall cur, Producer.current_image (Producer.self w1) = Some cur ->
      let s := Producer.self w1 in
      let n := Producer.mlt_image_format_size h (Producer.format s)
                 (Producer.current_width s) (Producer.current_height s - 1) in
      let size := Producer.mlt_image_format_size h (Producer.format s)
                    (Producer.current_width s) (Producer.current_height s) in
      exists copy,
        Producer.buffer res = Some copy /\ copy <> cur /\
        Producer.blocks (Producer.pool w1) !! copy = None /\
        Producer.frame_props w2 !! "image" = Some (Producer.PBuffer (Some copy) true) /\
        Producer.contents copy (Producer.pool w2) =
          take (Z.to_nat n) (Producer.contents cur (Producer.pool w1)) ++
          drop (Z.to_nat n) (replicate (Z.to_nat size) x00) /\
        forall alpha, Producer.current_alpha s = Some alpha ->
          let m := Producer.current_width s * Producer.current_height s in
          exists alpha_copy,
            Producer.frame_props w2 !! "alpha"
              = Some (Producer.PBuffer (Some alpha_copy) true) /\
            alpha_copy <> alpha /\ alpha_copy <> cur /\
            Producer.blocks (Producer.pool w1) !! alpha_copy = None /\
            Producer.contents alpha_copy (Producer.pool w2) =
              take (Z.to_nat m) (Producer.contents alpha (Producer.pool w1)) ++
              drop (Z.to_nat m) (replicate (Z.to_nat m) x00).
Proof.
  intros Hw Hattempt.
  pose proof (wf_render_attempt h fmt width height w w1 Hw Hattempt) as Hw1.
  exists (Producer.clone_image h w1).1, (Producer.clone_image h w1).2.
  split. { unfold Producer.producer_get_image. rewrite Hattempt.
           now destruct (Producer.clone_image h w1). }
  destruct (Producer.current_image (Producer.self w1)) as [cur|] eqn:Hcur.
  - destruct (clone_image_copy h w1 cur Hw1 Hcur)
      as (Herr & Hbuf & _ & Hne & Hfresh & Hframe & Hcontents & Halpha).
    rewrite Herr. repeat split; try congruence; try lia.
    + apply (clone_image_producer h w1).
    + intros c [= <-]. cbv zeta. eexists. repeat split; eauto.
  - unfold Producer.clone_image. rewrite Hcur. cbn.
    repeat split; try congruence; try lia; discriminate.
Qed.

Lemma producer_get_image_clones_witness :
  exists w1 res w2,
    Producer.render_attempt Producer.example_host Producer.mlt_image_rgb24a 4 2
      Producer.example_world = Some (Ok w1) /\
    Producer.producer_get_image Producer.example_host Producer.mlt_image_rgb24a 4 2
      Producer.example_world = Some (Ok (res, w2)) /\
    (Producer.error res = 1 <-> Producer.current_image (Producer.self w1) = None) /\
    (Producer.error res = 0 <-> Producer.current_image (Producer.self w1) <> None) /\
    Producer.self w2 = Producer.self w1.
Proof.
  destruct (Producer.render_attempt Producer.example_host Producer.mlt_image_rgb24a 4 2
              Producer.example_world) as [[w1|f]|] eqn:E.
  - destruct (producer_get_image_clones _ _ _ _ _ w1 example_world_well_formed E)
      as (res & w2 & Eget & Herr1 & Herr0 & Hself & _).
    exists w1, res, w2. auto.
  - vm_compute in E. discriminate.
  - vm_compute in E. discriminate.
Defined.

(** On the example: the producer caches its image in block 1 and the frame
    gets block 2, whose first 4*2*4 bytes are those of the cached image. *)
Example producer_get_image_example :
  match Producer.producer_get_image Producer.example_host Producer.mlt_image_rgb24a 4 2
          Producer.example_world with
  | Some (Ok (res, w')) =>
      Producer.error res = 0 /\ Producer.buffer res = Some 2%nat /\
      Producer.current_image (Producer.self w') = Some 1%nat /\
      take 32 (Producer.contents 2 (Producer.pool w'))
        = take 32 (Producer.contents 1 (Producer.pool w')) /\
      Producer.qml_reads w' = 1%nat
  | _ => False
  end.
Proof. vm_compute. repeat split. Qed.


(** ** Further properties of the scene walk *)

(** Induction over a scene tree with the hypothesis for every child. *)
Lemma QObject_ind_children (P : Scene.QObject -> Prop) :
  (forall name props kids, Forall P kids -> P (Scene.mkQObject name props kids)) ->
  forall o, P o.
Proof.
  intros Hnode. fix IH 1. intros [name props kids]. apply Hnode.
  induction kids as [|c kids IHkids]; constructor; [apply IH|exact IHkids].
Qed.

Section WalkFacts.
Import Scene.

Lemma fold_left_max_ge (ds : list Z) : forall d, d <= fold_left Z.max ds d.
Proof.
  induction ds as [|x ds IH]; intros d; cbn; [lia|].
  specialize (IH (Z.max d x)). lia.
Qed.

Lemma fold_left_max_In (ds : list Z) : forall d,
  In (fold_left Z.max ds d) (d :: ds).
Proof.
  induction ds as [|x ds IH]; intros d; cbn; [auto|].
  destruct (IH (Z.max d x)) as [E|Hin].
  - rewrite <- E. destruct (Z.max_spec d x) as [[_ ->]|[_ ->]]; auto.
  - auto.
Qed.

Lemma fold_left_max_upper (ds : list Z) : forall d x,
  In x (d :: ds) -> x <= fold_left Z.max ds d.
Proof.
  induction ds as [|y ds IH]; intros d x; cbn.
  - intros [->|[]]. lia.
  - intros [->|[->|Hin]].
    + pose proof (fold_left_max_ge ds (Z.max x y)). lia.
    + pose proof (fold_left_max_ge ds (Z.max d x)). lia.
    + apply IH. now right.
Qed.

Lemma fold_left_add_acc (ds : list Z) : forall a,
  fold_left Z.add ds a = a + fold_left Z.add ds 0.
Proof.
  induction ds as [|x ds IH]; intros a; cbn [fold_left]; [lia|].
  rewrite (IH (a + x)), (IH (0 + x)). lia.
Qed.

Lemma fold_left_add_nonneg (ds : list Z) :
  Forall (fun d => 0 <= d) ds -> 0 <= fold_left Z.add ds 0.
Proof.
  induction 1 as [|x ds Hx _ IH]; cbn [fold_left]; [lia|].
  rewrite fold_left_add_acc. lia.
Qed.

(** The three loops of getMaxDuration, named. *)
Lemma unfold_getMaxDuration_obj (name : string) props kids :
  getMaxDuration_obj (mkQObject name props kids) =
    if contains name "Sequential" then
      (fix sequential (l : list QObject) (dur_seq : Z) : result Z :=
         match l with
         | [] => Ok dur_seq
         | child :: l' =>
             childDuration ← getMaxDuration_obj child;
             dur_seq' ← int_of (dur_seq + childDuration);
             sequential l' dur_seq'
         end) kids 0
    else if contains name "Parallel" then
      durationList ←
        (fix parallel (l : list QObject) : result (list Z) :=
           match l with
           | [] => Ok []
           | child :: l' =>
               d ← getMaxDuration_obj child;
               ds ← parallel l';
               Ok (d :: ds)
           end) kids;
      max_element durationList
    else if is_leaf_animation name then
      Ok (getIntProp (mkQObject name props kids) "duration")
    else
      (fix other (l : list QObject) : result Z :=
         match l with
         | [] => Fault MissingReturn
         | child :: l' =>
             duration ← getMaxDuration_obj child;
             if duration >? 0 then Ok duration else other l'
         end) kids.
Proof. reflexivity. Qed.

Lemma getMaxDuration_obj_nonneg (o : QObject) :
  forall d, getMaxDuration_obj o = Ok d -> 0 <= d.
Proof.
  induction o as [name props kids IH] using QObject_ind_children.
  intros d. rewrite unfold_getMaxDuration_obj.
  destruct (contains name "Sequential").
  { assert (Hacc : 0 <= 0) by lia. revert Hacc. generalize 0 at 2 3.
    induction IH as [|c kids Hc _ IHkids]; intros acc Hacc; [now intros [= <-]|].
    destruct (getMaxDuration_obj c) as [dc|f] eqn:Ec; cbn; [|discriminate].
    specialize (Hc dc eq_refl).
    unfold int_of. destruct (in_int (acc + dc)); cbn; [|discriminate].
    apply IHkids. lia. }
  destruct (contains name "Parallel").
  { match goal with |- (?m ≫= _) = _ -> _ =>
      assert (Hds : forall ds, m = Ok ds -> Forall (fun x => 0 <= x) ds) end.
    { induction IH as [|c kids Hc _ IHkids]; [intros ds [= <-]; constructor|].
      intros ds. destruct (getMaxDuration_obj c) as [dc|f] eqn:Ec; cbn; [|discriminate].
      match goal with |- (?m ≫= _) = _ -> _ => destruct m as [ds'|f] end;
        cbn; [|discriminate].
      intros [= <-]. constructor; [now apply Hc|now apply IHkids]. }
    match goal with |- (?m ≫= _) = _ -> _ => destruct m as [ds|f] end;
      cbn; [|discriminate].
    specialize (Hds ds eq_refl). destruct ds as [|x ds]; cbn; [discriminate|].
    intros [= <-]. apply Forall_cons_1 in Hds as [Hx _].
    pose proof (fold_left_max_ge ds x). lia. }
  destruct (is_leaf_animation name).
  { intros [= <-]. apply getIntProp_loop_nonneg. }
  induction IH as [|c kids Hc _ IHkids]; [discriminate|].
  destruct (getMaxDuration_obj c) as [dc|f] eqn:Ec; cbn; [|discriminate].
  destruct (Z.gtb_spec dc 0); [|exact IHkids].
  intros [= <-]. lia.
Qed.

End WalkFacts.



(** X2: a sequential group whose children all have a duration lasts the
    sum of them, provided the sum fits an int; the properties of the group
    itself are not looked at. *)
Theorem getMaxDuration_sequential_sum (name : string) (props : list (string * Z))
  (kids : list Scene.QObject) (ds : list Z) :
  Scene.contains name "Sequential" = true ->
  Forall2 (fun c d => Scene.getMaxDuration (Some c) = Ok d) kids ds ->
  fold_left Z.add ds 0 <= INT_MAX ->
  Scene.getMaxDuration (Some (Scene.mkQObject name props kids))
    = Ok (fold_left Z.add ds 0).
Proof.
  intros Hname Hkids Hsum. cbn [Scene.getMaxDuration].
  apply getMaxDuration_sequential; [exact Hname|exact Hkids|].
  assert (Hpos : Forall (fun d => 0 <= d) ds).
  { clear Hsum. induction Hkids as [|c d kids ds Hc _ IH]; constructor; [|exact IH].
    now apply (getMaxDuration_obj_nonneg c). }
  intros k. apply in_int_spec.
  assert (Hk : 0 <= fold_left Z.add (take k ds) 0 <= fold_left Z.add ds 0).
  { rewrite <- (take_drop k ds) at 3. rewrite fold_left_app.
    rewrite (fold_left_add_acc (drop k ds)).
    pose proof (fold_left_add_nonneg (take k ds) ltac:(now apply Forall_take)).
    pose proof (fold_left_add_nonneg (drop k ds) ltac:(now apply Forall_drop)). lia. }
  change INT_MIN with (-2147483648). lia.
Qed.

Lemma getMaxDuration_sequential_sum_witness :
  let a := Scene.mkQObject "QQuickNumberAnimation" [("duration", 1600)] [] in
  let b := Scene.mkQObject "QQuickPauseAnimation" [("duration", 600)] [] in
  let c := Scene.mkQObject "QQuickRotationAnimation" [("duration", 3999)] [] in
  Scene.getMaxDuration
    (Some (Scene.mkQObject "QQuickSequentialAnimation" [("duration", 9000)] [a; b; c]))
    = Ok (fold_left Z.add [1; 0; 3] 0).
Proof.
  intros a b c.
  apply (getMaxDuration_sequential_sum "QQuickSequentialAnimation" _ [a; b; c] [1; 0; 3]).
  - reflexivity.
  - repeat constructor.
  - vm_compute. discriminate.
Defined.

(** X3: a parallel group with at least one child, all of whose children
    have a duration, lasts as long as its longest child. *)
Theorem getMaxDuration_parallel_longest (name : string) (props : list (string * Z))
  (kids : list Scene.QObject) (ds : list Z) :
  Scene.contains name "Sequential" = false ->
  Scene.contains name "Parallel" = true ->
  kids <> [] ->
  Forall2 (fun c d => Scene.getMaxDuration (Some c) = Ok d) kids ds ->
  exists m,
    Scene.getMaxDuration (Some (Scene.mkQObject name props kids)) = Ok m /\
    In m ds /\ Forall (fun d => d <= m) ds.
Proof.
  intros Hseq Hpar Hne Hkids.
  destruct Hkids as [|c d kids ds Hc Hkids]; [congruence|].
  exists (fold_left Z.max ds d). split; [|split].
  - cbn [Scene.getMaxDuration].
    apply getMaxDuration_parallel; [exact Hseq|exact Hpar|].
    now constructor.
  - apply fold_left_max_In.
  - apply Forall_forall. intros x Hx. apply fold_left_max_upper.
    now apply list_elem_of_In.
Qed.

Lemma getMaxDuration_parallel_longest_witness :
  let a := Scene.mkQObject "QQuickNumberAnimation" [("duration", 1600)] [] in
  let b := Scene.mkQObject "QQuickPauseAnimation" [("duration", 4200)] [] in
  let c := Scene.mkQObject "QQuickRotationAnimation" [("duration", 3999)] [] in
  exists m,
    Scene.getMaxDuration
      (Some (Scene.mkQObject "QQuickParallelAnimation" [] [a; b; c])) = Ok m /\
    In m [1; 4; 3] /\ Forall (fun d => d <= m) [1; 4; 3].
Proof.
  intros a b c.
  apply (getMaxDuration_parallel_longest "QQuickParallelAnimation" [] [a; b; c] [1; 4; 3]).
  - reflexivity.
  - reflexivity.
  - discriminate.
  - repeat constructor.
Defined.

(** X4: a node that is neither a group nor a leaf animation returns the
    duration of its first child with a positive one, and only that: the
    children before it have none, the children after it are not visited. *)
Theorem getMaxDuration_first_positive_child (name : string)
  (props : list (string * Z)) (kids : list Scene.QObject) (d : Z) :
  Scene.contains name "Sequential" = false ->
  Scene.contains name "Parallel" = false ->
  Scene.is_leaf_animation name = false ->
  (Scene.getMaxDuration (Some (Scene.mkQObject name props kids)) = Ok d <->
   exists before child after,
     kids = before ++ child :: after /\
     Forall (fun c => exists d', Scene.getMaxDuration (Some c) = Ok d' /\ d' <= 0) before /\
     Scene.getMaxDuration (Some child) = Ok d /\ 0 < d).
Proof.
  intros Hseq Hpar Hleaf. cbn [Scene.getMaxDuration]. split.
  - rewrite unfold_getMaxDuration_obj, Hseq, Hpar, Hleaf.
    induction kids as [|c kids IH]; [discriminate|].
    destruct (Scene.getMaxDuration_obj c) as [dc|f] eqn:Ec; cbn; [|discriminate].
    destruct (Z.gtb_spec dc 0) as [Hpos|Hneg].
    + intros [= <-]. exists [], c, kids. repeat split; auto; lia.
    + intros H. destruct (IH H) as (before & child & after & -> & Hb & Hc & Hd).
      exists (c :: before), child, after. repeat split; auto.
      constructor; [|exact Hb]. exists dc. split; [exact Ec|lia].
  - intros (before & child & after & -> & Hb & Hc & Hd).
    now apply getMaxDuration_other.
Qed.

Lemma getMaxDuration_first_positive_child_witness :
  let still := Scene.mkQObject "QQuickPauseAnimation" [("duration", 400)] [] in
  let move := Scene.mkQObject "QQuickNumberAnimation" [("duration", 2000)] [] in
  let empty := Scene.mkQObject "QQuickParallelAnimation" [] [] in
  Scene.getMaxDuration (Some (Scene.mkQObject "QQuickRectangle" [] [still; move; empty]))
    = Ok 2.
Proof.
  intros still move empty.
  apply (getMaxDuration_first_positive_child "QQuickRectangle" [] [still; move; empty] 2);
    try reflexivity.
  exists [still], move, [empty]. repeat split; try reflexivity; try lia.
  repeat constructor. exists 0. split; [reflexivity|lia].
Defined.
(** ** The workers as event handlers *)

Section WorkerEvents.
Import QmlCoreRenderer.


Lemma init_ready (w : t) : ready w -> ready (init w).
Proof. intros (H1 & H2 & _). repeat split; assumption. Qed.

(** Whether the target held, if any, has the size asked for. *)
Lemma render_ready (debug : bool) (scene : nat) (w : t) :
  ready w -> context_ok w = true ->
  exists w' fbo,
    render debug scene w = Ok w' /\ ready w' /\ context_ok w' = true /\
    m_size w' = m_size w /\ m_dpr w' = m_dpr w /\ m_format w' = m_format w /\
    m_fbo w' = Some fbo /\ fbo_size fbo = scaled (m_size w) (m_dpr w) /\
    m_image w' = Some (mkQImage (scaled (m_size w) (m_dpr w)) (m_format w) scene) /\
    fbo_created w' =
      (if match m_fbo w with
          | Some old => QSize_eqb (fbo_size old) (scaled (m_size w) (m_dpr w))
          | None => false
          end
       then fbo_created w else S (fbo_created w)).
Proof.
  intros Hready Hctx.
  destruct (render_at_requested_size debug scene w Hready Hctx)
    as (fbo & Hsize & _ & E).
  eexists _, fbo. split; [exact E|].
  destruct Hready as (H1 & H2 & H3). cbn.
  repeat split; trivial.
  destruct (m_fbo w) as [old|]; [|reflexivity].
  now destruct (QSize_eqb _ _).
Qed.

End WorkerEvents.


(** X6: as long as no STOP is handled and the requested size stays as it
    is, the worker of qml_wrapper.cpp allocates a target at most once,
    however many RENDER events it handles: at the first RENDER, and only
    if the target it holds does not have the requested size. After a
    RENDER the target and the image have the requested size times the
    device-pixel ratio. *)
Theorem QmlCoreRenderer_allocates_once (debug : bool)
  (events : list (QEventType * nat)) (w : QmlCoreRenderer.t) :
  QmlCoreRenderer.ready w -> QmlCoreRenderer.context_ok w = true ->
  Forall (fun e => e.1 <> STOP) events ->
  let wanted := scaled (QmlCoreRenderer.m_size w) (QmlCoreRenderer.m_dpr w) in
  let fits :=
    match QmlCoreRenderer.m_fbo w with
    | Some old => QSize_eqb (fbo_size old) wanted
    | None => false
    end in
  let rendered :=
    existsb (fun e => match e.1 with RENDER => true | _ => false end) events in
  exists w',
    QmlCoreRenderer.deliver debug events w = Ok w' /\
    QmlCoreRenderer.fbo_created w' =
      (if rendered && negb fits
       then S (QmlCoreRenderer.fbo_created w) else QmlCoreRenderer.fbo_created w) /\
    (rendered = true ->
     fbo_size <$> QmlCoreRenderer.m_fbo w' = Some wanted /\
     img_size <$> QmlCoreRenderer.m_image w' = Some wanted).
Proof.
  intros Hready Hctx Hstop. cbv zeta. revert w Hready Hctx.
  induction Hstop as [|[e scene] events He Htail IH]; intros w Hready Hctx.
  - exists w. cbn. repeat split; trivial; discriminate.
  - cbn [QmlCoreRenderer.deliver existsb fst].
    destruct e as [| | | |handled];
      cbn [QmlCoreRenderer.event mbind result_bind orb]; try (now cbn in He).
    + destruct (IH (QmlCoreRenderer.init w)) as (w' & E & Hn & Hs);
        [now apply init_ready|exact Hctx|]. eauto.
    + destruct (render_ready debug scene w Hready Hctx)
        as (w1 & fbo & E1 & Hready1 & Hctx1 & Hsz & Hdpr & Hfmt & Hfbo & Hfsz & Himg & Hn1).
      rewrite E1. cbn [mbind result_bind].
      destruct (IH w1 Hready1 Hctx1) as (w' & E & Hn & Hs).
      exists w'. split; [exact E|].
      rewrite Hsz, Hdpr in Hn, Hs. rewrite Hfbo, Hfsz, QSize_eqb_refl in Hn.
      cbn [negb] in Hn.
      rewrite andb_false_r in Hn. rewrite Hn, Hn1. cbn [andb].
      split.
      * destruct (match QmlCoreRenderer.m_fbo w with Some _ => _ | None => false end);
          reflexivity.
      * intros _.
        destruct (existsb _ events) eqn:Ex; [now apply Hs|].
        assert (Hsame : forall w0, QmlCoreRenderer.deliver debug events w0 = Ok w' ->
                  QmlCoreRenderer.m_fbo w' = QmlCoreRenderer.m_fbo w0 /\
                  QmlCoreRenderer.m_image w' = QmlCoreRenderer.m_image w0).
        { clear -Ex Htail. revert Ex.
          induction Htail as [|[e s] events He' _ IHe]; cbn; [now intros _ w0 [= <-]|].
          destruct e; cbn; try discriminate; try (now cbn in He'); intros Ex w0 Hd.
          destruct (IHe Ex _ Hd) as [-> ->]. split; reflexivity. }
        destruct (Hsame w1 E) as [-> ->]. rewrite Hfbo, Himg. cbn.
        now rewrite Hfsz.
    + destruct (IH w Hready Hctx) as (w' & E & Hn & Hs). eauto.
    + destruct (IH w Hready Hctx) as (w' & E & Hn & Hs). eauto.
Qed.

Lemma QmlCoreRenderer_allocates_once_witness :
  let w := QmlCoreRenderer.setFormat Format_RGBA8888
             (QmlCoreRenderer.setSize (mkQSize 640 480)
                (QmlCoreRenderer.setFPS 25
                   (QmlCoreRenderer.setDPR 1%Q (QmlCoreRenderer.create true)))) in
  let events := [(RENDER, 0%nat); (RESIZE, 0%nat); (RENDER, 1%nat);
                 (OtherEvent false, 1%nat); (RENDER, 2%nat)] in
  exists w',
    QmlCoreRenderer.deliver true events (QmlCoreRenderer.init w) = Ok w' /\
    QmlCoreRenderer.fbo_created w' = 1%nat /\
    (true = true ->
     fbo_size <$> QmlCoreRenderer.m_fbo w' = Some (scaled (mkQSize 640 480) 1%Q) /\
     img_size <$> QmlCoreRenderer.m_image w' = Some (scaled (mkQSize 640 480) 1%Q)).
Proof.
  intros w events.
  apply (QmlCoreRenderer_allocates_once true events (QmlCoreRenderer.init w)).
  - repeat split.
  - reflexivity.
  - repeat constructor; discriminate.
Defined.
(** ** The worker of corerenderer.cpp as an event handler *)

Section CoreWorkerFacts.
Import CoreRenderer.

(** No event makes the worker of corerenderer.cpp let go of a target it
    holds, or allocate another. *)
Lemma event_keeps_target (debug : bool) (scene : nat) (e : QEventType)
  (w w' : t) (handled : bool) (fbo : Fbo) :
  m_fbo w = Some fbo -> event debug scene e w = Ok (w', handled) ->
  m_fbo w' = Some fbo /\ fbo_created w' = fbo_created w /\
  (image w' = image w \/ img_size <$> image w' = Some (fbo_size fbo)).
Proof.
  intros Hfbo. destruct e as [| | | |h]; cbn [event].
  - unfold init. destruct (Q_ASSERT _ _); cbn; [|discriminate].
    destruct (int_div _ _); cbn; [|discriminate].
    intros [= <- _]. cbn. auto.
  - unfold render. destruct (context_ok w); cbn [negb].
    + unfold ensureFbo.
      destruct (Q_ASSERT debug (negb (isEmpty _))); cbn; [|discriminate].
      destruct (Q_ASSERT debug (negb (Qeq_bool _ _))); cbn; [|discriminate].
      rewrite Hfbo. cbn. rewrite Hfbo.
      destruct (deref _) as [d|f]; cbn; [|discriminate].
      destruct (Driver.advance d); cbn; [|discriminate].
      intros [= <- _]. cbn. auto.
    + cbn. intros [= <- _]. auto.
  - intros [= <- _]. auto.
  - intros [= <- _]. cbn. auto.
  - intros [= <- _]. auto.
Qed.

(** One RENDER on an initialised worker whose clock has room: the image
    is read back, the waiting thread woken and the clock advanced. *)
Lemma render_advances (debug : bool) (scene : nat) (w : t)
  (d : Driver.QmlAnimationDriver) :
  context_ok w = true -> scene_graph_initialized w = true ->
  isEmpty (m_size w) = false -> Qeq_bool (m_dpr w) 0%Q = false ->
  m_animationDriver w = Live d ->
  in_qint64 (Driver.m_elapsed d + Driver.m_step d) = true ->
  exists w',
    render debug scene w = Ok w' /\
    context_ok w' = true /\ scene_graph_initialized w' = true /\
    m_size w' = m_size w /\ m_dpr w' = m_dpr w /\
    m_animationDriver w' =
      Live (Driver.mkDriver (Driver.m_step d) (Driver.m_elapsed d + Driver.m_step d)
                            (S (Driver.animation_ticks d))) /\
    wakes w' = S (wakes w) /\
    (exists img, image w' = Some img /\ img_scene img = scene).
Proof.
  intros Hctx Hinit Hsize Hdpr Hd Hrange. unfold render, ensureFbo.
  rewrite Hctx, Hsize, Hdpr. cbn [negb]. rewrite !Q_ASSERT_holds.
  cbn [mbind result_bind].
  destruct (m_fbo w) as [old|] eqn:Hfbo.
  - cbn [mbind result_bind]. rewrite Hfbo, Hd. cbn [deref mbind result_bind].
    rewrite (advance_ok d Hrange). cbn [mbind result_bind].
    eexists. split; [reflexivity|]. cbn. repeat split; eauto.
  - rewrite Hinit, Q_ASSERT_holds. cbn [mbind result_bind m_fbo m_animationDriver].
    rewrite Hd. cbn [deref mbind result_bind].
    rewrite (advance_ok d Hrange). cbn [mbind result_bind].
    eexists. split; [reflexivity|]. cbn. repeat split; eauto.
Qed.

Lemma renders_advance (debug : bool) (scenes : list nat) :
  forall (w : t) (s e : Z) (k : nat),
    context_ok w = true -> scene_graph_initialized w = true ->
    isEmpty (m_size w) = false -> Qeq_bool (m_dpr w) 0%Q = false ->
    m_animationDriver w = Live (Driver.mkDriver s e k) ->
    (forall j : nat, (j <= length scenes)%nat ->
                     in_qint64 (e + Z.of_nat j * s) = true) ->
    exists w',
      deliver debug (map (fun scene => (RENDER, scene)) scenes) w = Ok w' /\
      m_animationDriver w' =
        Live (Driver.mkDriver s (e + Z.of_nat (length scenes) * s)
                              (length scenes + k)) /\
      wakes w' = (wakes w + length scenes)%nat.
Proof.
  induction scenes as [|scene scenes IH]; intros w s e k Hctx Hinit Hsize Hdpr Hd Hrange.
  - exists w. cbn [map deliver length]. rewrite Hd.
    split; [reflexivity|]. split; [do 2 f_equal; lia|lia].
  - cbn [map deliver event].
    destruct (render_advances debug scene w _ Hctx Hinit Hsize Hdpr Hd)
      as (w1 & E1 & Hctx1 & Hinit1 & Hsz1 & Hdpr1 & Hd1 & Hw1 & _).
    { cbn. specialize (Hrange 1%nat ltac:(cbn; lia)).
      now replace (e + s) with (e + Z.of_nat 1 * s) by lia. }
    rewrite E1. cbn [mbind result_bind].
    cbn [Driver.m_step Driver.m_elapsed Driver.animation_ticks] in Hd1.
    destruct (IH w1 s (e + s) (S k)) as (w' & E & Hd' & Hw'); trivial;
      try congruence.
    { intros j Hj. specialize (Hrange (S j) ltac:(cbn; lia)).
      now replace (e + s + Z.of_nat j * s) with (e + Z.of_nat (S j) * s) by lia. }
    exists w'. split; [exact E|]. rewrite Hd', Hw', Hw1. cbn [length].
    split; [do 2 f_equal; lia|lia].
Qed.

End CoreWorkerFacts.

(** X7: the worker of corerenderer.cpp steps its own clock: after INIT
    with a positive frame rate and n RENDER events the clock has been
    advanced n times and reads n times 1000 / m_fps (so it stands still if
    m_fps exceeds 1000), and the waiting thread has been woken n times. *)
Theorem CoreRenderer_clock_follows_renders (debug : bool) (scenes : list nat)
  (w : CoreRenderer.t) :
  CoreRenderer.context_ok w = true ->
  0 < CoreRenderer.m_fps w <= INT_MAX ->
  isEmpty (CoreRenderer.m_size w) = false ->
  Qeq_bool (CoreRenderer.m_dpr w) 0%Q = false ->
  let msPerStep := Z.quot 1000 (CoreRenderer.m_fps w) in
  let n := length scenes in
  0 <= msPerStep <= 1000 /\
  (1000 < CoreRenderer.m_fps w -> msPerStep = 0) /\
  (Z.of_nat n * msPerStep <= INT64_MAX ->
   exists w',
     CoreRenderer.deliver debug
       ((INIT, 0%nat) :: map (fun scene => (RENDER, scene)) scenes) w = Ok w' /\
     CoreRenderer.m_animationDriver w' =
       Live (Driver.mkDriver msPerStep (Z.of_nat n * msPerStep) n) /\
     CoreRenderer.wakes w' = (CoreRenderer.wakes w + n)%nat).
Proof.
  intros Hctx Hfps Hsize Hdpr. cbv zeta.
  set (fps := CoreRenderer.m_fps w) in *.
  assert (Hstep : 0 <= Z.quot 1000 fps <= 1000).
  { rewrite Z.quot_div_nonneg by lia. split.
    - apply Z.div_pos; lia.
    - apply Z.div_le_upper_bound; lia. }
  split; [exact Hstep|]. split.
  { intros Hbig. apply Z.quot_small. lia. }
  intros Hrange.
  cbn [CoreRenderer.deliver CoreRenderer.event].
  unfold CoreRenderer.init. fold fps.
  replace (fps >? 0) with true by (symmetry; apply Z.gtb_lt; lia).
  rewrite Q_ASSERT_holds. cbn [mbind result_bind].
  rewrite int_div_ok; [|lia|].
  2:{ apply in_int_spec. change INT_MIN with (-2147483648).
      change INT_MAX with 2147483647. lia. }
  cbn [mbind result_bind].
  match goal with |- context [CoreRenderer.deliver debug _ ?w1] =>
    destruct (renders_advance debug scenes w1 (Z.quot 1000 fps) 0 0)
      as (w' & E & Hd & Hw); trivial end.
  { intros j Hj. apply in_qint64_spec.
    change INT64_MIN with (-9223372036854775808). split; [nia|].
    assert (Z.of_nat j * Z.quot 1000 fps <= Z.of_nat (length scenes) * Z.quot 1000 fps)
      by nia. lia. }
  exists w'. split; [exact E|]. rewrite Hd, Hw. cbn [CoreRenderer.wakes].
  split; [|reflexivity]. do 2 f_equal; lia.
Qed.

Lemma CoreRenderer_clock_follows_renders_witness :
  let w := CoreRenderer.mk true false None Null Format_RGBA8888 (mkQSize 640 480)
             1%Q 30 None 0 0 in
  0 <= Z.quot 1000 30 <= 1000 /\
  (1000 < 30 -> Z.quot 1000 30 = 0) /\
  (Z.of_nat 3 * Z.quot 1000 30 <= INT64_MAX ->
   exists w',
     CoreRenderer.deliver true
       ((INIT, 0%nat) :: map (fun scene => (RENDER, scene)) [0; 1; 2]%nat) w = Ok w' /\
     CoreRenderer.m_animationDriver w' =
       Live (Driver.mkDriver (Z.quot 1000 30) (Z.of_nat 3 * Z.quot 1000 30) 3) /\
     CoreRenderer.wakes w' = (0 + 3)%nat).
Proof.
  intros w.
  apply (CoreRenderer_clock_follows_renders true [0; 1; 2]%nat w).
  - reflexivity.
  - cbn. change INT_MAX with 2147483647. lia.
  - reflexivity.
  - reflexivity.
Defined.

(** X8: the worker of corerenderer.cpp never lets go of a target: if it
    holds one, then after any sequence of events that it gets through it
    holds the same one and has allocated no other, and an image it has
    rendered meanwhile has the size of that target, whatever size was
    asked for. *)
Theorem CoreRenderer_target_is_for_life (debug : bool)
  (events : list (QEventType * nat)) (w w' : CoreRenderer.t) (fbo : Fbo) :
  CoreRenderer.m_fbo w = Some fbo ->
  CoreRenderer.deliver debug events w = Ok w' ->
  CoreRenderer.m_fbo w' = Some fbo /\
  CoreRenderer.fbo_created w' = CoreRenderer.fbo_created w /\
  (CoreRenderer.image w' = CoreRenderer.image w \/
   img_size <$> CoreRenderer.image w' = Some (fbo_size fbo)).
Proof.
  revert w. induction events as [|[e scene] events IH]; intros w Hfbo.
  - cbn. intros [= <-]. auto.
  - cbn [CoreRenderer.deliver].
    destruct (CoreRenderer.event debug scene e w) as [[w1 handled]|f] eqn:E1;
      cbn [mbind result_bind]; [|discriminate].
    destruct (event_keeps_target debug scene e w w1 handled fbo Hfbo E1)
      as (Hfbo1 & Hn1 & Himg1).
    intros E. destruct (IH w1 Hfbo1 E) as (Hfbo' & Hn' & Himg').
    repeat split; [exact Hfbo'|congruence|].
    destruct Himg' as [->|Himg']; [exact Himg1|now right].
Qed.

Lemma CoreRenderer_target_is_for_life_witness :
  let small := mkFbo 0 (mkQSize 640 480) in
  let w := CoreRenderer.mk true true (Some small) (Live (Driver.create 40))
             Format_RGBA8888 (mkQSize 1280 720) 1%Q 25 None 1 0 in
  exists w',
    CoreRenderer.deliver false [(RENDER, 0%nat); (STOP, 1%nat); (INIT, 1%nat);
                                (RENDER, 1%nat)] w = Ok w' /\
    CoreRenderer.m_fbo w' = Some small /\
    CoreRenderer.fbo_created w' = 1%nat /\
    (CoreRenderer.image w' = None \/
     img_size <$> CoreRenderer.image w' = Some (mkQSize 640 480)).
Proof.
  intros small w. eexists. split; [reflexivity|].
  apply (CoreRenderer_target_is_for_life false
           [(RENDER, 0%nat); (STOP, 1%nat); (INIT, 1%nat); (RENDER, 1%nat)] w _ small);
    reflexivity.
Defined.
(** ** The facade: what an animated render returns, and the destructor *)


(** X10: on a new session of F frames per second and D seconds whose
    scene loads, whose clock step 1000 / ((F*D - 2) / D) is defined and
    whose context can be made current, the animated render of frame i
    returns an image of the requested size and format: that of frame i
    (drawn after i animation steps) if i + 2 < F*D, and that of the last
    frame F*D - 1 otherwise. *)
Theorem animated_render_returns (debug : bool) (o : Scene.QObject)
  (F D i W H : Z) (fmt : QImageFormat) :
  0 < D -> 1 <= F * D <= INT_MAX -> Z.quot (F * D - 2) D <> 0 ->
  1 <= W -> 1 <= H -> 0 <= i ->
  exists r0 r',
    QmlRenderer.create true (QmlRenderer.RootObject o true) F D = Ok r0 /\
    QmlRenderer.render debug W H fmt i r0 =
      Some (Ok (Some (mkQImage (mkQSize W H) fmt
                        (Z.to_nat (if i + 2 <? F * D then i else F * D - 1))),
                r')).
Proof.
  intros HD HN Hfps HW HH Hi.
  destruct (render_returns_scene debug o F D i W H fmt HD HN Hfps HW HH Hi)
    as (r0 & r' & E0 & _ & E).
  exists r0, r'. split; [exact E0|]. rewrite E.
  unfold AnimatedSession.image, AnimatedSession.returned_scene, AnimatedSession.N.
  do 5 f_equal.
  destruct (Z.ltb_spec i (F * D)), (Z.eqb_spec (i + 2) (F * D)),
    (Z.ltb_spec (i + 2) (F * D)); lia.
Qed.

Lemma animated_render_returns_witness :
  exists r0 r',
    QmlRenderer.create true
      (QmlRenderer.RootObject (Scene.mkQObject "QQuickItem" [] []) true) 25 2 = Ok r0 /\
    QmlRenderer.render false 640 480 Format_RGBA8888 7 r0 =
      Some (Ok (Some (mkQImage (mkQSize 640 480) Format_RGBA8888
                        (Z.to_nat (if 7 + 2 <? 25 * 2 then 7 else 25 * 2 - 1))),
                r')).
Proof.
  apply (animated_render_returns false (Scene.mkQObject "QQuickItem" [] [])
           25 2 7 640 480 Format_RGBA8888); try lia.
  - change INT_MAX with 2147483647. lia.
  - discriminate.
Defined.

(** ** The producer: what a call reports *)

Section ReportFacts.
Import Producer.
Variable h : host.

Lemma alloc_keeps (size : Z) (w : world) (p : nat) (w1 : world) :
  alloc size w = (p, w1) ->
  self w1 = self w /\ frame_props w1 = frame_props w /\
  producer_props w1 = producer_props w /\
  next_block (pool w1) = S (next_block (pool w)).
Proof. unfold alloc. cbn. intros [= <- <-]. auto. Qed.

Lemma mlt_frame_get_image_keeps (fmt : mlt_image_format) (width height : Z)
  (w : world) :
  self (mlt_frame_get_image h fmt width height w).1 = self w /\
  producer_props (mlt_frame_get_image h fmt width height w).1 = producer_props w /\
  exists b f, (mlt_frame_get_image h fmt width height w).2 = (b, f, width, height).
Proof.
  unfold mlt_frame_get_image.
  destruct (get_buffer _ _) as [p|]; [|cbn; eauto].
  destruct (decide _); [cbn; eauto|].
  destruct (frame_convert _ _ _ _ _ _) as [bytes|]; [|cbn; eauto].
  destruct (alloc _ w) as [q w1] eqn:E. apply alloc_keeps in E as (Es & _ & Ep & _).
  cbn. rewrite Es, Ep. eauto.
Qed.

(** After a render the producer holds an image of the size asked for,
    in rgba. *)
Lemma render_title_holds (animated : bool) (width height position : Z)
  (r : QmlRenderer.t) (w w' : world) :
  render_title h animated width height position r w = Some (Ok w') ->
  current_image (self w') <> None /\
  current_width (self w') = width /\ current_height (self w') = height /\
  format (self w') = mlt_image_rgb24a /\
  frame_props w' = frame_props w.
Proof.
  unfold render_title.
  destruct (alloc (width * height * 4) w) as [rgba w1] eqn:E1.
  apply alloc_keeps in E1 as (Es1 & Ef1 & _).
  match goal with |- context [match ?x with Some _ => _ | None => None end] =>
    destruct x as [[[[qimg|] r']|f]|] end; try discriminate.
  match goal with |- context [alloc ?s ?x] =>
    destruct (alloc s x) as [cur w8] eqn:E8 end.
  apply alloc_keeps in E8 as (Es8 & Ef8 & _). cbn in Es8, Ef8.
  unfold mlt_frame_get_alpha.
  cbn [frame_props set_self set_producer_property set_producer_props set_pool].
  rewrite Ef8, Ef1.
  destruct (get_buffer (frame_props w) "alpha") as [alpha|].
  - match goal with |- context [alloc ?s ?x] =>
      destruct (alloc s x) as [ca w14] eqn:E14 end.
    apply alloc_keeps in E14 as (Es14 & Ef14 & _). cbn in Es14, Ef14.
    intros [= <-]. cbn. rewrite Es14, Ef14, Ef8, Ef1. cbn. rewrite Es8. cbn.
    repeat split; congruence.
  - intros [= <-]. cbn. rewrite Es8, Ef8, Ef1. cbn. repeat split; congruence.
Qed.

(** The conversion step keeps the image and its size, leaves the format
    asked for in self->format and the size in the frame's properties. *)
Lemma convert_title_reports (fmt : mlt_image_format) (width height : Z)
  (w w' : world) :
  convert_title h fmt width height w = Ok w' ->
  current_width (self w') = current_width (self w) /\
  current_height (self w') = current_height (self w) /\
  (current_image (self w) <> None -> current_image (self w') <> None) /\
  mlt_properties_get_int h (frame_props w') "width" = current_width (self w) /\
  mlt_properties_get_int h (frame_props w') "height" = current_height (self w) /\
  (fmt <> mlt_image_none -> fmt <> mlt_image_glsl -> format (self w') = fmt) /\
  (fmt = mlt_image_none \/ fmt = mlt_image_glsl -> format (self w') = format (self w)).
Proof.
  unfold convert_title.
  match goal with |- (?m ≫= _) = _ -> _ =>
    assert (Hconv : forall w1, m = Ok w1 ->
              current_width (self w1) = current_width (self w) /\
              current_height (self w1) = current_height (self w) /\
              (current_image (self w) <> None -> current_image (self w1) <> None) /\
              (fmt <> mlt_image_none -> fmt <> mlt_image_glsl -> format (self w1) = fmt) /\
              (fmt = mlt_image_none \/ fmt = mlt_image_glsl ->
               format (self w1) = format (self w)));
    [|destruct m as [w1|f]; [|discriminate]] end.
  - destruct (bool_decide (fmt = mlt_image_none)) eqn:Hnone;
      [apply bool_decide_eq_true in Hnone|apply bool_decide_eq_false in Hnone];
      cbn [negb andb].
    { intros w1 [= <-]. repeat split; auto; congruence. }
    destruct (bool_decide (fmt = mlt_image_glsl)) eqn:Hglsl;
      [apply bool_decide_eq_true in Hglsl|apply bool_decide_eq_false in Hglsl];
      cbn [negb andb].
    { intros w1 [= <-]. repeat split; auto; congruence. }
    destruct (bool_decide (fmt = format (self w))) eqn:Hsame;
      [apply bool_decide_eq_true in Hsame|apply bool_decide_eq_false in Hsame];
      cbn [negb andb].
    { intros w1 [= <-]. repeat split; auto; try congruence;
        try (intros [?|?]; congruence). }
    match goal with |- forall _, (?m ≫= _) = _ -> _ =>
      assert (Hrevert : forall w1, m = Ok w1 ->
                current_width (self w1) = current_width (self w) /\
                current_height (self w1) = current_height (self w) /\
                (current_image (self w) <> None -> current_image (self w1) <> None));
      [|destruct m as [w1|f]; [|discriminate]] end.
    + destruct (negb _); [|now intros w1 [= <-]].
      destruct (rgba_image (self w)) as [rgba|]; [|discriminate].
      destruct (alloc _ w) as [cur wa] eqn:Ea.
      apply alloc_keeps in Ea as (Esa & _).
      intros w1 [= <-]. cbn. rewrite Esa. repeat split; congruence.
    + destruct (Hrevert w1 eq_refl) as (Hw1 & Hh1 & Hi1).
      cbn [mbind result_bind]. cbv zeta.
      match goal with |- context [mlt_frame_get_image h ?f ?a ?b ?x] =>
        destruct (mlt_frame_get_image_keeps f a b x) as (Hs5 & _ & bf & ff & Hr5);
        destruct (mlt_frame_get_image h f a b x) as [w5 [[[buffer fmt'] width'] height']]
      end.
      cbn [fst snd] in Hs5, Hr5. injection Hr5 as -> -> -> ->.
      cbn [self set_self mlt_frame_set_image mlt_frame_replace_image
           set_frame_property set_frame_props set_pool current_image
           set_format format current_width current_height] in Hs5.
      assert (Hcopy : forall w6,
                w6 = match bf with
                     | Some b =>
                         let image_size' := mlt_image_format_size h ff width height in
                         let '(cur, wa) := alloc image_size' w5 in
                         let wb := set_self (set_current_image (Some cur) (self wa)) wa in
                         let wc := set_pool (memcpy cur b image_size' (pool wb)) wb in
                         set_producer_property "_cached_image" (PBuffer (Some cur) true) wc
                     | None => w5
                     end ->
                current_width (self w6) = current_width (self w) /\
                current_height (self w6) = current_height (self w) /\
                (current_image (self w) <> None -> current_image (self w6) <> None) /\
                format (self w6) = fmt).
      { intros w6 ->. destruct bf as [b|].
        - cbv zeta. destruct (alloc _ w5) as [cur wa] eqn:Ea.
          apply alloc_keeps in Ea as (Esa & _).
          cbn. rewrite Esa, Hs5. cbn. repeat split; congruence.
        - rewrite Hs5. cbn. repeat split; auto. }
      match goal with |- forall _, match mlt_frame_get_alpha ?x with _ => _ end = _ -> _ =>
        pose proof (Hcopy x eq_refl) as Hx; set (w6 := x) in *; clearbody w6 end.
      destruct Hx as (Hw6 & Hh6 & Hi6 & Hf6).
      intros w2. destruct (mlt_frame_get_alpha w6) as [b|].
      * destruct (alloc _ w6) as [ca wa] eqn:Ea.
        apply alloc_keeps in Ea as (Esa & _).
        intros [= <-]. cbn. rewrite Esa. cbn.
        repeat split; auto; try (intros [?|?]; congruence).
      * intros [= <-]. repeat split; auto; try (intros [?|?]; congruence).
  - destruct (Hconv w1 eq_refl) as (Hw1 & Hh1 & Hi1 & Hf1 & Hf1').
    cbn [mbind result_bind]. intros [= <-].
    cbn [self set_frame_property set_frame_props set_pool frame_props].
    unfold mlt_properties_get_int.
    rewrite lookup_insert_ne by discriminate. rewrite !lookup_insert_eq.
    repeat split; auto.
Qed.

End ReportFacts.

Section TitleFacts.
Import Producer.
Variable h : host.

(** With a QApplication at hand, a call of renderKdenliveTitle that
    returns leaves an image of the size asked for. *)
Lemma renderKdenliveTitle_reports (fmt : mlt_image_format)
  (width height position force_refresh : Z) (w w' : world) :
  createQApplicationIfNeeded h = true ->
  renderKdenliveTitle h fmt width height position force_refresh w = Some (Ok w') ->
  current_image (self w') <> None /\
  current_width (self w') = width /\ current_height (self w') = height /\
  mlt_properties_get_int h (frame_props w') "width" = width /\
  mlt_properties_get_int h (frame_props w') "height" = height /\
  (fmt <> mlt_image_none -> fmt <> mlt_image_glsl -> format (self w') = fmt).
Proof.
  intros Happ. unfold renderKdenliveTitle.
  set (animated := mlt_properties_get_int h (producer_props w) "duration" >? 0).
  assert (Hafter_render : forall r w3 w4,
            render_title h animated width height position r w3 = Some (Ok w4) ->
            convert_title h fmt width height w4 = Ok w' ->
            current_image (self w') <> None /\
            current_width (self w') = width /\ current_height (self w') = height /\
            mlt_properties_get_int h (frame_props w') "width" = width /\
            mlt_properties_get_int h (frame_props w') "height" = height /\
            (fmt <> mlt_image_none -> fmt <> mlt_image_glsl -> format (self w') = fmt)).
  { intros r w3 w4 E4 E.
    apply render_title_holds in E4 as (Hi4 & Hw4 & Hh4 & _).
    apply convert_title_reports in E as (Hw & Hh & Hi & Hfw & Hfh & Hf & _).
    repeat split; auto; congruence. }
  match goal with |- context [if bool_decide (current_image (self ?x) = None) || _
                              then _ else _] =>
    assert (Hw1 : bool_decide (current_image (self x) = None) || animated = false ->
                  current_image (self x) <> None /\
                  current_width (self x) = width /\ current_height (self x) = height);
    [|generalize dependent x; intros w1 Hw1] end.
  { destruct (bool_decide (is_Some _) || (force_refresh =? 1)
              || negb (width =? current_width (self w))
              || negb (height =? current_height (self w)) || animated) eqn:Hcond.
    - destruct animated; cbn [negb].
      + intros Hb. now rewrite orb_true_r in Hb.
      + intros Hb. apply orb_false_iff in Hb as [Hb _].
        apply bool_decide_eq_false in Hb. now cbn in Hb.
    - apply orb_false_iff in Hcond as (Hcond & ->).
      apply orb_false_iff in Hcond as (Hcond & Hh%negb_false_iff%Z.eqb_eq).
      apply orb_false_iff in Hcond as (_ & Hw%negb_false_iff%Z.eqb_eq).
      rewrite orb_false_r. intros Hb%bool_decide_eq_false. auto. }
  destruct (bool_decide (current_image (self w1) = None) || animated) eqn:Hbranch.
  - clear Hw1.
    match goal with |- context [if ?c then (None, ?x) else (?y, ?z)] =>
      destruct (if c then (None, x) else (y, z)) as [renderer w3] end.
    destruct renderer as [r|].
    + destruct (render_title _ _ _ _ _ _ _) as [[w4|f]|] eqn:E4; try discriminate.
      intros [= E]. now apply (Hafter_render r w3 w4).
    + rewrite Happ. cbn [negb].
      destruct (QmlRenderer.create _ _ _ _) as [r|f]; [|discriminate].
      destruct (render_title _ _ _ _ _ _ _) as [[w5|f]|] eqn:E5; try discriminate.
      intros [= E]. eapply Hafter_render; eauto.
  - destruct (Hw1 eq_refl) as (Hi1 & Hcw1 & Hch1).
    intros [= E].
    apply convert_title_reports in E as (Hw & Hh & Hi & Hfw & Hfh & Hf & _).
    repeat split; auto; congruence.
Qed.

End TitleFacts.

(** X12: with a QApplication at hand, a call of producer_get_image that
    returns never reports an error: it returns 0 with a buffer, and the
    width and height it reports, which are also the size of the image the
    producer then holds, are the ones asked for, rescale_width and
    rescale_height of the frame taking precedence when positive; a
    requested format other than none and glsl is reported back. *)
Theorem producer_get_image_reports_request (h : Producer.host)
  (fmt : Producer.mlt_image_format) (width height : Z)
  (w w' : Producer.world) (res : Producer.image_result) :
  Producer.createQApplicationIfNeeded h = true ->
  Producer.producer_get_image h fmt width height w = Some (Ok (res, w')) ->
  let rescale_width :=
    Producer.mlt_properties_get_int h (Producer.frame_props w) "rescale_width" in
  let rescale_height :=
    Producer.mlt_properties_get_int h (Producer.frame_props w) "rescale_height" in
  let asked_width := if rescale_width >? 0 then rescale_width else width in
  let asked_height := if rescale_height >? 0 then rescale_height else height in
  Producer.error res = 0 /\ Producer.buffer res <> None /\
  Producer.out_width res = asked_width /\ Producer.out_height res = asked_height /\
  Producer.current_width (Producer.self w') = asked_width /\
  Producer.current_height (Producer.self w') = asked_height /\
  (fmt <> Producer.mlt_image_none -> fmt <> Producer.mlt_image_glsl ->
   Producer.out_format res = fmt).
Proof.
  intros Happ. unfold Producer.producer_get_image.
  destruct (Producer.render_attempt h fmt width height w) as [[w1|f]|] eqn:E;
    try discriminate.
  intros [= Hclone]. cbv zeta.
  assert (Hw' : w' = (Producer.clone_image h w1).2) by now rewrite Hclone.
  assert (Hres : res = (Producer.clone_image h w1).1) by now rewrite Hclone.
  destruct (clone_image_producer h w1) as (_ & _ & Hself).
  rewrite Hw', Hself. clear Hw' Hclone Hself.
  assert (Hreport :
    Producer.current_image (Producer.self w1) <> None /\
    Producer.current_width (Producer.self w1)
      = (if Producer.mlt_properties_get_int h (Producer.frame_props w) "rescale_width" >? 0
         then Producer.mlt_properties_get_int h (Producer.frame_props w) "rescale_width"
         else width) /\
    Producer.current_height (Producer.self w1)
      = (if Producer.mlt_properties_get_int h (Producer.frame_props w) "rescale_height" >? 0
         then Producer.mlt_properties_get_int h (Producer.frame_props w) "rescale_height"
         else height) /\
    Producer.mlt_properties_get_int h (Producer.frame_props w1) "width"
      = Producer.current_width (Producer.self w1) /\
    Producer.mlt_properties_get_int h (Producer.frame_props w1) "height"
      = Producer.current_height (Producer.self w1) /\
    (fmt <> Producer.mlt_image_none -> fmt <> Producer.mlt_image_glsl ->
     Producer.format (Producer.self w1) = fmt)).
  { unfold Producer.render_attempt in E.
    destruct (negb _) in E;
      apply (renderKdenliveTitle_reports h) in E as (Hi & Hcw & Hch & Hfw & Hfh & Hf);
      trivial; repeat split; auto; congruence. }
  destruct Hreport as (Hi & Hcw & Hch & Hfw & Hfh & Hf).
  subst res. unfold Producer.clone_image.
  destruct (Producer.current_image (Producer.self w1)) as [cur|]; [|congruence].
  destruct (Producer.alloc _ w1) as [copy wa]. cbn.
  repeat split; auto; congruence.
Qed.

Lemma producer_get_image_reports_request_witness :
  let w := Producer.set_frame_props
             (<["rescale_width" := Producer.PInt 8]>
                (Producer.frame_props Producer.example_world))
             Producer.example_world in
  exists res w',
    Producer.producer_get_image Producer.example_host Producer.mlt_image_rgb24a 4 2 w
      = Some (Ok (res, w')) /\
    Producer.error res = 0 /\ Producer.buffer res <> None /\
    Producer.out_width res = 8 /\ Producer.out_height res = 2 /\
    Producer.current_width (Producer.self w') = 8 /\
    Producer.current_height (Producer.self w') = 2 /\
    (Producer.mlt_image_rgb24a <> Producer.mlt_image_none ->
     Producer.mlt_image_rgb24a <> Producer.mlt_image_glsl ->
     Producer.out_format res = Producer.mlt_image_rgb24a).
Proof.
  intros w.
  destruct (Producer.producer_get_image Producer.example_host Producer.mlt_image_rgb24a
              4 2 w) as [[[res w']|f]|] eqn:E.
  - exists res, w'. split; [reflexivity|].
    apply (producer_get_image_reports_request Producer.example_host
             Producer.mlt_image_rgb24a 4 2 w w' res); [reflexivity|exact E].
  - vm_compute in E. discriminate.
  - vm_compute in E. discriminate.
Defined.
(** ** The producer: the calls that yield no image *)

(** X13: without a QApplication, a producer that holds no image and
    either has no renderer session yet or is asked to reload cannot get
    one: producer_get_image returns 1 with no buffer, allocates nothing
    from the pool and leaves the properties of the frame as they were. *)
Theorem producer_get_image_without_QApplication (h : Producer.host)
  (fmt : Producer.mlt_image_format) (width height : Z) (w : Producer.world) :
  Producer.createQApplicationIfNeeded h = false ->
  Producer.current_image (Producer.self w) = None ->
  (Producer.mlt_properties_get_int h (Producer.producer_props w) "force_reload" = 0 ->
   Producer.get_renderer (Producer.producer_props w) "qrenderer" = None) ->
  exists res w',
    Producer.producer_get_image h fmt width height w = Some (Ok (res, w')) /\
    Producer.error res = 1 /\ Producer.buffer res = None /\
    Producer.current_image (Producer.self w') = None /\
    Producer.next_block (Producer.pool w') = Producer.next_block (Producer.pool w) /\
    Producer.frame_props w' = Producer.frame_props w.
Proof.
  intros Happ Himg Hrenderer.
  assert (Htitle : forall width height position force_refresh w0,
            Producer.current_image (Producer.self w0) = None ->
            (force_refresh = 1 \/
             Producer.get_renderer (Producer.producer_props w0) "qrenderer" = None) ->
            exists w1,
              Producer.renderKdenliveTitle h fmt width height position force_refresh w0
                = Some (Ok w1) /\
              Producer.current_image (Producer.self w1) = None /\
              Producer.next_block (Producer.pool w1) = Producer.next_block (Producer.pool w0) /\
              Producer.frame_props w1 = Producer.frame_props w0).
  { clear -Happ. intros width height position force_refresh w0 Himg Hr.
    unfold Producer.renderKdenliveTitle.
    set (animated := Producer.mlt_properties_get_int h (Producer.producer_props w0)
                       "duration" >? 0).
    match goal with |- context [if bool_decide (Producer.current_image (Producer.self ?x) = None) || _
                                then _ else _] =>
      assert (Hw1 : Producer.current_image (Producer.self x) = None /\
                    Producer.next_block (Producer.pool x)
                      = Producer.next_block (Producer.pool w0) /\
                    Producer.frame_props x = Producer.frame_props w0 /\
                    Producer.get_renderer (Producer.producer_props x) "qrenderer"
                      = Producer.get_renderer (Producer.producer_props w0) "qrenderer");
      [|generalize dependent x; intros w1 (Hi1 & Hn1 & Hf1 & Hr1)] end.
    { destruct (_ || _); [|auto].
      destruct (negb animated); cbn; rewrite ?next_block_clear;
        unfold Producer.get_renderer;
        rewrite ?lookup_insert_ne by discriminate; auto. }
    rewrite Hi1. rewrite bool_decide_eq_true_2 by reflexivity. cbn [orb].
    rewrite Hr1.
    destruct ((force_refresh =? 1)
              && bool_decide (is_Some (Producer.get_renderer
                                          (Producer.producer_props w0) "qrenderer")))
      eqn:Hreset.
    - rewrite Happ. cbn [negb]. eexists. split; [reflexivity|].
      cbn. rewrite next_block_clear. auto.
    - assert (Hnone : Producer.get_renderer (Producer.producer_props w0) "qrenderer" = None).
      { destruct Hr as [->|Hr]; [|exact Hr]. cbn in Hreset.
        apply bool_decide_eq_false in Hreset.
        destruct (Producer.get_renderer (Producer.producer_props w0) "qrenderer");
          [|reflexivity].
        exfalso. apply Hreset. eauto. }
      rewrite Hnone, Happ. cbn [negb]. eexists. split; [reflexivity|]. cbn. auto. }
  unfold Producer.producer_get_image, Producer.render_attempt.
  set (fr := Producer.mlt_properties_get_int h (Producer.producer_props w) "force_reload") in *.
  destruct (Z.eqb_spec fr 0) as [Hzero|Hnonzero]; cbn [negb].
  - match goal with |- context [Producer.renderKdenliveTitle h fmt ?a ?b ?c 0 w] =>
      destruct (Htitle a b c 0 w Himg (or_intror (Hrenderer Hzero)))
        as (w1 & E & Hi1 & Hn1 & Hf1) end.
    rewrite E. unfold Producer.clone_image. rewrite Hi1.
    do 2 eexists. split; [reflexivity|]. cbn. auto.
  - match goal with |- context [Producer.renderKdenliveTitle h fmt ?a ?b ?c 1 ?x] =>
      destruct (Htitle a b c 1 x) as (w1 & E & Hi1 & Hn1 & Hf1); [| |] end.
    { destruct (fr >? 1); [|exact Himg].
      cbn. unfold Producer.read_qml.
      destruct (_ ≫= _); [|exact Himg].
      now destruct (Producer.load_document h _). }
    { now left. }
    rewrite E. unfold Producer.clone_image. rewrite Hi1.
    do 2 eexists. split; [reflexivity|]. cbn.
    repeat split; trivial.
    + rewrite Hn1. cbn. rewrite next_block_clear.
      destruct (fr >? 1); [|reflexivity].
      unfold Producer.read_qml.
      destruct (_ ≫= _); [|reflexivity].
      destruct (Producer.load_document h _); cbn; now rewrite ?next_block_clear.
    + rewrite Hf1. cbn.
      destruct (fr >? 1); [|reflexivity].
      unfold Producer.read_qml.
      destruct (_ ≫= _); [|reflexivity].
      now destruct (Producer.load_document h _).
Qed.

Lemma producer_get_image_without_QApplication_witness :
  let h := Producer.mkHost false false 25 true
             (Producer.files Producer.example_host)
             (Producer.load_document Producer.example_host)
             (Producer.traverseQml Producer.example_host)
             (fun _ => 0) (fun _ _ _ => 0) (fun _ => []) (fun b => b)
             (fun _ _ _ _ _ => None) in
  exists res w',
    Producer.producer_get_image h Producer.mlt_image_rgb24a 4 2 Producer.example_world
      = Some (Ok (res, w')) /\
    Producer.error res = 1 /\ Producer.buffer res = None /\
    Producer.current_image (Producer.self w') = None /\
    Producer.next_block (Producer.pool w')
      = Producer.next_block (Producer.pool Producer.example_world) /\
    Producer.frame_props w' = Producer.frame_props Producer.example_world.
Proof.
  intros h.
  apply (producer_get_image_without_QApplication h Producer.mlt_image_rgb24a 4 2
           Producer.example_world).
  - reflexivity.
  - reflexivity.
  - vm_compute. discriminate.
Defined.

(** X14: a static title cannot be rendered. For a producer whose
    duration property reads 0, that is not asked to re-read its source
    and that holds no image (or has a duration property at all, which
    makes it drop the image it holds), producer_get_image makes a session
    of duration 0 and calls its render(width, height, format), whose
    initDriver() divides by that duration: the call does not return. *)
Theorem producer_get_image_static_title (h : Producer.host)
  (fmt : Producer.mlt_image_format) (width height : Z) (w : Producer.world) :
  Producer.createQApplicationIfNeeded h = true ->
  Producer.mlt_properties_get_int h (Producer.producer_props w) "duration" = 0 ->
  Producer.mlt_properties_get_int h (Producer.producer_props w) "force_reload" <= 1 ->
  (Producer.mlt_properties_get_int h (Producer.producer_props w) "force_reload" = 0 ->
   Producer.get_renderer (Producer.producer_props w) "qrenderer" = None) ->
  (Producer.current_image (Producer.self w) = None \/
   Producer.mlt_properties_get (Producer.producer_props w) "duration" <> None) ->
  Producer.producer_get_image h fmt width height w = Some (Fault DivisionByZero).
Proof.
  intros Happ Hdur Hreload Hrenderer Himg.
  assert (Htitle : forall width height position force_refresh w0,
            Producer.mlt_properties_get_int h (Producer.producer_props w0) "duration" = 0 ->
            (Producer.current_image (Producer.self w0) = None \/
             Producer.mlt_properties_get (Producer.producer_props w0) "duration" <> None) ->
            (force_refresh = 1 \/
             Producer.get_renderer (Producer.producer_props w0) "qrenderer" = None) ->
            Producer.renderKdenliveTitle h fmt width height position force_refresh w0
              = Some (Fault DivisionByZero)).
  { clear -Happ. intros width height position force_refresh w0 Hdur Himg Hr.
    unfold Producer.renderKdenliveTitle. rewrite Hdur.
    change (0 >? 0) with false. cbn [negb orb].
    match goal with |- context [if bool_decide (Producer.current_image (Producer.self ?x) = None) || _
                                then _ else _] =>
      assert (Hw1 : Producer.current_image (Producer.self x) = None /\
                    Producer.get_renderer (Producer.producer_props x) "qrenderer"
                      = Producer.get_renderer (Producer.producer_props w0) "qrenderer");
      [|generalize dependent x; intros w1 (Hi1 & Hr1)] end.
    { rewrite orb_false_r.
      destruct (bool_decide (is_Some _) || (force_refresh =? 1)
                || negb (width =? Producer.current_width (Producer.self w0))
                || negb (height =? Producer.current_height (Producer.self w0))) eqn:Hcond.
      - cbn. unfold Producer.get_renderer.
        rewrite !lookup_insert_ne by discriminate. auto.
      - split; [|reflexivity]. destruct Himg as [Himg|Himg]; [exact Himg|].
        apply orb_false_iff in Hcond as (Hcond & _).
        apply orb_false_iff in Hcond as (Hcond & _).
        apply orb_false_iff in Hcond as (Hcond & _).
        apply bool_decide_eq_false in Hcond. exfalso. apply Hcond.
        destruct (Producer.mlt_properties_get _ _); [eauto|congruence]. }
    rewrite Hi1. rewrite bool_decide_eq_true_2 by reflexivity. cbn [orb].
    rewrite Hr1.
    assert (Hstatic : forall r w3,
              QmlRenderer.m_status r = QmlRenderer.NotRunning ->
              QmlRenderer.m_duration r = 0 -> QmlRenderer.m_framesCount r = 0 ->
              Producer.render_title h false width height position r w3
                = Some (Fault DivisionByZero)).
    { intros r w3 Hs Hd Hn. unfold Producer.render_title.
      destruct (Producer.alloc _ w3) as [rgba wa].
      unfold QmlRenderer.render_static, QmlRenderer.init. rewrite Hs. cbn [orb].
      unfold QmlRenderer.initDriver. rewrite Hn, Hd. reflexivity. }
    assert (Hnew : forall w3,
              match QmlRenderer.create (Producer.context_ok h)
                      (Producer.load_document h
                         (Producer.mlt_properties_get (Producer.producer_props w3) "resource"))
                      (Producer.profile_fps h) 0 with
              | Fault f => Some (Fault f)
              | Ok r =>
                  match Producer.render_title h false width height position r
                          (Producer.set_producer_property "qrenderer"
                             (Producer.PRenderer (Some r)) w3) with
                  | Some (Ok w5) => Some (Producer.convert_title h fmt width height w5)
                  | other => other
                  end
              end = Some (Fault DivisionByZero)).
    { intros w3. unfold QmlRenderer.create. rewrite Z.mul_0_r.
      cbn [int_of in_int mbind result_bind].
      change (int_of 0) with (Ok 0 : result Z). cbn [mbind result_bind].
      now rewrite Hstatic. }
    destruct ((force_refresh =? 1)
              && bool_decide (is_Some (Producer.get_renderer
                                          (Producer.producer_props w0) "qrenderer")))
      eqn:Hreset.
    - rewrite Happ. cbn [negb]. apply Hnew.
    - assert (Hnone : Producer.get_renderer (Producer.producer_props w0) "qrenderer" = None).
      { destruct Hr as [->|Hr]; [|exact Hr]. cbn in Hreset.
        apply bool_decide_eq_false in Hreset.
        destruct (Producer.get_renderer (Producer.producer_props w0) "qrenderer");
          [|reflexivity].
        exfalso. apply Hreset. eauto. }
      rewrite Hnone, Happ. cbn [negb]. apply Hnew. }
  unfold Producer.producer_get_image, Producer.render_attempt.
  set (fr := Producer.mlt_properties_get_int h (Producer.producer_props w) "force_reload") in *.
  destruct (Z.eqb_spec fr 0) as [Hzero|Hnonzero]; cbn [negb].
  - rewrite Htitle; auto.
  - replace (fr >? 1) with false by (symmetry; rewrite Z.gtb_ltb; apply Z.ltb_ge; lia).
    rewrite Htitle; auto.
    + unfold Producer.mlt_properties_get_int, Producer.set_producer_property.
      cbn. rewrite lookup_insert_ne by discriminate. exact Hdur.
    + destruct Himg as [Himg|Himg]; [now left|right].
      unfold Producer.mlt_properties_get, Producer.set_producer_property.
      cbn. rewrite lookup_insert_ne by discriminate. exact Himg.
Qed.

Lemma producer_get_image_static_title_witness :
  let w := Producer.set_producer_props
             (<["duration" := Producer.PInt 0]>
                (<["resource" := Producer.PString "title.qml"]> ∅))
             Producer.example_world in
  Producer.producer_get_image Producer.example_host Producer.mlt_image_rgb24a 4 2 w
    = Some (Fault DivisionByZero).
Proof.
  intros w.
  apply (producer_get_image_static_title Producer.example_host
           Producer.mlt_image_rgb24a 4 2 w).
  - reflexivity.
  - reflexivity.
  - vm_compute. discriminate.
  - reflexivity.
  - right. vm_compute. discriminate.
Defined.
(** ** The producer: construction *)

(** X15: producer_qml_init gives no producer exactly when calloc or
    mlt_producer_init fails or there is no QApplication; the QML file does
    not matter. A producer it gives has progressive, aspect_ratio and
    seekable set to 1, holds no image, has taken nothing from the pool,
    and has opened its resource once; if the resource cannot be read the
    producer is given all the same, with resource set and _qmldata as
    mlt_producer_init left it. *)
Theorem producer_qml_init_outcome (h : Producer.host)
  (calloc_ok mlt_producer_init_ok : bool)
  (defaults : gmap string Producer.property) (m : Producer.mlt_pool)
  (filename : string) :
  let made := Producer.producer_qml_init h calloc_ok mlt_producer_init_ok
                defaults m filename in
  (made = None <->
   calloc_ok && mlt_producer_init_ok && Producer.createQApplicationIfNeeded h = false) /\
  forall w, made = Some w ->
    Producer.mlt_properties_get_int h (Producer.producer_props w) "progressive" = 1 /\
    Producer.mlt_properties_get_int h (Producer.producer_props w) "aspect_ratio" = 1 /\
    Producer.mlt_properties_get_int h (Producer.producer_props w) "seekable" = 1 /\
    Producer.self w = Producer.mkSelf None None None Producer.mlt_image_none 0 0 /\
    Producer.next_block (Producer.pool w) = Producer.next_block m /\
    Producer.qml_reads w = 1%nat /\
    (Producer.files h filename = None ->
     Producer.mlt_properties_get (Producer.producer_props w) "resource" = Some filename /\
     Producer.producer_props w !! "_qmldata" = defaults !! "_qmldata").
Proof.
  cbv zeta. unfold Producer.producer_qml_init.
  destruct (calloc_ok && mlt_producer_init_ok); cbn [andb];
    [|split; [tauto|discriminate]].
  destruct (Producer.createQApplicationIfNeeded h); cbn [negb];
    [|split; [tauto|discriminate]].
  split; [split; discriminate|].
  intros w [= <-].
  match goal with |- context [Producer.read_qml h ?x] =>
    set (w1 := x);
    assert (Hread : Producer.self (Producer.read_qml h w1) = Producer.self w1 /\
                    Producer.next_block (Producer.pool (Producer.read_qml h w1))
                      = Producer.next_block (Producer.pool w1) /\
                    (Producer.files h filename = None ->
                     Producer.producer_props (Producer.read_qml h w1)
                       = Producer.producer_props w1)) end.
  { unfold Producer.read_qml.
    replace (Producer.mlt_properties_get (Producer.producer_props w1) "resource")
      with (Some filename)
      by (subst w1; unfold Producer.mlt_properties_get; cbn;
          now rewrite lookup_insert_eq).
    cbn [mbind option_bind].
    destruct (Producer.files h filename) as [str|]; [|auto].
    destruct (Producer.load_document h (Some filename));
      cbn; rewrite ?next_block_clear; repeat split; trivial; discriminate. }
  destruct Hread as (Hs & Hn & Hp).
  unfold Producer.mlt_properties_get_int, Producer.mlt_properties_get.
  cbn [Producer.producer_props Producer.set_producer_property
       Producer.set_producer_props Producer.set_pool Producer.self Producer.pool
       Producer.qml_reads].
  rewrite !next_block_clear, Hs, Hn, qml_reads_read_qml.
  rewrite lookup_insert_eq.
  rewrite (lookup_insert_ne _ "seekable" "aspect_ratio") by discriminate.
  rewrite lookup_insert_eq.
  rewrite !(lookup_insert_ne _ _ "progressive") by discriminate.
  rewrite lookup_insert_eq.
  repeat split; trivial.
  - subst w1. cbn. apply next_block_clear.
  - rewrite !lookup_insert_ne by discriminate. rewrite (Hp H).
    subst w1. cbn. now rewrite lookup_insert_eq.
  - rewrite !lookup_insert_ne by discriminate. rewrite (Hp H).
    subst w1. cbn. now rewrite lookup_insert_ne by discriminate.
Qed.
(** ** The facade: what an animated render costs *)

Section CostFacts.
Import QmlRenderer AnimatedSession.
Variables (debug : bool) (o : Scene.QObject) (F D i W H : Z) (fmt : QImageFormat).
Hypothesis HD : 0 < D.
Hypothesis HN : 1 <= F * D <= INT_MAX.
Hypothesis Hfps : Z.quot (F * D - 2) D <> 0.
Hypothesis HW : 1 <= W.
Hypothesis HH : 1 <= H.
Hypothesis Hi : 0 <= i.

Local Abbreviation st := (st o F D i W H fmt).

(** render() is about to return after [k] calls of renderAnimated(). *)
Local Abbreviation stopped_after r k :=
  (exists img q, r = st k img q /\ Z.of_nat k = Z.min (i + 2) (F * D)).

Lemma step (k : nat) (img : option QImage) (q : list event) :
  Z.of_nat k < F * D ->
  renderAnimated debug (st k img q) =
    Ok (st (S k) (img_after F D i W H fmt k img) (q ++ events_after F D i k)).
Proof. intros Hk. now apply renderAnimated_step. Qed.

(** The pass that finds the quit call queued. *)
Lemma last_pass_count (K : nat) :
  Z.of_nat K = Z.min i (F * D - 1) ->
  exists r' k,
    exec debug 1 (st (S K) (img_after F D i W H fmt K None) (events_after F D i K))
      = Some (Ok r') /\ stopped_after r' k.
Proof.
  intros HK. unfold events_after, AnimatedSession.N.
  destruct (Z.eqb_spec (Z.of_nat K) i) as [Hreq|Hreq];
    destruct (Z.ltb_spec (Z.of_nat K + 1) (F * D)) as [Hmore|Hlast];
    cbn [app exec posted AnimatedSession.st sendPostedEvents];
    try lia.
  - change (set_posted [] (AnimatedSession.st o F D i W H fmt (S K) ?im ?q))
      with (st (S K) im []).
    rewrite step by lia. cbn [mbind result_bind].
    do 2 eexists. split; [reflexivity|]. do 2 eexists. split; [reflexivity|]. lia.
  - do 2 eexists. split; [reflexivity|]. do 2 eexists. split; [reflexivity|]. lia.
  - do 2 eexists. split; [reflexivity|]. do 2 eexists. split; [reflexivity|]. lia.
Qed.

Lemma passes_count (gap : nat) : forall k : nat,
  Z.of_nat (k + gap) = Z.min i (F * D - 1) ->
  exists passes r' k',
    exec debug passes (st k None [UpdateRequest]) = Some (Ok r') /\
    stopped_after r' k'.
Proof.
  induction gap as [|gap IH]; intros k Hk.
  - destruct (last_pass_count k) as (r' & k' & E & Hstop); [lia|].
    exists 2%nat, r', k'. split; [|exact Hstop].
    cbn [exec posted AnimatedSession.st sendPostedEvents].
    change (set_posted [] (AnimatedSession.st o F D i W H fmt k None ?q))
      with (st k None []).
    rewrite step by lia. cbn [mbind result_bind app]. exact E.
  - destruct (IH (S k)) as (passes & r' & k' & E & Hstop); [lia|].
    exists (S passes), r', k'. split; [|exact Hstop].
    cbn [exec posted AnimatedSession.st sendPostedEvents].
    change (set_posted [] (AnimatedSession.st o F D i W H fmt k None ?q))
      with (st k None []).
    rewrite step by lia. cbn [mbind result_bind app].
    unfold img_after, events_after, AnimatedSession.N.
    destruct (Z.eqb_spec (Z.of_nat k) i); [lia|].
    destruct (Z.ltb_spec (Z.of_nat k + 1) (F * D)); [|lia].
    exact E.
Qed.

Lemma render_count (r0 : t) :
  create true (RootObject o true) F D = Ok r0 ->
  exists img r',
    render debug W H fmt i r0 = Some (Ok (img, r')) /\
    m_corerenderer r' = core F W H fmt (Z.to_nat (Z.min (i + 2) (F * D))) /\
    m_animationDriver r' = Null /\ m_rootItem r' = Deleted.
Proof.
  intros E0.
  assert (Hrun : exists passes r3 k,
             exec debug passes
               (st 1 (img_after F D i W H fmt 0 None) ([] ++ events_after F D i 0))
               = Some (Ok r3) /\ stopped_after r3 k).
  { destruct (Z.eq_dec (Z.min i (F * D - 1)) 0) as [HK|HK].
    - destruct (last_pass_count 0) as (r3 & k & E & Hstop); [cbn; lia|].
      exists 1%nat, r3, k. auto.
    - destruct (passes_count (Z.to_nat (Z.min i (F * D - 1)) - 1) 1)
        as (passes & r3 & k & E & Hstop); [lia|].
      exists passes, r3, k.
      unfold img_after, events_after, AnimatedSession.N.
      change (Z.of_nat 0) with 0.
      destruct (Z.eqb_spec 0 i); [lia|].
      destruct (Z.ltb_spec (0 + 1) (F * D)); [|lia]. auto. }
  destruct Hrun as (passes & r3 & k & E & img & q & -> & Hk).
  unfold render. rewrite (init_fresh debug o F D i W H fmt HD HN Hfps HW HH r0 E0).
  rewrite step by (cbn; lia).
  destruct (exec debug (passes_bound _) _) as [x|] eqn:Ex;
    [|now apply exec_total in Ex].
  rewrite (exec_agree _ _ _ _ _ _ Ex E).
  unfold resetDriver. cbn [m_animationDriver AnimatedSession.st deref mbind result_bind].
  do 2 eexists. split; [reflexivity|].
  cbn [m_corerenderer m_animationDriver m_rootItem set_posted set_rootItem set_driver
       AnimatedSession.st].
  repeat split. f_equal. lia.
Qed.

End CostFacts.

(** X16: an animated render starts the animation anew and draws every
    frame up to the one asked for, and one more: on a new session of F*D
    frames the call for frame i has the worker render min(i + 2, F*D)
    times into one target, and it leaves the session without its clock
    and without its root item. *)
Theorem animated_render_cost (debug : bool) (o : Scene.QObject)
  (F D i W H : Z) (fmt : QImageFormat) :
  0 < D -> 1 <= F * D <= INT_MAX -> Z.quot (F * D - 2) D <> 0 ->
  1 <= W -> 1 <= H -> 0 <= i ->
  exists r0 img r',
    QmlRenderer.create true (QmlRenderer.RootObject o true) F D = Ok r0 /\
    QmlRenderer.render debug W H fmt i r0 = Some (Ok (img, r')) /\
    Z.of_nat (QmlCoreRenderer.wakes (QmlRenderer.m_corerenderer r'))
      = Z.min (i + 2) (F * D) /\
    QmlCoreRenderer.fbo_created (QmlRenderer.m_corerenderer r') = 1%nat /\
    QmlRenderer.m_animationDriver r' = Null /\
    QmlRenderer.m_rootItem r' = Deleted.
Proof.
  intros HD HN Hfps HW HH Hi.
  destruct (create_framesCount true (QmlRenderer.RootObject o true) F D)
    as (r0 & E0 & _).
  { apply in_int_spec. change INT_MIN with (-2147483648). lia. }
  destruct (render_count debug o F D i W H fmt HD HN Hfps HW HH Hi r0 E0)
    as (img & r' & E & Hcore & Hd & Hitem).
  exists r0, img, r'. repeat split; trivial; rewrite Hcore.
  - destruct (Z.to_nat (Z.min (i + 2) (F * D))) as [|k] eqn:Ek; [lia|].
    cbn. lia.
  - destruct (Z.to_nat (Z.min (i + 2) (F * D))) as [|k] eqn:Ek; [lia|].
    reflexivity.
Qed.

Lemma animated_render_cost_witness :
  exists r0 img r',
    QmlRenderer.create true
      (QmlRenderer.RootObject (Scene.mkQObject "QQuickItem" [] []) true) 25 2 = Ok r0 /\
    QmlRenderer.render false 640 480 Format_RGBA8888 7 r0 = Some (Ok (img, r')) /\
    Z.of_nat (QmlCoreRenderer.wakes (QmlRenderer.m_corerenderer r'))
      = Z.min (7 + 2) (25 * 2) /\
    QmlCoreRenderer.fbo_created (QmlRenderer.m_corerenderer r') = 1%nat /\
    QmlRenderer.m_animationDriver r' = Null /\
    QmlRenderer.m_rootItem r' = Deleted.
Proof.
  apply (animated_render_cost false (Scene.mkQObject "QQuickItem" [] [])
           25 2 7 640 480 Format_RGBA8888); try lia.
  - change INT_MAX with 2147483647. lia.
  - discriminate.
Defined.
(** ** The producer: the bytes of an animated title *)

Section BytesFacts.
Import Producer.
Variable h : host.

Lemma live_store (p q : nat) (bytes : list byte) (m : mlt_pool) :
  is_Some (blocks (store p bytes m) !! q) <-> is_Some (blocks m !! q).
Proof.
  unfold store. cbn. destruct (blocks m !! p) eqn:Ep; [|tauto].
  destruct (decide (p = q)) as [->|Hne].
  - rewrite lookup_insert_eq, Ep. split; eauto.
  - now rewrite lookup_insert_ne.
Qed.


Lemma live_alloc_old (size : Z) (m : mlt_pool) (q : nat) :
  is_Some (blocks m !! q) -> is_Some (blocks (mlt_pool_alloc size m).2 !! q).
Proof.
  cbn. destruct (decide (next_block m = q)) as [->|Hne].
  - rewrite lookup_insert_eq. eauto.
  - now rewrite lookup_insert_ne.
Qed.



End BytesFacts.

Section AnimatedTitle.
Import Producer.
Variable h : host.
Variables (o : Scene.QObject) (D i W H : Z).
Hypothesis Happ : createQApplicationIfNeeded h = true.
Hypothesis Hctx : context_ok h = true.
Hypothesis HD : 0 < D.
Hypothesis HN : 1 <= profile_fps h * D <= INT_MAX.
Hypothesis Hfps : Z.quot (profile_fps h * D - 2) D <> 0.
Hypothesis HW : 1 <= W.
Hypothesis HH : 1 <= H.
Hypothesis Hi : 0 <= i.

(** The frame that an animated render on a new session hands back. *)
Local Abbreviation shown :=
  (mkQImage (mkQSize W H) Format_RGBA8888
     (Z.to_nat (if i + 2 <? profile_fps h * D then i else profile_fps h * D - 1))).

Local Abbreviation n := (Z.to_nat (W * H * 4)).

(** What the producer caches of it. *)
Local Abbreviation cached :=
  (take n (convert_qimage_to_mlt_rgba h
             (take n (constBits h shown) ++ drop n (replicate n x00)))
   ++ drop n (replicate n x00)).


End AnimatedTitle.


(** ** The producer: no block is lost *)

Section LeakFacts.
Import Producer.
Variable h : host.

Lemma nl_mono (P P' : list nat) (w : world) :
  (forall p, In p P -> In p P') -> no_leak_but P w -> no_leak_but P' w.
Proof. intros Hincl Hw p Hp. destruct (Hw p Hp) as [?|[?|?]]; auto. Qed.

Lemma nl_alloc (size : Z) (w : world) (q : nat) (w1 : world) (P : list nat) :
  alloc size w = (q, w1) -> In q P -> no_leak_but P w -> no_leak_but P w1.
Proof.
  unfold alloc. cbn. intros [= <- <-] Hq Hw p. cbn.
  destruct (decide (next_block (pool w) = p)) as [<-|Hne]; [auto|].
  rewrite lookup_insert_ne by exact Hne. apply Hw.
Qed.

Lemma nl_store (p : nat) (bytes : list byte) (w0 w : world) (P : list nat) :
  pool w0 = pool w -> no_leak_but P w ->
  no_leak_but P (set_pool (store p bytes (pool w0)) w).
Proof.
  intros -> Hw q Hq. cbn in *. apply Hw. now apply (live_store p q bytes).
Qed.

Lemma nl_memcpy_bytes (dst : nat) (src : list byte) (n : Z) (w0 w : world)
  (P : list nat) :
  pool w0 = pool w -> no_leak_but P w ->
  no_leak_but P (set_pool (memcpy_bytes dst src n (pool w0)) w).
Proof. apply nl_store. Qed.

Lemma nl_memcpy (dst src : nat) (n : Z) (w0 w : world) (P : list nat) :
  pool w0 = pool w -> no_leak_but P w ->
  no_leak_but P (set_pool (memcpy dst src n (pool w0)) w).
Proof. apply nl_store. Qed.

Lemma nl_set_self (s : producer_ktitle_qml_s) (w : world) (P : list nat) :
  no_leak_but P w -> no_leak_but P (set_self s w).
Proof. intros Hw. exact Hw. Qed.

(** A block that clearing a property has released is no longer in use. *)
Lemma clear_property_live (props : gmap string property) (name : string)
  (m : mlt_pool) (p : nat) :
  is_Some (blocks (clear_property props name m) !! p) ->
  is_Some (blocks m !! p) /\ props !! name <> Some (PBuffer (Some p) true).
Proof.
  intros Hp. split; [now apply blocks_clear in Hp|].
  intros E. unfold clear_property in Hp. rewrite E in Hp. cbn in Hp.
  rewrite lookup_delete_eq in Hp. now destruct Hp.
Qed.

Lemma owns_insert_other (props : gmap string property) (name : string)
  (v : property) (p : nat) :
  owns props p -> props !! name <> Some (PBuffer (Some p) true) ->
  owns (<[name := v]> props) p.
Proof.
  intros [name0 E] Hne. exists name0.
  rewrite lookup_insert_ne; [exact E|]. intros ->. contradiction.
Qed.

(** Setting a property of the producer; a pending block given with
    mlt_pool_release as destructor is pending no more. *)
Lemma nl_set_producer_property (name : string) (v : property) (w : world)
  (P P' : list nat) :
  (forall p, In p P -> In p P' \/ v = PBuffer (Some p) true) ->
  no_leak_but P w -> no_leak_but P' (set_producer_property name v w).
Proof.
  intros HP Hw p Hp. cbn in Hp. apply clear_property_live in Hp as (Hp & Hne).
  cbn [producer_props frame_props set_producer_property set_producer_props set_pool].
  destruct (Hw p Hp) as [Ho|[Ho|Hpend]]; auto.
  - left. now apply owns_insert_other.
  - destruct (HP p Hpend) as [?| ->]; auto.
    left. exists name. now rewrite lookup_insert_eq.
Qed.

Lemma nl_set_frame_property (name : string) (v : property) (w : world)
  (P P' : list nat) :
  (forall p, In p P -> In p P' \/ v = PBuffer (Some p) true) ->
  no_leak_but P w -> no_leak_but P' (set_frame_property name v w).
Proof.
  intros HP Hw p Hp. cbn in Hp. apply clear_property_live in Hp as (Hp & Hne).
  cbn [producer_props frame_props set_frame_property set_frame_props set_pool].
  destruct (Hw p Hp) as [Ho|[Ho|Hpend]]; auto.
  - right; left. now apply owns_insert_other.
  - destruct (HP p Hpend) as [?| ->]; auto.
    right; left. exists name. now rewrite lookup_insert_eq.
Qed.

(** The session behind "qrenderer" changing in place. *)
Lemma nl_renderer_changed (x y : option QmlRenderer.t) (w : world) (P : list nat) :
  producer_props w !! "qrenderer" = Some (PRenderer x) ->
  no_leak_but P w ->
  no_leak_but P (set_producer_props
                   (<["qrenderer" := PRenderer y]> (producer_props w)) w).
Proof.
  intros Hr Hw p Hp. cbn in *.
  destruct (Hw p Hp) as [Ho|[Ho|Hpend]]; auto.
  left. apply owns_insert_other; [exact Ho|]. rewrite Hr. discriminate.
Qed.

Ltac nl_side := intros ? ?; cbn [In] in *; intuition (subst; auto).

Ltac nl_step :=
  first
    [ assumption
    | apply nl_set_self
    | (apply nl_memcpy; [reflexivity|])
    | (apply nl_memcpy_bytes; [reflexivity|])
    | (apply nl_store; [reflexivity|])
    | match goal with
      | |- no_leak_but ?P (set_producer_property ?n (PBuffer (Some ?q) true) ?w) =>
          apply (nl_set_producer_property n (PBuffer (Some q) true) w (q :: P) P);
          [nl_side|]
      | |- no_leak_but ?P (set_frame_property ?n (PBuffer (Some ?q) true) ?w) =>
          apply (nl_set_frame_property n (PBuffer (Some q) true) w (q :: P) P);
          [nl_side|]
      | |- no_leak_but ?P (set_producer_property ?n ?v ?w) =>
          apply (nl_set_producer_property n v w P P); [nl_side|]
      | |- no_leak_but ?P (set_frame_property ?n ?v ?w) =>
          apply (nl_set_frame_property n v w P P); [nl_side|]
      | E : alloc _ ?w = (?q, ?w1) |- no_leak_but ?P ?w1 =>
          apply (nl_alloc _ w q w1 P E); [cbn [In]; auto 10|]
      end ].

Lemma nl_render_title (animated : bool) (width height position : Z)
  (r : QmlRenderer.t) (x : option QmlRenderer.t) (w w' : world) (P : list nat) :
  no_leak_but P w ->
  producer_props w !! "qrenderer" = Some (PRenderer x) ->
  render_title h animated width height position r w = Some (Ok w') ->
  no_leak_but P w'.
Proof.
  intros Hw Hr. unfold render_title.
  destruct (alloc (width * height * 4) w) as [rgba w1] eqn:E1.
  pose proof (alloc_keeps _ _ _ _ E1) as (_ & _ & Hp1 & _).
  match goal with |- context [match ?x with Some _ => _ | None => None end] =>
    destruct x as [[[[qimg|] r']|f]|] end; try discriminate.
  match goal with |- context [alloc ?s ?x] =>
    destruct (alloc s x) as [cur w8] eqn:E8 end.
  assert (Hrenderer : forall Q, no_leak_but Q w1 ->
            no_leak_but Q
              (set_producer_props
                 (<["qrenderer" := PRenderer (Some r')]>
                    (producer_props
                       (set_pool
                          (store rgba (replicate (Z.to_nat (width * height * 4)) x00)
                             (pool (set_self (set_rgba_image (Some rgba) (self w1)) w1)))
                          (set_self (set_rgba_image (Some rgba) (self w1)) w1))))
                 (set_pool
                    (store rgba (replicate (Z.to_nat (width * height * 4)) x00)
                       (pool (set_self (set_rgba_image (Some rgba) (self w1)) w1)))
                    (set_self (set_rgba_image (Some rgba) (self w1)) w1)))).
  { intros Q HQ. apply (nl_renderer_changed x); [cbn; now rewrite Hp1|].
    repeat nl_step. }
  destruct (mlt_frame_get_alpha _) as [alpha|].
  - match goal with |- context [alloc ?s ?x] =>
      destruct (alloc s x) as [ca w14] eqn:E14 end.
    intros [= <-]. repeat nl_step. apply Hrenderer.
    nl_step. eapply nl_mono; [|exact Hw]. cbn. auto.
  - intros [= <-]. repeat nl_step. apply Hrenderer.
    nl_step. eapply nl_mono; [|exact Hw]. cbn. auto.
Qed.

Lemma nl_mlt_frame_get_image (fmt : mlt_image_format) (width height : Z)
  (w : world) (P : list nat) :
  no_leak_but P w -> no_leak_but P (mlt_frame_get_image h fmt width height w).1.
Proof.
  intros Hw. unfold mlt_frame_get_image.
  destruct (get_buffer _ _) as [p|]; [|exact Hw].
  destruct (decide _); [exact Hw|].
  destruct (frame_convert _ _ _ _ _ _) as [bytes|]; [|exact Hw].
  destruct (alloc _ w) as [q w1] eqn:E. cbn [fst].
  unfold mlt_frame_set_image. repeat nl_step.
  eapply nl_mono; [|exact Hw]. cbn. auto.
Qed.

Lemma nl_convert_title (fmt : mlt_image_format) (width height : Z) (w w' : world)
  (P : list nat) :
  no_leak_but P w -> convert_title h fmt width height w = Ok w' -> no_leak_but P w'.
Proof.
  intros Hw. unfold convert_title.
  match goal with |- (?m ≫= _) = _ -> _ =>
    assert (Hconv : forall w1, m = Ok w1 -> no_leak_but P w1);
    [|destruct m as [w1|f]; [|discriminate]] end.
  - destruct (_ && _); [|now intros w1 [= <-]].
    match goal with |- forall _, (?m ≫= _) = _ -> _ =>
      assert (Hrevert : forall w1, m = Ok w1 -> no_leak_but P w1);
      [|destruct m as [w1|f]; [|discriminate]] end.
    + destruct (negb _); [|now intros w1 [= <-]].
      destruct (rgba_image (self w)) as [rgba|]; [|discriminate].
      destruct (alloc _ w) as [cur wa] eqn:Ea.
      intros w1 [= <-]. repeat nl_step.
      eapply nl_mono; [|exact Hw]. cbn. auto.
    + specialize (Hrevert w1 eq_refl). cbn [mbind result_bind]. cbv zeta.
      match goal with |- context [mlt_frame_get_image h ?f ?a ?b ?x] =>
        assert (Hget : no_leak_but P (mlt_frame_get_image h f a b x).1);
        [|destruct (mlt_frame_get_image h f a b x)
            as [w5 [[[buffer fmt'] width'] height']]] end.
      { apply nl_mlt_frame_get_image.
        unfold mlt_frame_set_image, mlt_frame_replace_image. repeat nl_step. }
      cbn [fst] in Hget.
      assert (Hcopy : no_leak_but P
                match buffer with
                | Some b =>
                    let image_size' := mlt_image_format_size h fmt' width' height' in
                    let '(cur, wa) := alloc image_size' w5 in
                    let wb := set_self (set_current_image (Some cur) (self wa)) wa in
                    let wc := set_pool (memcpy cur b image_size' (pool wb)) wb in
                    set_producer_property "_cached_image" (PBuffer (Some cur) true) wc
                | None => w5
                end).
      { destruct buffer as [b|]; [|exact Hget]. cbv zeta.
        destruct (alloc _ w5) as [cur wa] eqn:Ea. repeat nl_step.
        eapply nl_mono; [|exact Hget]. cbn. auto. }
      intros w2.
      destruct (mlt_frame_get_alpha _) as [b|].
      * match goal with |- context [alloc ?s ?x] =>
          destruct (alloc s x) as [ca wa] eqn:Ea end.
        intros [= <-]. repeat nl_step.
        eapply nl_mono; [|exact Hcopy]. cbn. auto.
      * intros [= <-]. exact Hcopy.
  - specialize (Hconv w1 eq_refl). cbn [mbind result_bind].
    intros [= <-]. repeat nl_step.
Qed.

Lemma nl_renderKdenliveTitle (fmt : mlt_image_format)
  (width height position force_refresh : Z) (w w' : world) (P : list nat) :
  no_leak_but P w ->
  renderKdenliveTitle h fmt width height position force_refresh w = Some (Ok w') ->
  no_leak_but P w'.
Proof.
  intros Hw. unfold renderKdenliveTitle.
  set (animated := mlt_properties_get_int h (producer_props w) "duration" >? 0).
  match goal with |- context [if bool_decide (current_image (self ?x) = None) || _
                              then _ else _] =>
    assert (Hw1 : no_leak_but P x); [|generalize dependent x; intros w1 Hw1] end.
  { destruct (_ || _); [|exact Hw].
    destruct (negb animated); repeat nl_step. }
  destruct (_ || animated).
  - destruct (get_renderer (producer_props w1) "qrenderer") as [r|] eqn:Er.
    + assert (Hprop : producer_props w1 !! "qrenderer" = Some (PRenderer (Some r))).
      { unfold get_renderer in Er.
        destruct (producer_props w1 !! "qrenderer") as [[| | |x]|]; try discriminate.
        now subst. }
      destruct (force_refresh =? 1); cbn [andb].
      * rewrite bool_decide_eq_true_2 by eauto.
        destruct (negb _); [intros [= <-]; repeat nl_step|].
        destruct (QmlRenderer.create _ _ _ _) as [r0|f]; [|discriminate].
        destruct (render_title _ _ _ _ _ _ _) as [[w5|f]|] eqn:E5; try discriminate.
        intros [= E]. eapply nl_convert_title; [|exact E].
        eapply (nl_render_title _ _ _ _ _ (Some r0)); [| |exact E5].
        -- repeat nl_step.
        -- cbn. now rewrite lookup_insert_eq.
      * destruct (render_title _ _ _ _ _ _ _) as [[w4|f]|] eqn:E4; try discriminate.
        intros [= E]. eapply nl_convert_title; [|exact E].
        eapply (nl_render_title _ _ _ _ _ (Some r)); [| |exact E4].
        -- repeat nl_step.
        -- exact Hprop.
    + rewrite andb_false_r.
      destruct (negb _); [intros [= <-]; repeat nl_step|].
      destruct (QmlRenderer.create _ _ _ _) as [r0|f]; [|discriminate].
      destruct (render_title _ _ _ _ _ _ _) as [[w5|f]|] eqn:E5; try discriminate.
      intros [= E]. eapply nl_convert_title; [|exact E].
      eapply (nl_render_title _ _ _ _ _ (Some r0)); [| |exact E5].
      * repeat nl_step.
      * cbn. now rewrite lookup_insert_eq.
  - intros [= E]. eapply nl_convert_title; [|exact E]. exact Hw1.
Qed.

Lemma nl_clone_image (w : world) (P : list nat) :
  no_leak_but P w -> no_leak_but P (clone_image h w).2.
Proof.
  intros Hw. unfold clone_image.
  destruct (current_image (self w)) as [cur|]; [|exact Hw].
  destruct (alloc _ w) as [copy w1] eqn:E1. cbv zeta.
  assert (Himage : no_leak_but P
            (mlt_frame_set_image (Some copy) true
               (set_pool
                  (memcpy copy cur
                     (mlt_image_format_size h (format (self w)) (current_width (self w))
                        (current_height (self w) - 1)) (pool w1)) w1))).
  { unfold mlt_frame_set_image. repeat nl_step.
    eapply nl_mono; [|exact Hw]. cbn. auto. }
  match goal with |- no_leak_but P (_, match ?a with _ => _ end).2 => destruct a as [alpha|] end;
    [|exact Himage].
  match goal with |- context [alloc ?s ?x] =>
    destruct (alloc s x) as [acopy wa] eqn:Ea end.
  cbn [snd]. unfold mlt_frame_set_alpha. repeat nl_step.
  eapply nl_mono; [|exact Himage]. cbn. auto.
Qed.

(** read_qml, as long as traverseQml leaves the buffers alone. *)
Lemma nl_read_qml (w : world) (P : list nat) :
  (forall root props p,
     props !! "duration" = Some (PInt 0) ->
     owns props p -> owns (traverseQml h root props) p) ->
  no_leak_but P w -> no_leak_but P (read_qml h w).
Proof.
  intros Htraverse Hw. unfold read_qml.
  destruct (_ ≫= _) as [str|]; [|exact Hw].
  assert (H2 : no_leak_but P
            (set_producer_property "_qmldata" (PString str)
               (mkWorld (pool w) (self w) (producer_props w) (frame_props w)
                  (S (qml_reads w))))).
  { repeat nl_step. }
  destruct (load_document _ _); try exact H2.
  - match goal with |- no_leak_but P (set_producer_props _ ?x) =>
      assert (H3 : no_leak_but P x) by (repeat nl_step) end.
    intros p Hp. destruct (H3 p Hp) as [Ho|[Ho|Hpend]];
      [left; apply Htraverse; [cbn; now rewrite lookup_insert_eq|exact Ho]
      |right; left; exact Ho|right; right; exact Hpend].
  - match goal with |- no_leak_but P (set_producer_props _ ?x) =>
      assert (H3 : no_leak_but P x) by (repeat nl_step) end.
    intros p Hp. destruct (H3 p Hp) as [Ho|[Ho|Hpend]];
      [left; apply Htraverse; [cbn; now rewrite lookup_insert_eq|exact Ho]
      |right; left; exact Ho|right; right; exact Hpend].
Qed.

End LeakFacts.

(** X18: producer_get_image loses no memory. If before the call every
    block in use is owned by a property of the producer or of the frame
    (held with mlt_pool_release as its destructor), then so it is after
    the call: every block the call has taken from the pool has been
    released again or handed to such a property. traverseQml, which is
    not part of these sources and which read_qml calls once it has reset
    the duration, is taken to leave the buffers it finds. *)
Theorem producer_get_image_loses_no_block (h : Producer.host)
  (fmt : Producer.mlt_image_format) (width height : Z)
  (w w' : Producer.world) (res : Producer.image_result) :
  (forall root props p,
     props !! "duration" = Some (Producer.PInt 0) ->
     Producer.owns props p -> Producer.owns (Producer.traverseQml h root props) p) ->
  Producer.no_leak w ->
  Producer.producer_get_image h fmt width height w = Some (Ok (res, w')) ->
  Producer.no_leak w'.
Proof.
  intros Htraverse Hw. unfold Producer.producer_get_image.
  destruct (Producer.render_attempt h fmt width height w) as [[w1|f]|] eqn:E;
    try discriminate.
  intros [= Hclone].
  assert (Hw' : w' = (Producer.clone_image h w1).2) by now rewrite Hclone.
  subst w'. apply nl_clone_image.
  unfold Producer.render_attempt in E.
  destruct (negb _).
  - eapply nl_renderKdenliveTitle; [|exact E].
    apply nl_set_producer_property with (P := []); [intros p []|].
    destruct (_ >? 1); [now apply nl_read_qml|exact Hw].
  - eapply nl_renderKdenliveTitle; [|exact E]. exact Hw.
Qed.

Lemma producer_get_image_loses_no_block_witness :
  exists res w',
    Producer.producer_get_image Producer.example_host Producer.mlt_image_rgb24a 4 2
      Producer.example_world = Some (Ok (res, w')) /\
    Producer.no_leak w'.
Proof.
  destruct (Producer.producer_get_image Producer.example_host Producer.mlt_image_rgb24a
              4 2 Producer.example_world) as [[[res w']|f]|] eqn:E.
  - exists res, w'. split; [reflexivity|].
    apply (producer_get_image_loses_no_block Producer.example_host
             Producer.mlt_image_rgb24a 4 2 Producer.example_world w' res).
    + intros root props p Hdur [name Hname]. exists name. cbn.
      destruct (Scene.getMaxDuration root); [|exact Hname].
      rewrite lookup_insert_ne; [exact Hname|]. intros <-. congruence.
    + intros p [x Hx]. cbn in Hx. now rewrite lookup_empty in Hx.
    + exact E.
  - vm_compute in E. discriminate.
  - vm_compute in E. discriminate.
Defined.
(** ** The earlier producer *)

Section LegacyFacts.
Import Producer.
Variable h : host.
Variable render_into : Z -> Z -> list byte -> list byte.

(** From rgba the conversion step has nothing to undo and so cannot
    fail. *)
Lemma convert_title_returns (fmt : mlt_image_format) (width height : Z) (w : world) :
  format (self w) = mlt_image_rgb24a ->
  exists w', convert_title h fmt width height w = Ok w'.
Proof.
  intros Hf. unfold convert_title.
  destruct (_ && _); [|cbn; eauto].
  rewrite Hf. rewrite bool_decide_eq_true_2 by reflexivity.
  cbn [negb mbind result_bind]. cbv zeta.
  match goal with |- context [mlt_frame_get_image h ?f ?a ?b ?x] =>
    destruct (mlt_frame_get_image h f a b x) as [w5 [[[buffer fmt'] width'] height']]
  end.
  destruct (mlt_frame_get_alpha _) as [b|].
  - match goal with |- context [alloc ?s ?x] =>
      destruct (alloc s x) as [ca wa] end.
    cbn. eauto.
  - cbn. eauto.
Qed.


Ltac nl_side' := intros ? ?; cbn [In] in *; intuition (subst; auto).

Ltac nl_go :=
  first
    [ assumption
    | apply nl_set_self
    | (apply nl_memcpy; [reflexivity|])
    | (apply nl_memcpy_bytes; [reflexivity|])
    | (apply nl_store; [reflexivity|])
    | match goal with
      | |- no_leak_but ?P (set_producer_property ?n (PBuffer (Some ?q) true) ?w) =>
          apply (nl_set_producer_property n (PBuffer (Some q) true) w (q :: P) P);
          [nl_side'|]
      | |- no_leak_but ?P (set_frame_property ?n (PBuffer (Some ?q) true) ?w) =>
          apply (nl_set_frame_property n (PBuffer (Some q) true) w (q :: P) P);
          [nl_side'|]
      | |- no_leak_but ?P (set_producer_property ?n ?v ?w) =>
          apply (nl_set_producer_property n v w P P); [nl_side'|]
      | |- no_leak_but ?P (set_frame_property ?n ?v ?w) =>
          apply (nl_set_frame_property n v w P P); [nl_side'|]
      | E : alloc _ ?w = (?q, ?w1) |- no_leak_but ?P ?w1 =>
          apply (nl_alloc _ w q w1 P E); [cbn [In]; auto 10|]
      | H : no_leak_but ?Q ?w |- no_leak_but ?P ?w =>
          apply (nl_mono Q P w); [cbn [In]; auto 10|exact H]
      end ].

Ltac wf_go :=
  first
    [ assumption
    | apply wf_set_producer_property
    | apply wf_set_producer_props
    | (apply wf_memcpy; [reflexivity|])
    | (apply wf_memcpy_bytes; [reflexivity|])
    | (apply wf_store_in; [reflexivity|])
    | apply wf_clear_current_image
    | apply wf_clear_current_alpha
    | apply wf_set_format
    | apply wf_set_current_size
    | apply wf_set_frame_int
    | (eapply wf_alloc_rgba_image'; [eassumption|])
    | (eapply wf_alloc_current_image'; [eassumption|])
    | (eapply wf_alloc_current_alpha'; [eassumption|])
    | (eapply wf_alloc_frame_owned; [eassumption|]) ].

(** The earlier renderKdenliveTitle: without a QApplication it only
    drops the image; with one it always renders, and returns. *)
Lemma legacy_title (fmt : mlt_image_format) (width height : Z) (w : world) :
  exists w',
    Legacy.renderKdenliveTitle h render_into fmt width height w = Ok w' /\
    (well_formed w -> well_formed w') /\
    (forall P, no_leak_but P w -> no_leak_but P w') /\
    if createQApplicationIfNeeded h
    then current_image (self w') <> None /\
         current_width (self w') = width /\ current_height (self w') = height /\
         (fmt <> mlt_image_none -> fmt <> mlt_image_glsl -> format (self w') = fmt)
    else current_image (self w') = None /\
         next_block (pool w') = next_block (pool w) /\
         frame_props w' = frame_props w.
Proof.
  unfold Legacy.renderKdenliveTitle.
  destruct (createQApplicationIfNeeded h); cbn [negb].
  - match goal with |- context [alloc ?s ?x] =>
      destruct (alloc s x) as [rgba w2] eqn:E2 end.
    match goal with |- context [alloc ?s ?x] =>
      destruct (alloc s x) as [cur w8] eqn:E8 end.
    pose proof (alloc_keeps _ _ _ _ E8) as (Es8 & _).
    match goal with |- context [convert_title h fmt width height ?x] =>
      set (w14 := x) end.
    assert (H14 : (well_formed w -> well_formed w14) /\
                  (forall P, no_leak_but P w -> no_leak_but P w14) /\
                  current_image (self w14) <> None /\
                  current_width (self w14) = width /\
                  current_height (self w14) = height /\
                  format (self w14) = mlt_image_rgb24a).
    { subst w14. destruct (mlt_frame_get_alpha _) as [alpha|].
      - match goal with |- context [alloc ?s ?x] =>
          destruct (alloc s x) as [ca wa] eqn:Ea end.
        pose proof (alloc_keeps _ _ _ _ Ea) as (Esa & _).
        split; [|split].
        + intros Hw. repeat wf_go.
        + intros P HP. repeat nl_go.
        + cbn. rewrite Esa. cbn. rewrite Es8. cbn. repeat split; congruence.
      - split; [|split].
        + intros Hw. repeat wf_go.
        + intros P HP. repeat nl_go.
        + cbn. rewrite Es8. cbn. repeat split; congruence. }
    destruct H14 as (Hwf & Hnl & Hi & Hcw & Hch & Hf).
    destruct (convert_title_returns fmt width height w14 Hf) as (w' & E).
    exists w'. split; [exact E|].
    pose proof (convert_title_reports h fmt width height w14 w' E)
      as (Hw' & Hh' & Hi' & _ & _ & Hf' & _).
    split; [|split].
    + intros Hw. eapply wf_convert_title; [|exact E]. auto.
    + intros P HP. eapply nl_convert_title; [|exact E]. auto.
    + repeat split; auto; congruence.
  - eexists. split; [reflexivity|]. split; [|split].
    + intros Hw. repeat wf_go.
    + intros P HP. repeat nl_go.
    + cbn. rewrite next_block_clear. auto.
Qed.

End LegacyFacts.
Section LegacyBytes.
Import Producer.
Variable h : host.
Variable render_into : Z -> Z -> list byte -> list byte.



End LegacyBytes.
Section LegacyImage.
Import Producer.
Variable h : host.
Variable render_into : Z -> Z -> list byte -> list byte.

(** The render and the clone of the earlier producer_get_image, from any
    state of the producer. *)
Lemma legacy_render_and_clone (fmt : mlt_image_format) (width height : Z) (w : world) :
  exists res w',
    (w3 ← Legacy.renderKdenliveTitle h render_into fmt width height w;
     let '(res, w4) := clone_image h w3 in
     Ok (mkResult (error res) (buffer res) (out_format res) width height, w4))
      = Ok (res, w') /\
    (no_leak w -> no_leak w') /\
    out_width res = width /\ out_height res = height /\
    if createQApplicationIfNeeded h
    then error res = 0 /\ is_Some (buffer res) /\
         frame_props w' !! "image" = Some (PBuffer (buffer res) true) /\
         (fmt <> mlt_image_none -> fmt <> mlt_image_glsl -> out_format res = fmt)
    else error res = 1 /\ buffer res = None /\
         next_block (pool w') = next_block (pool w) /\
         frame_props w' = frame_props w.
Proof.
  destruct (legacy_title h render_into fmt width height w)
    as (w3 & E & Hwf & Hnl & Hrest).
  rewrite E. cbn [mbind result_bind].
  destruct (clone_image h w3) as [res w4] eqn:Ec.
  exists (mkResult (error res) (buffer res) (out_format res) width height), w4.
  split; [reflexivity|].
  assert (Hw4 : w4 = (clone_image h w3).2) by now rewrite Ec.
  assert (Hres : res = (clone_image h w3).1) by now rewrite Ec.
  split; [intros Hw; rewrite Hw4; apply nl_clone_image; apply Hnl; exact Hw|].
  split; [reflexivity|]. split; [reflexivity|].
  cbn [error buffer out_format].
  clear Ec. unfold clone_image in Hw4, Hres.
  destruct (createQApplicationIfNeeded h).
  - destruct Hrest as (Hi & _ & _ & Hf).
    destruct (current_image (self w3)) as [cur|]; [|congruence].
    destruct (alloc _ w3) as [copy w5] eqn:E5.
    pose proof (alloc_keeps _ _ _ _ E5) as (Es5 & _).
    cbv zeta in Hw4, Hres. cbn [fst snd] in Hw4, Hres. subst res. cbn.
    repeat split; eauto.
    subst w4. cbn [self set_pool mlt_frame_set_image set_frame_property
                   set_frame_props].
    rewrite Es5.
    destruct (current_alpha (self w3)) as [alpha|].
    + match goal with |- context [alloc ?s ?x] =>
        destruct (alloc s x) as [ac wa] eqn:Ea end.
      pose proof (alloc_keeps _ _ _ _ Ea) as (_ & Hfa & _).
      cbn. rewrite lookup_insert_ne by discriminate.
      cbn in Hfa. rewrite Hfa. now rewrite lookup_insert_eq.
    + cbn. now rewrite lookup_insert_eq.
  - destruct Hrest as (Hi & Hn & Hf). rewrite Hi in Hw4, Hres.
    cbn in Hw4, Hres. subst. cbn. auto.
Qed.

End LegacyImage.

(** X20: the earlier producer_get_image loses no memory. If before the
    call every block in use is owned by a property of the producer or of
    the frame, then so it is after a call that returns: the image of the
    call before has been released, and every block taken from the pool
    has been handed to a property. *)
Theorem legacy_producer_get_image_loses_no_block (h : Producer.host)
  (render_into : Z -> Z -> list byte -> list byte)
  (fmt : Producer.mlt_image_format) (width height : Z)
  (w w' : Producer.world) (res : Producer.image_result) :
  Producer.no_leak w ->
  Legacy.producer_get_image h render_into fmt width height w
    = Legacy.Returned (Ok (res, w')) ->
  Producer.no_leak w'.
Proof.
  intros Hw. unfold Legacy.producer_get_image.
  set (W := if _ >? 0 then _ else width).
  set (H := if _ >? 0 then _ else height).
  assert (Hgo : forall w2, Producer.no_leak w2 ->
            Legacy.Returned
              (w3 ← Legacy.renderKdenliveTitle h render_into fmt W H w2;
               let '(res, w4) := Producer.clone_image h w3 in
               Ok (Producer.mkResult (Producer.error res) (Producer.buffer res)
                     (Producer.out_format res) W H, w4))
              = Legacy.Returned (Ok (res, w')) ->
            Producer.no_leak w').
  { intros w2 Hw2.
    destruct (legacy_render_and_clone h render_into fmt W H w2)
      as (res2 & w2' & E & Hnl & _).
    rewrite E. intros [= _ <-]. auto. }
  destruct (negb _).
  - destruct (_ >? 1).
    + unfold Legacy.read_qml. destruct (_ ≫= _) as [str|]; [|discriminate].
      apply Hgo.
      apply nl_set_producer_property with (P := []); [intros p []|].
      apply nl_set_producer_property with (P := []); [intros p []|].
      exact Hw.
    + apply Hgo. apply nl_set_producer_property with (P := []); [intros p []|].
      exact Hw.
  - now apply Hgo.
Qed.

Lemma legacy_producer_get_image_loses_no_block_witness :
  exists res w',
    Legacy.producer_get_image Producer.example_host (fun _ _ bytes => bytes)
      Producer.mlt_image_rgb24a 4 2 Producer.example_world
      = Legacy.Returned (Ok (res, w')) /\
    Producer.no_leak w'.
Proof.
  destruct (Legacy.producer_get_image Producer.example_host (fun _ _ bytes => bytes)
              Producer.mlt_image_rgb24a 4 2 Producer.example_world)
    as [[[res w']|f]|what] eqn:E.
  - exists res, w'. split; [reflexivity|].
    apply (legacy_producer_get_image_loses_no_block Producer.example_host
             (fun _ _ bytes => bytes) Producer.mlt_image_rgb24a 4 2
             Producer.example_world w' res).
    + intros p [x Hx]. cbn in Hx. now rewrite lookup_empty in Hx.
    + exact E.
  - vm_compute in E. discriminate.
  - vm_compute in E. discriminate.
Defined.



(** X22: the earlier producer_qml_init. It returns no producer exactly
    when calloc or mlt_producer_init fails or there is no QApplication.
    With a QApplication it throws the std::runtime_error of read_qml
    exactly when the file cannot be read, which leaves its caller without
    a return value; otherwise the producer it returns holds the text of
    the file in _qmldata and the file name in resource, has progressive,
    aspect_ratio and seekable set to 1, holds no image and has taken
    nothing from the pool. *)
Theorem legacy_producer_qml_init_outcome (h : Producer.host)
  (calloc_ok mlt_producer_init_ok : bool)
  (defaults : gmap string Producer.property) (m : Producer.mlt_pool)
  (filename : string) :
  let made := Legacy.producer_qml_init h calloc_ok mlt_producer_init_ok
                defaults m filename in
  (made = Legacy.Returned None <->
   calloc_ok && mlt_producer_init_ok && Producer.createQApplicationIfNeeded h = false) /\
  ((exists what, made = Legacy.Thrown what) <->
   calloc_ok && mlt_producer_init_ok && Producer.createQApplicationIfNeeded h = true /\
   Producer.files h filename = None) /\
  forall w, made = Legacy.Returned (Some w) ->
    Producer.files h filename
      = Producer.mlt_properties_get (Producer.producer_props w) "_qmldata" /\
    Producer.mlt_properties_get (Producer.producer_props w) "resource" = Some filename /\
    Producer.mlt_properties_get_int h (Producer.producer_props w) "progressive" = 1 /\
    Producer.mlt_properties_get_int h (Producer.producer_props w) "aspect_ratio" = 1 /\
    Producer.mlt_properties_get_int h (Producer.producer_props w) "seekable" = 1 /\
    Producer.self w = Producer.mkSelf None None None Producer.mlt_image_none 0 0 /\
    Producer.next_block (Producer.pool w) = Producer.next_block m.
Proof.
  cbv zeta. unfold Legacy.producer_qml_init.
  destruct (calloc_ok && mlt_producer_init_ok); cbn [andb];
    [|split; [tauto|split; [|discriminate]]; split;
      [intros [what [=]]|intros [[=] _]]].
  destruct (Producer.createQApplicationIfNeeded h); cbn [negb];
    [|split; [tauto|split; [|discriminate]]; split;
      [intros [what [=]]|intros [[=] _]]].
  unfold Legacy.read_qml.
  replace (Producer.mlt_properties_get _ "resource") with (Some filename)
    by (unfold Producer.mlt_properties_get; cbn;
        rewrite !lookup_insert_ne by discriminate; now rewrite lookup_insert_eq).
  cbn [mbind option_bind].
  destruct (Producer.files h filename) as [str|].
  - split; [split; discriminate|].
    split; [split; [intros [what [=]]|intros [_ [=]]]|].
    intros w [= <-].
    unfold Producer.mlt_properties_get, Producer.mlt_properties_get_int. cbn.
    rewrite lookup_insert_eq.
    rewrite !lookup_insert_ne by discriminate. rewrite !lookup_insert_eq.
    rewrite !lookup_insert_ne by discriminate. rewrite !lookup_insert_eq.
    rewrite !lookup_insert_ne by discriminate. rewrite !lookup_insert_eq.
    rewrite !lookup_insert_ne by discriminate. rewrite !lookup_insert_eq.
    rewrite !next_block_clear. repeat split.
  - split; [split; discriminate|].
    split; [split; eauto|]. discriminate.
Qed.
